(** * Xero payroll automation: a shallow embedding of the reconciliation core

    The development follows the Python sources:
    - [src/models.py]            value objects and their constructor checks,
    - [src/api_server.py]        [cap_regular_hours_in_parsed_data],
    - [src/consolidator.py]      [DataConsolidator],
    - [src/timesheet_builder.py] [TimesheetBuilder],
    - [src/validation.py]        [EmployeeMatcher],
    - [config/settings.py]       the matching thresholds.

    Modelling conventions.
    - A Python [float] holding hours, rates or scores is an exact rational
      ([Q]); comparisons are the numeric ones ([Qle_bool], [Qeq_bool]) and
      equality of amounts is [==].  Rounding error, infinities and NaN are
      outside the model.
    - A [datetime.date] is its proleptic ordinal ([Z], as given by
      [date.toordinal()]); [isoformat()] is an injective rendering of it and
      is left implicit.
    - A [str] is a [string] over 8-bit code points.  [str.strip],
      [str.split] and [str.lower] are written out for that range.
    - A function that raises returns [Err]; one that mutates [self]
      takes and returns the object's state. *)

From Stdlib Require Import ZArith QArith Qminmax Qround Lqa Lia List Bool Ascii String Permutation Sorted OrderedTypeEx.
From stdpp Require Import gmap strings.
Import ListNotations.

Local Open Scope Z_scope.
Local Open Scope string_scope.
Local Open Scope list_scope.

(** ** Results of fallible code *)

Inductive result (E A : Type) : Type :=
| Ok (a : A)
| Err (e : E).
Arguments Ok {E A} a.
Arguments Err {E A} e.

Definition bind {E A B : Type} (r : result E A) (k : A -> result E B) : result E B :=
  match r with
  | Ok a => k a
  | Err e => Err e
  end.

Notation "'do' x <- r ; k" := (bind r (fun x => k))
  (at level 10, x name, r at level 100, k at level 200).
Notation "'check' c 'else' e ; k" := (if c then k else Err e)
  (at level 10, c at level 100, e at level 100, k at level 200).

(** Monadic map over a list: stops at the first element that raises. *)
Fixpoint mapM {E A B : Type} (f : A -> result E B) (l : list A) : result E (list B) :=
  match l with
  | [] => Ok []
  | x :: l' => do y <- f x; do ys <- mapM f l'; Ok (y :: ys)
  end.

(** ** Numbers *)

Definition Qltb (x y : Q) : bool := negb (Qle_bool y x).

(** ** Strings: the parts of [str] the code relies on *)

(** [str.isspace] on one character: TAB..CR, FS..US and the space. *)
Definition is_space (c : ascii) : bool :=
  let n := nat_of_ascii c in
  ((9 <=? n)%nat && (n <=? 13)%nat) || ((28 <=? n)%nat && (n <=? 32)%nat).

Fixpoint lstrip (s : string) : string :=
  match s with
  | EmptyString => EmptyString
  | String c s' => if is_space c then lstrip s' else s
  end.

Fixpoint rstrip (s : string) : string :=
  match s with
  | EmptyString => EmptyString
  | String c s' =>
      match rstrip s' with
      | EmptyString => if is_space c then EmptyString else String c EmptyString
      | r => String c r
      end
  end.

(** [s.strip()] *)
Definition strip (s : string) : string := rstrip (lstrip s).

(** Python truthiness of a [str]. *)
Definition truthy (s : string) : bool :=
  match s with EmptyString => false | _ => true end.

(** [not s or not s.strip()] *)
Definition blank (s : string) : bool := negb (truthy s) || negb (truthy (strip s)).

Fixpoint all_space (s : string) : bool :=
  match s with
  | EmptyString => true
  | String c s' => is_space c && all_space s'
  end.

(** [c.lower()] for one character. *)
Definition lower_char (c : ascii) : ascii :=
  let n := nat_of_ascii c in
  if ((65 <=? n)%nat && (n <=? 90)%nat) then ascii_of_nat (n + 32) else c.

Fixpoint lower (s : string) : string :=
  match s with
  | EmptyString => EmptyString
  | String c s' => String (lower_char c) (lower s')
  end.

(** [s.split()]: maximal runs of non-whitespace characters.  [cur] is
    the token being read, in reverse. *)
Fixpoint rev_string (acc s : string) : string :=
  match s with
  | EmptyString => acc
  | String c s' => rev_string (String c acc) s'
  end.

Fixpoint split_aux (cur : string) (s : string) : list string :=
  match s with
  | EmptyString =>
      match cur with EmptyString => [] | _ => [rev_string EmptyString cur] end
  | String c s' =>
      if is_space c then
        match cur with
        | EmptyString => split_aux EmptyString s'
        | _ => rev_string EmptyString cur :: split_aux EmptyString s'
        end
      else split_aux (String c cur) s'
  end.

Definition split (s : string) : list string := split_aux EmptyString s.

(** ** Dates *)

Definition date := Z.

(** ** [models.py] *)

Inductive HourType := REGULAR | OVERTIME | TRAVEL | HOLIDAY.

Definition HourType_eqb (a b : HourType) : bool :=
  match a, b with
  | REGULAR, REGULAR | OVERTIME, OVERTIME | TRAVEL, TRAVEL | HOLIDAY, HOLIDAY => true
  | _, _ => false
  end.

(** [HourType.value] *)
Definition HourType_value (h : HourType) : string :=
  match h with
  | REGULAR => "REGULAR"
  | OVERTIME => "OVERTIME"
  | TRAVEL => "TRAVEL"
  | HOLIDAY => "HOLIDAY"
  end.

(** The exceptions raised by the modelled code, one constructor per
    [raise] site. *)
Inductive error :=
| HoursNegative (h : Q)
| HoursExceed24 (h : Q)
| RegionNameEmpty
| OvertimeRateNegative (r : Q)
| EmployeeNameEmpty
| NoDailyEntries
| EntryAfterPayPeriodEnd (entry_date pay_period_end : date)
| NoEmployeeTimesheets
| MismatchedPayPeriodEnd (employee : string)
| InvalidHourType (s : string)
| BadFileType (source : string)
| MissingKey (source key : string)
| PayPeriodEndMissing
| DateRangeTooLarge (span : Z)
| NoEmployeeData.

Record DailyEntry := {
  entry_date : date;
  region_name : string;
  hours : Q;
  hour_type : HourType;
  overtime_rate : option Q;
  xero_tracking_id : option string;
  xero_earnings_rate_id : option string;
  original_region : option string;
  region_valid : bool
}.

(** [DailyEntry._validate] *)
Definition DailyEntry_validate (d : DailyEntry) : result error unit :=
  check negb (Qltb (hours d) 0) else HoursNegative (hours d);
  check negb (Qltb 24 (hours d)) else HoursExceed24 (hours d);
  check negb (blank (region_name d)) else RegionNameEmpty;
  match overtime_rate d with
  | Some r => check negb (Qltb r 0) else OvertimeRateNegative r; Ok tt
  | None => Ok tt
  end.

(** The dataclass constructor: [__init__] followed by [__post_init__]. *)
Definition new_DailyEntry (entry_date : date) (region_name : string) (hours : Q)
    (hour_type : HourType) (overtime_rate : option Q)
    (xero_tracking_id xero_earnings_rate_id original_region : option string)
    (region_valid : bool) : result error DailyEntry :=
  let d := {| entry_date := entry_date; region_name := region_name; hours := hours;
              hour_type := hour_type; overtime_rate := overtime_rate;
              xero_tracking_id := xero_tracking_id;
              xero_earnings_rate_id := xero_earnings_rate_id;
              original_region := original_region; region_valid := region_valid |} in
  do _ <- DailyEntry_validate d; Ok d.

Record EmployeeTimesheet := {
  employee_name : string;
  daily_entries : list DailyEntry;
  pay_period_end_date : date;
  xero_employee_id : option string;
  payroll_calendar_id : option string
}.

(** The [for] loop of [EmployeeTimesheet._validate]. *)
Fixpoint check_entries_within (pay_period_end : date) (l : list DailyEntry)
  : result error unit :=
  match l with
  | [] => Ok tt
  | e :: l' =>
      check negb (pay_period_end <? entry_date e)%Z
        else EntryAfterPayPeriodEnd (entry_date e) pay_period_end;
      check_entries_within pay_period_end l'
  end.

(** [EmployeeTimesheet._validate] *)
Definition EmployeeTimesheet_validate (t : EmployeeTimesheet) : result error unit :=
  check negb (blank (employee_name t)) else EmployeeNameEmpty;
  check (match daily_entries t with [] => false | _ => true end) else NoDailyEntries;
  check_entries_within (pay_period_end_date t) (daily_entries t).

Definition new_EmployeeTimesheet (employee_name : string) (daily_entries : list DailyEntry)
    (pay_period_end_date : date) (xero_employee_id payroll_calendar_id : option string)
  : result error EmployeeTimesheet :=
  let t := {| employee_name := employee_name; daily_entries := daily_entries;
              pay_period_end_date := pay_period_end_date;
              xero_employee_id := xero_employee_id;
              payroll_calendar_id := payroll_calendar_id |} in
  do _ <- EmployeeTimesheet_validate t; Ok t.

Record PayrollData := {
  employee_timesheets : list EmployeeTimesheet;
  pd_pay_period_end_date : date
}.

Fixpoint check_same_period (pay_period_end : date) (l : list EmployeeTimesheet)
  : result error unit :=
  match l with
  | [] => Ok tt
  | t :: l' =>
      check (pay_period_end_date t =? pay_period_end)%Z
        else MismatchedPayPeriodEnd (employee_name t);
      check_same_period pay_period_end l'
  end.

(** [PayrollData._validate] *)
Definition PayrollData_validate (p : PayrollData) : result error unit :=
  check (match employee_timesheets p with [] => false | _ => true end)
    else NoEmployeeTimesheets;
  check_same_period (pd_pay_period_end_date p) (employee_timesheets p).

Definition new_PayrollData (employee_timesheets : list EmployeeTimesheet)
    (pay_period_end_date : date) : result error PayrollData :=
  let p := {| employee_timesheets := employee_timesheets;
              pd_pay_period_end_date := pay_period_end_date |} in
  do _ <- PayrollData_validate p; Ok p.

(** ** Generic helpers for Python containers *)

(** [sorted(l, key=...)] and [list.sort(key=...)] are stable.  The sort is
    written as a stable insertion sort; [precedes y x] says that [y] must
    come strictly before [x] in the result. *)
Fixpoint insert_by {A : Type} (precedes : A -> A -> bool) (x : A) (l : list A) : list A :=
  match l with
  | [] => [x]
  | y :: l' => if precedes y x then y :: insert_by precedes x l' else x :: l
  end.

Definition stable_sort {A : Type} (precedes : A -> A -> bool) (l : list A) : list A :=
  fold_right (insert_by precedes) [] l.

(** [enumerate(l)] *)
Fixpoint enumerate_from {A : Type} (n : nat) (l : list A) : list (nat * A) :=
  match l with
  | [] => []
  | x :: l' => (n, x) :: enumerate_from (S n) l'
  end.

Definition enumerate {A : Type} (l : list A) : list (nat * A) := enumerate_from 0 l.

(** An insertion-ordered [dict] with string keys. *)
Definition dict (V : Type) := list (string * V).

Fixpoint dict_get {V : Type} (k : string) (d : dict V) : option V :=
  match d with
  | [] => None
  | (k', v) :: d' => if String.eqb k' k then Some v else dict_get k d'
  end.

(** [d[k] = v]: an existing key keeps its position. *)
Fixpoint dict_set {V : Type} (k : string) (v : V) (d : dict V) : dict V :=
  match d with
  | [] => [(k, v)]
  | (k', v') :: d' => if String.eqb k' k then (k, v) :: d' else (k', v') :: dict_set k v d'
  end.

(** [min(l)] and [max(l)] of a non-empty list of dates. *)
Definition min_date (d : date) (l : list date) : date := fold_left Z.min l d.
Definition max_date (d : date) (l : list date) : date := fold_left Z.max l d.

(** ** Parsed spreadsheet data (the dictionaries emitted by the parsers) *)

(** One entry of an employee's ["entries"] list.  ["hour_type"] is still
    the raw string here. *)
Record raw_entry := {
  r_entry_date : date;
  r_region_name : string;
  r_hours : Q;
  r_hour_type : string
}.

Record employee_data := {
  ed_employee_name : string;
  ed_entries : list raw_entry
}.

(** Site or travel data.  [None] stands for a missing key. *)
Record parsed_data := {
  file_type : string;
  employees : option (list employee_data);
  pd_end_date : option date
}.

(** [data.get("employees", [])] *)
Definition get_employees (d : parsed_data) : list employee_data :=
  match employees d with Some l => l | None => [] end.

(** ** [api_server.py]: the 40-hour cap *)

Definition has_type (t : string) (e : raw_entry) : bool := String.eqb (r_hour_type e) t.

(** [sum(float(entry.get("hours", 0)) for entry in l)] *)
Definition sum_hours (l : list raw_entry) : Q :=
  fold_left (fun acc e => (acc + r_hours e)%Q) l 0%Q.

Definition set_hours (e : raw_entry) (h : Q) : raw_entry :=
  {| r_entry_date := r_entry_date e; r_region_name := r_region_name e;
     r_hours := h; r_hour_type := r_hour_type e |}.

(** The regular entries, each with its position in [entries]: the code
    finds the position back through [entry_indices[id(entry)]], and the
    entries of parsed data are pairwise distinct objects. *)
Definition regular_entries (entries : list raw_entry) : list (nat * raw_entry) :=
  List.filter (fun p => has_type "REGULAR" (snd p)) (enumerate entries).

Definition overtime_entries (entries : list raw_entry) : list raw_entry :=
  List.filter (has_type "OVERTIME") entries.

(** [sorted(regular_entries, key=entry_date, reverse=True)] *)
Definition regular_entries_by_date (entries : list raw_entry) : list (nat * raw_entry) :=
  stable_sort (fun y x => (r_entry_date (snd x) <? r_entry_date (snd y))%Z)
    (regular_entries entries).

(** The loop that fills [reductions].  Every position occurs once, so each
    assignment [reductions[entry_idx] = ...] adds a key; the list keeps the
    insertion order. *)
Fixpoint build_reductions (remaining_excess : Q) (l : list (nat * raw_entry))
  : list (nat * Q) :=
  match l with
  | [] => []
  | (entry_idx, reg_entry) :: l' =>
      if Qle_bool remaining_excess 0 then []
      else
        let entry_hours := r_hours reg_entry in
        if Qle_bool remaining_excess entry_hours
        then (entry_idx, remaining_excess) :: build_reductions 0 l'
        else (entry_idx, entry_hours)
               :: build_reductions (remaining_excess - entry_hours) l'
  end.

(** The body of the loop that applies one reduction. *)
Definition reduce_entry (reduction : Q) (entry : raw_entry) : raw_entry :=
  let new_hours := (r_hours entry - reduction)%Q in
  if Qltb 0 new_hours then set_hours entry new_hours else set_hours entry 0.

Definition apply_reductions (reductions : list (nat * Q)) (entries : list raw_entry)
  : list raw_entry :=
  fold_left (fun es p => alter (reduce_entry (snd p)) (fst p) es) reductions entries.

Definition total_regular_hours (entries : list raw_entry) : Q :=
  sum_hours (map snd (regular_entries entries)).

(** The reduction map built for one employee. *)
Definition cap_reductions (entries : list raw_entry) : list (nat * Q) :=
  let excess_hours := (total_regular_hours entries - 40)%Q in
  build_reductions excess_hours (regular_entries_by_date entries).

(** The entry list after the in-place reductions and before pruning. *)
Definition reduced_entries (entries : list raw_entry) : list raw_entry :=
  apply_reductions (cap_reductions entries) entries.

(** One iteration of the loop over employees. *)
Definition cap_employee (employee : employee_data) : employee_data :=
  let entries := ed_entries employee in
  match overtime_entries entries with
  | [] => employee
  | _ :: _ =>
      if Qle_bool (total_regular_hours entries) 40 then employee
      else
        {| ed_employee_name := ed_employee_name employee;
           ed_entries := List.filter (fun e => Qltb 0 (r_hours e)) (reduced_entries entries) |}
  end.

Definition cap_regular_hours_in_parsed_data (site_data : parsed_data) : parsed_data :=
  {| file_type := file_type site_data;
     employees := option_map (map cap_employee) (employees site_data);
     pd_end_date := pd_end_date site_data |}.

(** ** [consolidator.py] *)

(** One value of [overtime_data["overtime_rates_lookup"]]. *)
Record overtime_info := {
  has_different_overtime_rate : bool;
  oi_overtime_rate : option Q
}.

Record overtime_rates := {
  od_file_type : string;
  overtime_rates_lookup : option (dict overtime_info)
}.

(** [HourType(hour_type_str)] *)
Definition HourType_of_string (s : string) : result error HourType :=
  if String.eqb s "REGULAR" then Ok REGULAR
  else if String.eqb s "OVERTIME" then Ok OVERTIME
  else if String.eqb s "TRAVEL" then Ok TRAVEL
  else if String.eqb s "HOLIDAY" then Ok HOLIDAY
  else Err (InvalidHourType s).

(** [entry_date.year == 1900], on ordinals: 1900-01-01 is day 693596 and
    1900 has 365 days. *)
Definition year_is_1900 (d : date) : bool := (693596 <=? d)%Z && (d <=? 693960)%Z.

(** [DataConsolidator._validate_input_data] *)
Definition validate_input_data (site_data travel_data : parsed_data)
    (overtime_data : overtime_rates) : result error unit :=
  check String.eqb (file_type site_data) "site_timesheet" else BadFileType "site";
  check (match employees site_data with Some _ => true | None => false end)
    else MissingKey "site" "employees";
  check (match pd_end_date site_data with Some _ => true | None => false end)
    else MissingKey "site" "pay_period_end_date";
  check String.eqb (file_type travel_data) "travel_time" else BadFileType "travel";
  check (match employees travel_data with Some _ => true | None => false end)
    else MissingKey "travel" "employees";
  check String.eqb (od_file_type overtime_data) "overtime_rates" else BadFileType "overtime";
  check (match overtime_rates_lookup overtime_data with Some _ => true | None => false end)
    else MissingKey "overtime" "overtime_rates_lookup";
  Ok tt.

(** The dates of all entries of a source. *)
Definition all_entry_dates (d : parsed_data) : list date :=
  flat_map (fun emp => map r_entry_date (ed_entries emp)) (get_employees d).

(** The mixed-period test at the start of [consolidate]. *)
Definition effective_pay_period_end (site_data : parsed_data) (pay_period_end : date) : date :=
  match all_entry_dates site_data with
  | [] => pay_period_end
  | d :: ds =>
      let min_d := min_date d ds in
      let max_d := max_date d ds in
      if (30 <? max_d - min_d)%Z then max_d else pay_period_end
  end.

(** [DataConsolidator._validate_date_ranges]: only a span of more than a
    year raises; the other branches print warnings. *)
Definition validate_date_ranges (site_data travel_data : parsed_data) : result error unit :=
  let all_dates :=
    all_entry_dates site_data
      ++ List.filter (fun d => negb (year_is_1900 d)) (all_entry_dates travel_data) in
  match all_dates with
  | [] => Ok tt
  | d :: ds =>
      let date_span := (max_date d ds - min_date d ds)%Z in
      if (30 <? date_span)%Z then
        check negb (365 <? date_span)%Z else DateRangeTooLarge date_span; Ok tt
      else Ok tt
  end.

(** [DataConsolidator._build_employee_name_mapping] *)
Definition build_employee_name_mapping (site_data travel_data : parsed_data)
  : gmap string string :=
  let all_names : gset string :=
    list_to_set (map ed_employee_name (get_employees site_data)
                   ++ map ed_employee_name (get_employees travel_data)) in
  set_to_map (fun name => (name, name)) all_names.

(** [DataConsolidator._get_canonical_employee_name] *)
Definition get_canonical_employee_name (employee_name : string)
    (employee_mapping : gmap string string) : string :=
  default employee_name (employee_mapping !! employee_name).

(** The second loop of [_lookup_overtime_rate]. *)
Fixpoint lookup_overtime_rate_ci (employee_name : string) (lookup : dict overtime_info)
  : option Q :=
  match lookup with
  | [] => None
  | (lookup_name, emp_data) :: lookup' =>
      if String.eqb (lower lookup_name) (lower employee_name)
         && has_different_overtime_rate emp_data
      then oi_overtime_rate emp_data
      else lookup_overtime_rate_ci employee_name lookup'
  end.

(** [DataConsolidator._lookup_overtime_rate] *)
Definition lookup_overtime_rate (employee_name : string) (overtime_data : overtime_rates)
  : option Q :=
  let lookup := match overtime_rates_lookup overtime_data with Some l => l | None => [] end in
  match dict_get employee_name lookup with
  | Some emp_data =>
      if has_different_overtime_rate emp_data then oi_overtime_rate emp_data
      else lookup_overtime_rate_ci employee_name lookup
  | None => lookup_overtime_rate_ci employee_name lookup
  end.

(** [region_name not in valid_regions], for an optional set. *)
Definition region_unknown (valid_regions : option (gset string)) (region : string) : bool :=
  match valid_regions with
  | Some regions => negb (bool_decide (region ∈ regions))
  | None => false
  end.

(** [DataConsolidator._create_daily_entry_from_site_data] *)
Definition create_daily_entry_from_site_data (entry_data : raw_entry)
    (overtime_data : overtime_rates) (employee_name : string)
    (valid_regions : option (gset string)) : result error DailyEntry :=
  do hour_type <- HourType_of_string (r_hour_type entry_data);
  let overtime_rate :=
    if HourType_eqb hour_type OVERTIME
    then lookup_overtime_rate employee_name overtime_data
    else None in
  let original_region := r_region_name entry_data in
  if region_unknown valid_regions (r_region_name entry_data) then
    new_DailyEntry (r_entry_date entry_data) "Unknown" (r_hours entry_data) hour_type
      overtime_rate None None (Some original_region) false
  else
    new_DailyEntry (r_entry_date entry_data) (r_region_name entry_data) (r_hours entry_data)
      hour_type overtime_rate None None (Some original_region) true.

(** [DataConsolidator._create_daily_entry_from_travel_data] *)
Definition create_daily_entry_from_travel_data (entry_data : raw_entry)
    (pay_period_end : date) (valid_regions : option (gset string))
  : result error DailyEntry :=
  let original_region := r_region_name entry_data in
  let entry_date :=
    if year_is_1900 (r_entry_date entry_data) then pay_period_end
    else r_entry_date entry_data in
  if region_unknown valid_regions original_region then
    new_DailyEntry entry_date "Unknown" (r_hours entry_data) TRAVEL None None None
      (Some original_region) false
  else
    new_DailyEntry entry_date original_region (r_hours entry_data) TRAVEL None None None
      (Some original_region) true.

(** The part of the consolidator's state that [consolidate] resets and
    fills: [self.unknown_regions] and [self.unknown_region_entries]. *)
Record unknown_state := {
  unknown_regions : gset string;
  unknown_region_entries : list (string * option string * date * Q)
}.

Definition empty_unknown_state : unknown_state :=
  {| unknown_regions := ∅; unknown_region_entries := [] |}.

(** [consolidated_employees] (canonical name to its entries so far)
    together with the unknown-region state. *)
Definition consolidation := (dict (list DailyEntry) * unknown_state)%type.

(** [if canonical_name not in consolidated_employees: ... = {...}] *)
Definition ensure_employee (canonical_name : string) (c : dict (list DailyEntry))
  : dict (list DailyEntry) :=
  match dict_get canonical_name c with
  | Some _ => c
  | None => dict_set canonical_name [] c
  end.

(** The three statements after a [DailyEntry] has been created. *)
Definition record_entry (canonical_name : string) (daily_entry : DailyEntry)
    (st : consolidation) : consolidation :=
  let (c, u) := st in
  let u' :=
    if region_valid daily_entry then u
    else {| unknown_regions :=
              {[ default "" (original_region daily_entry) ]} ∪ unknown_regions u;
            unknown_region_entries :=
              unknown_region_entries u
                ++ [(canonical_name, original_region daily_entry,
                     entry_date daily_entry, hours daily_entry)] |} in
  (dict_set canonical_name
     (default [] (dict_get canonical_name c) ++ [daily_entry]) c, u').

(** The inner loop over one employee's entries. *)
Fixpoint add_entries (create : raw_entry -> result error DailyEntry)
    (canonical_name : string) (entries : list raw_entry) (st : consolidation)
  : result error consolidation :=
  match entries with
  | [] => Ok st
  | entry :: entries' =>
      do daily_entry <- create entry;
      add_entries create canonical_name entries' (record_entry canonical_name daily_entry st)
  end.

(** The outer loop over the employees of one source. *)
Fixpoint add_employees (create : string -> raw_entry -> result error DailyEntry)
    (employee_mapping : gmap string string) (emps : list employee_data)
    (st : consolidation) : result error consolidation :=
  match emps with
  | [] => Ok st
  | employee_data :: emps' =>
      let canonical_name :=
        get_canonical_employee_name (ed_employee_name employee_data) employee_mapping in
      let st1 := (ensure_employee canonical_name (fst st), snd st) in
      do st2 <- add_entries (create canonical_name) canonical_name
                  (ed_entries employee_data) st1;
      add_employees create employee_mapping emps' st2
  end.

(** The loop that turns [consolidated_employees] into timesheets. *)
Definition build_timesheets (pay_period_end : date) (c : dict (list DailyEntry))
  : result error (list EmployeeTimesheet) :=
  mapM (fun emp_data =>
          new_EmployeeTimesheet (fst emp_data)
            (stable_sort (fun y x => (entry_date y <? entry_date x)%Z) (snd emp_data))
            pay_period_end None None) c.

(** [DataConsolidator.consolidate].  The result carries the unknown-region
    state the call leaves in [self]. *)
Definition consolidate (site_data travel_data : parsed_data)
    (overtime_data : overtime_rates) (valid_regions : option (gset string))
  : result error (PayrollData * unknown_state) :=
  do _ <- validate_input_data site_data travel_data overtime_data;
  match pd_end_date site_data with
  | None => Err PayPeriodEndMissing
  | Some site_end =>
      let pay_period_end := effective_pay_period_end site_data site_end in
      do _ <- validate_date_ranges site_data travel_data;
      let employee_mapping := build_employee_name_mapping site_data travel_data in
      do st1 <- add_employees
                  (fun name entry =>
                     create_daily_entry_from_site_data entry overtime_data name valid_regions)
                  employee_mapping (get_employees site_data) ([], empty_unknown_state);
      do st2 <- add_employees
                  (fun _ entry =>
                     create_daily_entry_from_travel_data entry pay_period_end valid_regions)
                  employee_mapping (get_employees travel_data) st1;
      do timesheets <- build_timesheets pay_period_end (fst st2);
      let sorted_timesheets :=
        stable_sort (fun y x => String.ltb (employee_name y) (employee_name x)) timesheets in
      check (match sorted_timesheets with [] => false | _ => true end) else NoEmployeeData;
      do payroll <- new_PayrollData sorted_timesheets pay_period_end;
      Ok (payroll, snd st2)
  end.

(** One element of the report's ["unknown_region_entries"]. *)
Record unknown_region_entry := {
  ur_employee_name : string;
  ur_original_region : option string;
  ur_entry_date : date;
  ur_hours : Q
}.

Record unknown_region_report := {
  rep_unknown_regions : list string;
  rep_unknown_region_entries : list unknown_region_entry
}.

(** [DataConsolidator.get_unknown_region_report] *)
Definition get_unknown_region_report (self : unknown_state) : unknown_region_report :=
  {| rep_unknown_regions :=
       stable_sort String.ltb (List.filter truthy (elements (unknown_regions self)));
     rep_unknown_region_entries :=
       map (fun t =>
              match t with
              | (emp, orig, dt, hrs) =>
                  {| ur_employee_name := emp; ur_original_region := orig;
                     ur_entry_date := dt; ur_hours := hrs |}
              end) (unknown_region_entries self) |}.

(** One element of an employee's ["daily_entries"] in the export. *)
Record export_entry := {
  x_entry_date : date;
  x_region_name : string;
  x_hours : Q;
  x_hour_type : string;
  x_overtime_rate : option Q
}.

Record export_employee := {
  x_employee_name : string;
  x_daily_entries : list export_entry
}.

Record export_json := {
  x_pay_period_end_date : date;
  x_employees : list export_employee
}.

(** The deduplication key [(entry_date, region_name, hours, hour_type)] and
    its equality ([hours] compares as a number). *)
Definition export_key := (date * string * Q * string)%type.

Definition export_key_eqb (a b : export_key) : bool :=
  match a, b with
  | (d1, r1, h1, t1), (d2, r2, h2, t2) =>
      (d1 =? d2)%Z && String.eqb r1 r2 && Qeq_bool h1 h2 && String.eqb t1 t2
  end.

Definition to_entry_dict (entry : DailyEntry) : export_entry :=
  {| x_entry_date := entry_date entry;
     x_region_name := region_name entry;
     x_hours := if String.eqb (region_name entry) "Unknown" then 0%Q else hours entry;
     x_hour_type := HourType_value (hour_type entry);
     x_overtime_rate := overtime_rate entry |}.

Definition key_of (d : export_entry) : export_key :=
  (x_entry_date d, x_region_name d, x_hours d, x_hour_type d).

(** The loop over one timesheet's entries, with the [seen] set. *)
Fixpoint export_entries (seen : list export_key) (entries : list DailyEntry)
  : list export_entry :=
  match entries with
  | [] => []
  | entry :: entries' =>
      let entry_dict := to_entry_dict entry in
      if existsb (export_key_eqb (key_of entry_dict)) seen
      then export_entries seen entries'
      else entry_dict :: export_entries (key_of entry_dict :: seen) entries'
  end.

(** [DataConsolidator.to_target_json_format] *)
Definition to_target_json_format (payroll_data : PayrollData) : export_json :=
  {| x_pay_period_end_date := pd_pay_period_end_date payroll_data;
     x_employees :=
       map (fun timesheet =>
              {| x_employee_name := employee_name timesheet;
                 x_daily_entries := export_entries [] (daily_entries timesheet) |})
           (employee_timesheets payroll_data) |}.

(** ** [timesheet_builder.py] *)

(** [TimesheetBuilderError], by raise site.  [FailedToBuild] is the
    wrapper raised by the [except] clause of [build_timesheet]; [KeyError]
    stands for a failed subscript inside the [try] block. *)
Inductive builder_error :=
| MissingXeroEmployeeId (employee : string)
| NoEntriesToBuild (employee : string)
| MissingTrackingMappings (missing_regions : list string)
| MissingEarningsMappings (missing_hour_types : list string)
| KeyError (key : string)
| FailedToBuild (employee : string) (cause : builder_error).

(** The mapping keys an error message enumerates. *)
Fixpoint reported_keys (e : builder_error) : list string :=
  match e with
  | MissingTrackingMappings l => l
  | MissingEarningsMappings l => l
  | FailedToBuild _ cause => reported_keys cause
  | _ => []
  end.

Record timesheet_line := {
  Date : date;
  EarningsRateID : string;
  NumberOfUnits : Q;
  TrackingItemID : option string;
  RatePerUnit : option Q
}.

Record xero_timesheet := {
  PayrollCalendarID : option string;
  EmployeeID : option string;
  StartDate : date;
  EndDate : date;
  Status : string;
  TimesheetLines : list timesheet_line
}.

(** Truthiness of an optional string. *)
Definition truthy_opt (s : option string) : bool :=
  match s with Some s' => truthy s' | None => false end.

(** [EmployeeTimesheet.get_regions] *)
Definition get_regions (t : EmployeeTimesheet) : gset string :=
  list_to_set (map region_name (daily_entries t)).

(** [TimesheetBuilder._validate_employee_timesheet] *)
Definition validate_employee_timesheet (t : EmployeeTimesheet) : result builder_error unit :=
  check truthy_opt (xero_employee_id t) else MissingXeroEmployeeId (employee_name t);
  check (match daily_entries t with [] => false | _ => true end)
    else NoEntriesToBuild (employee_name t);
  Ok tt.

(** The two list comprehensions of [_validate_mappings]. *)
Definition missing_regions (t : EmployeeTimesheet)
    (tracking_mappings : gmap string (option string)) : list string :=
  List.filter (fun region => negb (bool_decide (is_Some (tracking_mappings !! region))))
    (elements (get_regions t)).

Definition missing_hour_types (t : EmployeeTimesheet)
    (earnings_mappings : gmap string string) : list string :=
  let hour_types : gset string :=
    list_to_set (map (fun e => HourType_value (hour_type e)) (daily_entries t)) in
  List.filter (fun ht => negb (bool_decide (is_Some (earnings_mappings !! ht))))
    (elements hour_types).

(** [TimesheetBuilder._validate_mappings] *)
Definition validate_mappings (t : EmployeeTimesheet)
    (tracking_mappings : gmap string (option string))
    (earnings_mappings : gmap string string) : result builder_error unit :=
  match missing_regions t tracking_mappings with
  | (_ :: _) as missing => Err (MissingTrackingMappings missing)
  | [] =>
      match missing_hour_types t earnings_mappings with
      | (_ :: _) as missing => Err (MissingEarningsMappings missing)
      | [] => Ok tt
      end
  end.

(** [TimesheetBuilder._get_start_date] *)
Definition get_start_date (t : EmployeeTimesheet) : date :=
  match daily_entries t with
  | [] => (pay_period_end_date t - 6)%Z
  | e :: es => min_date (entry_date e) (map entry_date es)
  end.

(** The submission window computed in [build_timesheet]:
    [(start_date, end_date)]. *)
Definition submission_window (t : EmployeeTimesheet) : date * date :=
  let start_date := get_start_date t in
  let end_date := pay_period_end_date t in
  match map entry_date (daily_entries t) with
  | [] => (start_date, end_date)
  | d :: ds =>
      let min_d := min_date d ds in
      let max_d := max_date d ds in
      if (30 <? max_d - min_d)%Z then (min_d, (min_d + 6)%Z) else (start_date, end_date)
  end.

(** Group keys of [_group_daily_entries]. *)
Definition group_key := (date * string * HourType)%type.

Definition group_key_eqb (a b : group_key) : bool :=
  match a, b with
  | (d1, r1, t1), (d2, r2, t2) => (d1 =? d2)%Z && String.eqb r1 r2 && HourType_eqb t1 t2
  end.

Fixpoint group_add (k : group_key) (e : DailyEntry)
    (g : list (group_key * list DailyEntry)) : list (group_key * list DailyEntry) :=
  match g with
  | [] => [(k, [e])]
  | (k', es) :: g' =>
      if group_key_eqb k' k then (k', es ++ [e]) :: g' else (k', es) :: group_add k e g'
  end.

(** [TimesheetBuilder._group_daily_entries] *)
Definition group_daily_entries (entries : list DailyEntry)
  : list (group_key * list DailyEntry) :=
  fold_left (fun g e => group_add (entry_date e, region_name e, hour_type e) e g) entries [].

(** [round(x, 2)], ties to even. *)
Definition round2 (x : Q) : Q :=
  let scaled := (x * 100)%Q in
  let n := Qfloor scaled in
  let frac := (scaled - inject_Z n)%Q in
  let up :=
    if Qltb frac (1 # 2) then false
    else if Qltb (1 # 2) frac then true
    else Z.odd n in
  inject_Z (if up then n + 1 else n) / 100.

(** One iteration of the loop of [_build_timesheet_lines]; [None] for a
    skipped group. *)
Definition build_line (g : group_key * list DailyEntry)
    (tracking_mappings : gmap string (option string))
    (earnings_mappings : gmap string string) : result builder_error (option timesheet_line) :=
  match g with
  | ((entry_date, region_name, hour_type), entries) =>
      let total_hours := fold_left (fun acc e => (acc + hours e)%Q) entries 0%Q in
      if Qle_bool total_hours 0 then Ok None
      else
        match earnings_mappings !! HourType_value hour_type with
        | None => Err (KeyError (HourType_value hour_type))
        | Some rate_id =>
            let tracking_id := default None (tracking_mappings !! region_name) in
            let reference_rate :=
              match entries with e :: _ => overtime_rate e | [] => None end in
            Ok (Some {| Date := entry_date;
                        EarningsRateID := rate_id;
                        NumberOfUnits := round2 total_hours;
                        TrackingItemID :=
                          if truthy_opt tracking_id then tracking_id else None;
                        RatePerUnit :=
                          if HourType_eqb hour_type OVERTIME then reference_rate else None |})
        end
  end.

(** [TimesheetBuilder._build_timesheet_lines] *)
Definition build_timesheet_lines (t : EmployeeTimesheet)
    (tracking_mappings : gmap string (option string))
    (earnings_mappings : gmap string string) : result builder_error (list timesheet_line) :=
  do lines <- mapM (fun g => build_line g tracking_mappings earnings_mappings)
                (group_daily_entries (daily_entries t));
  Ok (omap id lines).

(** The [try] block of [build_timesheet]. *)
Definition build_timesheet_body (t : EmployeeTimesheet)
    (tracking_mappings : gmap string (option string))
    (earnings_mappings : gmap string string) : result builder_error xero_timesheet :=
  do _ <- validate_employee_timesheet t;
  do _ <- validate_mappings t tracking_mappings earnings_mappings;
  let (start_date, end_date) := submission_window t in
  do lines <- build_timesheet_lines t tracking_mappings earnings_mappings;
  Ok {| PayrollCalendarID :=
          if truthy_opt (payroll_calendar_id t) then payroll_calendar_id t else None;
        EmployeeID := xero_employee_id t;
        StartDate := start_date;
        EndDate := end_date;
        Status := "Draft";
        TimesheetLines := lines |}.

(** [TimesheetBuilder.build_timesheet]: every exception of the body is
    wrapped. *)
Definition build_timesheet (t : EmployeeTimesheet)
    (tracking_mappings : gmap string (option string))
    (earnings_mappings : gmap string string) : result builder_error xero_timesheet :=
  match build_timesheet_body t tracking_mappings earnings_mappings with
  | Ok payload => Ok payload
  | Err e => Err (FailedToBuild (employee_name t) e)
  end.

(** ** [config/settings.py] *)

Definition FUZZY_MATCH_THRESHOLD : Q := 925 # 10.
Definition FUZZY_MATCH_CUTOFF : Q := 60.

(** ** [validation.py]: [EmployeeMatcher] *)

(** The four scorers of [rapidfuzz.fuzz] the matcher calls.  The library
    is not part of the repository: its functions are an interface. *)
Class Fuzz := {
  fuzz_ratio : string -> string -> Q;
  fuzz_partial_ratio : string -> string -> Q;
  fuzz_token_sort_ratio : string -> string -> Q;
  fuzz_token_set_ratio : string -> string -> Q
}.

Inductive MatchConfidence := HIGH | MEDIUM | LOW | NO_MATCH.

(** One element of [xero_employees].  An empty string stands for a
    missing or [None] field, which the code treats alike. *)
Record employee := {
  emp_employee_id : string;
  emp_name : string
}.

Record suggestion := {
  sg_name : string;
  sg_employee_id : string;
  sg_score : Q
}.

Record MatchResult := {
  input_name : string;
  matched_name : option string;
  matched_id : option string;
  confidence : MatchConfidence;
  confidence_score : Q;
  suggestions : list suggestion;
  requires_confirmation : bool
}.

(** The state of an [EmployeeMatcher].  [_name_variations] is filled by
    [_build_lookup_tables] but never read by the matching methods; it is
    left out. *)
Record EmployeeMatcher := {
  xero_employees : list employee;
  auto_match_threshold : Q;
  suggestion_threshold : Q;
  match_cache : gmap (string * bool) MatchResult;
  employee_lookup : dict employee
}.

(** [EmployeeMatcher._build_lookup_tables] *)
Definition build_lookup_tables (xero_employees : list employee) : dict employee :=
  fold_left
    (fun lookup employee =>
       let name := strip (emp_name employee) in
       if negb (truthy (emp_employee_id employee)) || negb (truthy name) then lookup
       else dict_set name employee lookup)
    xero_employees [].

(** [EmployeeMatcher.__init__] *)
Definition new_EmployeeMatcher (xero_employees : list employee)
    (auto_match_threshold suggestion_threshold : Q) : EmployeeMatcher :=
  {| xero_employees := xero_employees;
     auto_match_threshold := auto_match_threshold;
     suggestion_threshold := suggestion_threshold;
     match_cache := ∅;
     employee_lookup := build_lookup_tables xero_employees |}.

(** [EmployeeMatcher.set_xero_employees] *)
Definition set_xero_employees (self : EmployeeMatcher) (xero_employees : list employee)
  : EmployeeMatcher :=
  {| xero_employees := xero_employees;
     auto_match_threshold := auto_match_threshold self;
     suggestion_threshold := suggestion_threshold self;
     match_cache := ∅;
     employee_lookup := build_lookup_tables xero_employees |}.

(** The case-insensitive loop of [_find_exact_match]. *)
Fixpoint find_exact_ci (name : string) (lookup : dict employee) : option employee :=
  match lookup with
  | [] => None
  | (employee_name, employee) :: lookup' =>
      if String.eqb (lower employee_name) (lower name) then Some employee
      else find_exact_ci name lookup'
  end.

(** [EmployeeMatcher._find_exact_match] *)
Definition find_exact_match (self : EmployeeMatcher) (name : string) : option employee :=
  match dict_get name (employee_lookup self) with
  | Some employee => Some employee
  | None => find_exact_ci name (employee_lookup self)
  end.

Record fuzzy_match := {
  fm_name : string;
  fm_employee_id : string;
  fm_score : Q;
  fm_last_name_score : Q
}.

(** [parts[-1] if len(parts) >= 2 else ""] *)
Definition last_token (parts : list string) : string :=
  match parts with
  | _ :: _ :: _ => List.last parts ""
  | _ => ""
  end.

(** The secondary threshold on the last-name score, a literal in
    [_find_fuzzy_matches]. *)
Definition last_name_threshold : Q := 60.

(** The acceptance test of [_find_fuzzy_matches]. *)
Definition candidate_accepted (suggestion_threshold best_score token_sort_score
    token_set_score last_name_score : Q) : bool :=
  let token_based_strong :=
    Qle_bool suggestion_threshold token_set_score
    || Qle_bool suggestion_threshold token_sort_score in
  let last_name_similar := Qle_bool last_name_threshold last_name_score in
  Qle_bool suggestion_threshold best_score && (token_based_strong || last_name_similar).

Section Matching.
Context {F : Fuzz}.

(** The scores computed for one roster entry:
    [(best_score, token_sort_score, token_set_score, last_name_score)]. *)
Definition candidate_scores (name : string) (employee : employee) : Q * Q * Q * Q :=
  let name_norm := strip (lower name) in
  let input_last := last_token (split name_norm) in
  let emp_name_norm := strip (lower (emp_name employee)) in
  let ratio_score := fuzz_ratio name_norm emp_name_norm in
  let partial_score := fuzz_partial_ratio name_norm emp_name_norm in
  let token_sort_score := fuzz_token_sort_ratio name_norm emp_name_norm in
  let token_set_score := fuzz_token_set_ratio name_norm emp_name_norm in
  let best_score :=
    Qmax (Qmax (Qmax ratio_score partial_score) token_sort_score) token_set_score in
  let emp_last := last_token (split emp_name_norm) in
  let last_name_score :=
    if truthy input_last && truthy emp_last then fuzz_ratio input_last emp_last else 0%Q in
  (best_score, token_sort_score, token_set_score, last_name_score).

(** The loop body of [_find_fuzzy_matches]: the match appended for a
    roster entry, if any. *)
Definition fuzzy_candidate (suggestion_threshold : Q) (name : string)
    (employee : employee) : option fuzzy_match :=
  if negb (truthy (emp_name employee)) || negb (truthy (emp_employee_id employee))
  then None
  else
    match candidate_scores name employee with
    | (best_score, token_sort_score, token_set_score, last_name_score) =>
        if candidate_accepted suggestion_threshold best_score token_sort_score
             token_set_score last_name_score
        then Some {| fm_name := emp_name employee;
                     fm_employee_id := emp_employee_id employee;
                     fm_score := best_score;
                     fm_last_name_score := last_name_score |}
        else None
    end.

(** [EmployeeMatcher._find_fuzzy_matches] *)
Definition find_fuzzy_matches (self : EmployeeMatcher) (name : string) : list fuzzy_match :=
  stable_sort (fun y x => Qltb (fm_score x) (fm_score y))
    (omap (fuzzy_candidate (suggestion_threshold self) name) (xero_employees self)).

(** The result built by [match_employee] once the cache has missed. *)
Definition compute_match (self : EmployeeMatcher) (timesheet_name : string)
    (require_confirmation : bool) : MatchResult :=
  match find_exact_match self timesheet_name with
  | Some exact_match =>
      {| input_name := timesheet_name;
         matched_name := Some (emp_name exact_match);
         matched_id := Some (emp_employee_id exact_match);
         confidence := HIGH;
         confidence_score := 100;
         suggestions := [];
         requires_confirmation := false |}
  | None =>
      match find_fuzzy_matches self timesheet_name with
      | [] =>
          {| input_name := timesheet_name;
             matched_name := None;
             matched_id := None;
             confidence := NO_MATCH;
             confidence_score := 0;
             suggestions := [];
             requires_confirmation := true |}
      | (best_match :: _) as fuzzy_matches =>
          let score := fm_score best_match in
          let '(conf, confirm) :=
            if Qle_bool (auto_match_threshold self) score then (HIGH, require_confirmation)
            else if Qle_bool 70 score then (MEDIUM, true)
            else if Qle_bool 50 score then (LOW, true)
            else (NO_MATCH, true) in
          let matched := match conf with NO_MATCH => false | _ => true end in
          {| input_name := timesheet_name;
             matched_name := if matched then Some (fm_name best_match) else None;
             matched_id := if matched then Some (fm_employee_id best_match) else None;
             confidence := conf;
             confidence_score := score;
             suggestions :=
               map (fun m => {| sg_name := fm_name m;
                                sg_employee_id := fm_employee_id m;
                                sg_score := fm_score m |})
                 (List.filter (fun m => Qle_bool (suggestion_threshold self) (fm_score m))
                    (firstn 5 fuzzy_matches));
             requires_confirmation := confirm |}
      end
  end.

(** [EmployeeMatcher.match_employee]: the result and the matcher with
    its cache updated. *)
Definition match_employee (self : EmployeeMatcher) (timesheet_name : string)
    (require_confirmation : bool) : MatchResult * EmployeeMatcher :=
  if blank timesheet_name then
    ({| input_name := timesheet_name;
        matched_name := None;
        matched_id := None;
        confidence := NO_MATCH;
        confidence_score := 0;
        suggestions := [];
        requires_confirmation := true |}, self)
  else
    let timesheet_name := strip timesheet_name in
    let cache_key := (timesheet_name, require_confirmation) in
    match match_cache self !! cache_key with
    | Some cached => (cached, self)
    | None =>
        let result := compute_match self timesheet_name require_confirmation in
        (result,
         {| xero_employees := xero_employees self;
            auto_match_threshold := auto_match_threshold self;
            suggestion_threshold := suggestion_threshold self;
            match_cache := <[cache_key := result]> (match_cache self);
            employee_lookup := employee_lookup self |})
    end.
End Matching.

(** [EmployeeMatcher.confirm_match] *)
Definition confirm_match (self : EmployeeMatcher) (timesheet_name : string)
    (confirmed_employee_id : string) : bool * EmployeeMatcher :=
  match List.find (fun e => String.eqb (emp_employee_id e) confirmed_employee_id)
          (xero_employees self) with
  | None => (false, self)
  | Some confirmed_employee =>
      (true,
       {| xero_employees := xero_employees self;
          auto_match_threshold := auto_match_threshold self;
          suggestion_threshold := suggestion_threshold self;
          match_cache :=
            <[(timesheet_name, true) :=
                {| input_name := timesheet_name;
                   matched_name := Some (emp_name confirmed_employee);
                   matched_id := Some confirmed_employee_id;
                   confidence := HIGH;
                   confidence_score := 100;
                   suggestions := [];
                   requires_confirmation := false |}]> (match_cache self);
          employee_lookup := employee_lookup self |})
  end.

(** The matcher states a program can reach: construction, then any
    sequence of calls of the public methods. *)
Inductive reachable {F : Fuzz} : EmployeeMatcher -> Prop :=
| reach_new (emps : list employee) (auto sugg : Q) :
    reachable (new_EmployeeMatcher emps auto sugg)
| reach_set (self : EmployeeMatcher) (emps : list employee) :
    reachable self -> reachable (set_xero_employees self emps)
| reach_match (self : EmployeeMatcher) (name : string) (rc : bool) :
    reachable self -> reachable (snd (match_employee self name rc))
| reach_confirm (self : EmployeeMatcher) (name id : string) :
    reachable self -> reachable (snd (confirm_match self name id)).

(** ** [models.py]: serialisation and totals *)

(** The dictionary built by [DailyEntry.to_dict].  The date is kept as a
    date ([isoformat] and [fromisoformat] are left implicit); a field read
    with [data.get(key)] is [None] when the key is missing or holds [None];
    ["region_valid"] is read with a default, so its absence is kept
    apart. *)
Record DailyEntry_dict := {
  dd_entry_date : date;
  dd_region_name : string;
  dd_hours : Q;
  dd_hour_type : string;
  dd_overtime_rate : option Q;
  dd_xero_tracking_id : option string;
  dd_xero_earnings_rate_id : option string;
  dd_original_region : option string;
  dd_region_valid : option bool
}.

(** [DailyEntry.to_dict] *)
Definition DailyEntry_to_dict (self : DailyEntry) : DailyEntry_dict :=
  {| dd_entry_date := entry_date self;
     dd_region_name := region_name self;
     dd_hours := hours self;
     dd_hour_type := HourType_value (hour_type self);
     dd_overtime_rate := overtime_rate self;
     dd_xero_tracking_id := xero_tracking_id self;
     dd_xero_earnings_rate_id := xero_earnings_rate_id self;
     dd_original_region := original_region self;
     dd_region_valid := Some (region_valid self) |}.

(** [DailyEntry.from_dict] *)
Definition DailyEntry_from_dict (data : DailyEntry_dict) : result error DailyEntry :=
  do hour_type <- HourType_of_string (dd_hour_type data);
  new_DailyEntry (dd_entry_date data) (dd_region_name data) (dd_hours data) hour_type
    (dd_overtime_rate data) (dd_xero_tracking_id data) (dd_xero_earnings_rate_id data)
    (dd_original_region data) (default true (dd_region_valid data)).

Record EmployeeTimesheet_dict := {
  td_employee_name : string;
  td_daily_entries : list DailyEntry_dict;
  td_pay_period_end_date : date;
  td_xero_employee_id : option string;
  td_payroll_calendar_id : option string
}.

(** [EmployeeTimesheet.to_dict] *)
Definition EmployeeTimesheet_to_dict (self : EmployeeTimesheet) : EmployeeTimesheet_dict :=
  {| td_employee_name := employee_name self;
     td_daily_entries := map DailyEntry_to_dict (daily_entries self);
     td_pay_period_end_date := pay_period_end_date self;
     td_xero_employee_id := xero_employee_id self;
     td_payroll_calendar_id := payroll_calendar_id self |}.

(** [EmployeeTimesheet.from_dict] *)
Definition EmployeeTimesheet_from_dict (data : EmployeeTimesheet_dict)
  : result error EmployeeTimesheet :=
  do entries <- mapM DailyEntry_from_dict (td_daily_entries data);
  new_EmployeeTimesheet (td_employee_name data) entries (td_pay_period_end_date data)
    (td_xero_employee_id data) (td_payroll_calendar_id data).

Record PayrollData_dict := {
  pdd_employee_timesheets : list EmployeeTimesheet_dict;
  pdd_pay_period_end_date : date
}.

(** [PayrollData.to_dict] *)
Definition PayrollData_to_dict (self : PayrollData) : PayrollData_dict :=
  {| pdd_employee_timesheets := map EmployeeTimesheet_to_dict (employee_timesheets self);
     pdd_pay_period_end_date := pd_pay_period_end_date self |}.

(** [PayrollData.from_dict] *)
Definition PayrollData_from_dict (data : PayrollData_dict) : result error PayrollData :=
  do timesheets <- mapM EmployeeTimesheet_from_dict (pdd_employee_timesheets data);
  new_PayrollData timesheets (pdd_pay_period_end_date data).

(** [EmployeeTimesheet.get_total_hours] *)
Definition get_total_hours (self : EmployeeTimesheet) (wanted : option HourType) : Q :=
  match wanted with
  | None => fold_left (fun acc entry => (acc + hours entry)%Q) (daily_entries self) 0%Q
  | Some ht =>
      fold_left (fun acc entry => (acc + hours entry)%Q)
        (List.filter (fun entry => HourType_eqb (hour_type entry) ht) (daily_entries self)) 0%Q
  end.

(** [EmployeeTimesheet.get_entries_by_region] *)
Definition get_entries_by_region (self : EmployeeTimesheet) (region : string)
  : list DailyEntry :=
  List.filter (fun entry => String.eqb (region_name entry) region) (daily_entries self).

(** [EmployeeTimesheet.get_entries_by_date] *)
Definition get_entries_by_date (self : EmployeeTimesheet) (day : date) : list DailyEntry :=
  List.filter (fun entry => (entry_date entry =? day)%Z) (daily_entries self).

(** [PayrollData.get_employee_timesheet] *)
Definition get_employee_timesheet (self : PayrollData) (name : string)
  : option EmployeeTimesheet :=
  List.find (fun timesheet => String.eqb (employee_name timesheet) name)
    (employee_timesheets self).

(** [PayrollData.get_all_regions] *)
Definition get_all_regions (self : PayrollData) : gset string :=
  fold_left (fun regions timesheet => regions ∪ get_regions timesheet)
    (employee_timesheets self) ∅.

(** [PayrollData.get_total_hours] *)
Definition payroll_total_hours (self : PayrollData) (wanted : option HourType) : Q :=
  fold_left (fun acc timesheet => (acc + get_total_hours timesheet wanted)%Q)
    (employee_timesheets self) 0%Q.

(** ** [validation.py]: [ValidationResult] and [RegionValidator] *)

Inductive ValidationStatus := SUCCESS | FAILED | WARNING.

Definition ValidationStatus_eqb (a b : ValidationStatus) : bool :=
  match a, b with
  | SUCCESS, SUCCESS | FAILED, FAILED | WARNING, WARNING => true
  | _, _ => false
  end.

(** [ValidationError].  The [suggested_fix] is left out: for an invalid
    region its text lists similar regions in the iteration order of a
    [set], which the code does not determine. *)
Record ValidationError := {
  error_type : string;
  message : string;
  field_name : option string
}.

(** The [metadata] that [validate_regions] fills. *)
Record region_metadata := {
  md_total_regions : nat;
  md_valid_regions : nat;
  md_invalid_regions : list string;
  md_xero_regions_count : nat
}.

Record ValidationResult := {
  status : ValidationStatus;
  errors : list ValidationError;
  warnings : list ValidationError;
  validated_items : nat;
  metadata : option region_metadata
}.

(** [ValidationResult.is_valid] *)
Definition is_valid (r : ValidationResult) : bool :=
  ValidationStatus_eqb (status r) SUCCESS && (length (errors r) =? 0)%nat.

(** [ValidationResult.has_warnings] *)
Definition has_warnings (r : ValidationResult) : bool :=
  (0 <? length (warnings r))%nat.

(** [ValidationResult.add_error] *)
Definition add_error (r : ValidationResult) (e : ValidationError) : ValidationResult :=
  {| status := if ValidationStatus_eqb (status r) SUCCESS then FAILED else status r;
     errors := errors r ++ [e];
     warnings := warnings r;
     validated_items := validated_items r;
     metadata := metadata r |}.

(** [ValidationResult.add_warning] *)
Definition add_warning (r : ValidationResult) (e : ValidationError) : ValidationResult :=
  {| status := if ValidationStatus_eqb (status r) SUCCESS then WARNING else status r;
     errors := errors r;
     warnings := warnings r ++ [e];
     validated_items := validated_items r;
     metadata := metadata r |}.

Record RegionValidator := {
  xero_regions : gset string;
  region_cache : gmap string bool
}.

(** [RegionValidator.__init__] *)
Definition new_RegionValidator (xero_regions : option (list string)) : RegionValidator :=
  {| xero_regions :=
       match xero_regions with
       | Some ((_ :: _) as regions) => list_to_set regions
       | _ => ∅
       end;
     region_cache := ∅ |}.

(** [RegionValidator.set_xero_regions] *)
Definition set_xero_regions (self : RegionValidator) (xero_regions : list string)
  : RegionValidator :=
  {| xero_regions := list_to_set xero_regions; region_cache := ∅ |}.

Definition invalid_region_error (region_name : string) : ValidationError :=
  {| error_type := "INVALID_REGION";
     message := "Region '" ++ region_name ++ "' not found in Xero tracking categories";
     field_name := Some "region_name" |}.

(** [RegionValidator.validate_region]: the result and the validator with
    its cache updated. *)
Definition validate_region (self : RegionValidator) (region_name : string)
  : ValidationResult * RegionValidator :=
  let result := {| status := SUCCESS; errors := []; warnings := [];
                   validated_items := 1; metadata := None |} in
  if blank region_name then
    (add_error result {| error_type := "EMPTY_REGION";
                         message := "Region name cannot be empty";
                         field_name := Some "region_name" |}, self)
  else
    let region_name := strip region_name in
    match region_cache self !! region_name with
    | Some cached =>
        (if cached : bool then result
         else add_error result (invalid_region_error region_name), self)
    | None =>
        if bool_decide (xero_regions self = ∅) then
          (add_error result {| error_type := "NO_XERO_REGIONS";
                               message := "No Xero regions available for validation";
                               field_name := Some "xero_regions" |}, self)
        else
          let valid := bool_decide (region_name ∈ xero_regions self) in
          (if valid then result else add_error result (invalid_region_error region_name),
           {| xero_regions := xero_regions self;
              region_cache := <[region_name := valid]> (region_cache self) |})
    end.

(** The loop of [validate_regions] over the sorted region names:
    [(errors, warnings, invalid_regions)] and the validator. *)
Fixpoint validate_each (self : RegionValidator) (names : list string)
    (acc : list ValidationError * list ValidationError * list string)
  : list ValidationError * list ValidationError * list string * RegionValidator :=
  match names with
  | [] => (acc, self)
  | region_name :: names' =>
      let '(errs, warns, invalid_regions) := acc in
      let (region_result, self') := validate_region self region_name in
      validate_each self' names'
        (errs ++ errors region_result, warns ++ warnings region_result,
         if is_valid region_result then invalid_regions
         else invalid_regions ++ [region_name])
  end.

(** [RegionValidator.validate_regions] *)
Definition validate_regions (self : RegionValidator) (regions : gset string)
  : ValidationResult * RegionValidator :=
  let result := {| status := SUCCESS; errors := []; warnings := [];
                   validated_items := size regions; metadata := None |} in
  if bool_decide (regions = ∅) then
    (add_warning result {| error_type := "NO_REGIONS";
                           message := "No regions found to validate";
                           field_name := Some "regions" |}, self)
  else
    let '(errs, warns, invalid_regions, self') :=
      validate_each self (stable_sort String.ltb (elements regions)) ([], [], []) in
    ({| status :=
          match errs, warns with
          | _ :: _, _ => FAILED
          | [], _ :: _ => WARNING
          | [], [] => SUCCESS
          end;
        errors := errs;
        warnings := warns;
        validated_items := size regions;
        metadata :=
          Some {| md_total_regions := size regions;
                  md_valid_regions := size regions - length invalid_regions;
                  md_invalid_regions := invalid_regions;
                  md_xero_regions_count := size (xero_regions self') |} |}, self').

(** The validator states a program can reach. *)
Inductive validator_reachable : RegionValidator -> Prop :=
| vreach_new (regions : option (list string)) :
    validator_reachable (new_RegionValidator regions)
| vreach_set (self : RegionValidator) (regions : list string) :
    validator_reachable self -> validator_reachable (set_xero_regions self regions)
| vreach_validate (self : RegionValidator) (name : string) :
    validator_reachable self -> validator_reachable (snd (validate_region self name))
| vreach_validate_all (self : RegionValidator) (regions : gset string) :
    validator_reachable self -> validator_reachable (snd (validate_regions self regions)).

(** ** [consolidator.py]: overtime rates on payroll data *)

(** The second loop of [has_different_overtime_rate]. *)
Fixpoint has_different_ci (employee_name : string) (lookup : dict overtime_info) : bool :=
  match lookup with
  | [] => false
  | (lookup_name, emp_data) :: lookup' =>
      if String.eqb (lower lookup_name) (lower employee_name)
      then has_different_overtime_rate emp_data
      else has_different_ci employee_name lookup'
  end.

(** [DataConsolidator.has_different_overtime_rate] *)
Definition employee_has_different_overtime_rate (employee_name : string)
    (overtime_data : overtime_rates) : bool :=
  let lookup := match overtime_rates_lookup overtime_data with Some l => l | None => [] end in
  match dict_get employee_name lookup with
  | Some emp_data => has_different_overtime_rate emp_data
  | None => has_different_ci employee_name lookup
  end.

(** [DataConsolidator.get_overtime_rate] *)
Definition get_overtime_rate (employee_name : string) (overtime_data : overtime_rates)
  : option Q :=
  lookup_overtime_rate employee_name overtime_data.

(** The body of the inner loop of [apply_overtime_rates_to_payroll]: the
    rebuilt entry takes the defaults of [original_region] and
    [region_valid]. *)
Definition apply_overtime_rate (employee_name : string) (overtime_data : overtime_rates)
    (entry : DailyEntry) : result error DailyEntry :=
  if HourType_eqb (hour_type entry) OVERTIME
     && match overtime_rate entry with None => true | Some _ => false end
  then
    new_DailyEntry (entry_date entry) (region_name entry) (hours entry) (hour_type entry)
      (lookup_overtime_rate employee_name overtime_data)
      (xero_tracking_id entry) (xero_earnings_rate_id entry) None true
  else Ok entry.

(** [DataConsolidator.apply_overtime_rates_to_payroll]: the rebuilt
    timesheet takes the default of [payroll_calendar_id]. *)
Definition apply_overtime_rates_to_payroll (payroll_data : PayrollData)
    (overtime_data : overtime_rates) : result error PayrollData :=
  do updated_timesheets <-
    mapM (fun timesheet =>
            do updated_entries <-
              mapM (apply_overtime_rate (employee_name timesheet) overtime_data)
                (daily_entries timesheet);
            new_EmployeeTimesheet (employee_name timesheet) updated_entries
              (pay_period_end_date timesheet) (xero_employee_id timesheet) None)
      (employee_timesheets payroll_data);
  new_PayrollData updated_timesheets (pd_pay_period_end_date payroll_data).

(** ** [validation.py]: properties of a result and batch matching *)

(** [MatchResult.is_automatic_match] *)
Definition is_automatic_match (r : MatchResult) : bool :=
  match confidence r with HIGH => negb (requires_confirmation r) | _ => false end.

(** [MatchResult.has_suggestions] *)
Definition has_suggestions (r : MatchResult) : bool :=
  (0 <? length (suggestions r))%nat.

Definition is_no_match (r : MatchResult) : bool :=
  match confidence r with NO_MATCH => true | _ => false end.

Record matching_statistics := {
  total_employees : nat;
  exact_matches : nat;
  fuzzy_matches : nat;
  no_matches : nat;
  requires_confirmation_count : nat;
  match_rate : Q
}.

Section MatcherBatch.
Context {F : Fuzz}.

(** [EmployeeMatcher.match_employees_batch] *)
Definition match_employees_batch (self : EmployeeMatcher) (timesheet_names : list string)
    (require_confirmation : bool) : dict MatchResult * EmployeeMatcher :=
  fold_left
    (fun (st : dict MatchResult * EmployeeMatcher) name =>
       let (result, self') := match_employee (snd st) name require_confirmation in
       (dict_set name result (fst st), self'))
    timesheet_names ([], self).

(** [EmployeeMatcher.get_unmatched_employees] *)
Definition get_unmatched_employees (self : EmployeeMatcher) (timesheet_names : list string)
  : list string * EmployeeMatcher :=
  fold_left
    (fun (st : list string * EmployeeMatcher) name =>
       let (result, self') := match_employee (snd st) name false in
       (if is_no_match result then fst st ++ [name] else fst st, self'))
    timesheet_names ([], self).

(** [EmployeeMatcher.get_ambiguous_matches] *)
Definition get_ambiguous_matches (self : EmployeeMatcher) (timesheet_names : list string)
  : list MatchResult * EmployeeMatcher :=
  fold_left
    (fun (st : list MatchResult * EmployeeMatcher) name =>
       let (result, self') := match_employee (snd st) name true in
       (if requires_confirmation result && has_suggestions result
        then fst st ++ [result] else fst st, self'))
    timesheet_names ([], self).

(** The loop of [get_matching_statistics]: the counters
    [(exact_matches, fuzzy_matches, no_matches, requires_confirmation)]. *)
Definition count_result (counters : nat * nat * nat * nat) (result : MatchResult)
  : nat * nat * nat * nat :=
  let '(exact, fuzzy, none, confirm) := counters in
  let '(exact, fuzzy, none) :=
    if Qeq_bool (confidence_score result) 100 then (S exact, fuzzy, none)
    else if negb (is_no_match result) then (exact, S fuzzy, none)
    else (exact, fuzzy, S none) in
  (exact, fuzzy, none, if requires_confirmation result then S confirm else confirm).

(** [EmployeeMatcher.get_matching_statistics] *)
Definition get_matching_statistics (self : EmployeeMatcher) (timesheet_names : list string)
  : matching_statistics * EmployeeMatcher :=
  match timesheet_names with
  | [] =>
      ({| total_employees := 0; exact_matches := 0; fuzzy_matches := 0; no_matches := 0;
          requires_confirmation_count := 0; match_rate := 0 |}, self)
  | _ :: _ =>
      let '(counters, self') :=
        fold_left
          (fun (st : nat * nat * nat * nat * EmployeeMatcher) name =>
             let (result, self') := match_employee (snd st) name true in
             (count_result (fst st) result, self'))
          timesheet_names ((0, 0, 0, 0)%nat, self) in
      let '(exact, fuzzy, none, confirm) := counters in
      let total := length timesheet_names in
      let matched := (exact + fuzzy)%nat in
      ({| total_employees := total;
          exact_matches := exact;
          fuzzy_matches := fuzzy;
          no_matches := none;
          requires_confirmation_count := confirm;
          match_rate :=
            if (0 <? total)%nat
            then (inject_Z (Z.of_nat matched) / inject_Z (Z.of_nat total) * 100)%Q
            else 0%Q |}, self')
  end.
End MatcherBatch.

(** ** Sample data *)

Definition sample_entry (day : date) (region : string) (h : Q) (ht : HourType) : DailyEntry :=
  {| entry_date := day; region_name := region; hours := h; hour_type := ht;
     overtime_rate := None; xero_tracking_id := None; xero_earnings_rate_id := None;
     original_region := Some region; region_valid := true |}.

(** One employee with an external identifier and a single regular day. *)
Definition sample_timesheet : EmployeeTimesheet :=
  {| employee_name := "Ann Lee";
     daily_entries := [sample_entry 739000 "North" 8 REGULAR];
     pay_period_end_date := 739006;
     xero_employee_id := Some "emp-1";
     payroll_calendar_id := None |}.

(** Parsed data for one employee with a single site entry in the given
    region, an empty travel log and an empty overtime register. *)
Definition sample_site (region : string) : parsed_data :=
  {| file_type := "site_timesheet";
     employees :=
       Some [{| ed_employee_name := "Ann Lee";
                ed_entries := [{| r_entry_date := 739000; r_region_name := region;
                                  r_hours := 8; r_hour_type := "REGULAR" |}] |}];
     pd_end_date := Some 739006 |}.

Definition sample_travel : parsed_data :=
  {| file_type := "travel_time"; employees := Some []; pd_end_date := None |}.

Definition sample_overtime : overtime_rates :=
  {| od_file_type := "overtime_rates"; overtime_rates_lookup := Some [] |}.

(** Five regular days of nine hours and one overtime entry, as parsed. *)
Definition sample_week : employee_data :=
  {| ed_employee_name := "Ann Lee";
     ed_entries :=
       [ {| r_entry_date := 739000; r_region_name := "North"; r_hours := 9;
            r_hour_type := "REGULAR" |};
         {| r_entry_date := 739001; r_region_name := "North"; r_hours := 9;
            r_hour_type := "REGULAR" |};
         {| r_entry_date := 739002; r_region_name := "North"; r_hours := 9;
            r_hour_type := "REGULAR" |};
         {| r_entry_date := 739003; r_region_name := "North"; r_hours := 9;
            r_hour_type := "REGULAR" |};
         {| r_entry_date := 739004; r_region_name := "North"; r_hours := 9;
            r_hour_type := "REGULAR" |};
         {| r_entry_date := 739006; r_region_name := "North"; r_hours := 2;
            r_hour_type := "OVERTIME" |} ] |}.

Definition sample_week_site : parsed_data :=
  {| file_type := "site_timesheet";
     employees := Some [sample_week];
     pd_end_date := Some 739006 |}.

(** The same week without the overtime entry. *)
Definition sample_week_no_overtime : employee_data :=
  {| ed_employee_name := "Ann Lee";
     ed_entries := List.filter (has_type "REGULAR") (ed_entries sample_week) |}.

(** Mappings that cover [sample_timesheet]. *)
Definition sample_tracking : gmap string (option string) := {[ "North" := Some "trk-1" ]}.
Definition sample_earnings : gmap string string := {[ "REGULAR" := "rate-1" ]}.

(** A timesheet whose two entries are 40 days apart. *)
Definition sample_timesheet_long : EmployeeTimesheet :=
  {| employee_name := "Ann Lee";
     daily_entries := [sample_entry 739000 "North" 8 REGULAR;
                       sample_entry 739040 "North" 8 REGULAR];
     pay_period_end_date := 739040;
     xero_employee_id := Some "emp-1";
     payroll_calendar_id := None |}.

(** Two unknown-region entries of one day and hour type with different
    hours. *)
Definition sample_timesheet_unknown_twice : EmployeeTimesheet :=
  {| employee_name := "Ann Lee";
     daily_entries :=
       [ {| entry_date := 739000; region_name := "Unknown"; hours := 8;
            hour_type := REGULAR; overtime_rate := None; xero_tracking_id := None;
            xero_earnings_rate_id := None; original_region := Some "South";
            region_valid := false |};
         {| entry_date := 739000; region_name := "Unknown"; hours := 5;
            hour_type := REGULAR; overtime_rate := None; xero_tracking_id := None;
            xero_earnings_rate_id := None; original_region := Some "East";
            region_valid := false |} ];
     pay_period_end_date := 739006;
     xero_employee_id := None;
     payroll_calendar_id := None |}.

Definition sample_payroll_unknown_twice : PayrollData :=
  {| employee_timesheets := [sample_timesheet_unknown_twice];
     pd_pay_period_end_date := 739006 |}.

(** A stand-in for the scoring library: 100 for equal strings, 0
    otherwise. *)
Definition sample_fuzz : Fuzz :=
  {| fuzz_ratio := fun a b => if String.eqb a b then 100%Q else 0%Q;
     fuzz_partial_ratio := fun a b => if String.eqb a b then 100%Q else 0%Q;
     fuzz_token_sort_ratio := fun a b => if String.eqb a b then 100%Q else 0%Q;
     fuzz_token_set_ratio := fun a b => if String.eqb a b then 100%Q else 0%Q |}.

Definition sample_roster : list employee :=
  [ {| emp_employee_id := "emp-1"; emp_name := "Ann Lee" |};
    {| emp_employee_id := "emp-2"; emp_name := "Bob Ray" |} ].

Definition sample_matcher : EmployeeMatcher :=
  new_EmployeeMatcher sample_roster FUZZY_MATCH_THRESHOLD FUZZY_MATCH_CUTOFF.

(** A travel log with a placeholder-dated entry of the site employee and
    an entry of a second employee, and a register with a custom rate. *)
Definition sample_travel_log : parsed_data :=
  {| file_type := "travel_time";
     employees :=
       Some [ {| ed_employee_name := "Ann Lee";
                 ed_entries := [{| r_entry_date := 693596; r_region_name := "North";
                                   r_hours := 3; r_hour_type := "TRAVEL" |}] |};
              {| ed_employee_name := "Al Roy";
                 ed_entries := [{| r_entry_date := 739005; r_region_name := "East";
                                   r_hours := 2; r_hour_type := "TRAVEL" |}] |} ];
     pd_end_date := None |}.

Definition sample_overtime_register : overtime_rates :=
  {| od_file_type := "overtime_rates";
     overtime_rates_lookup :=
       Some [("Ann Lee", {| has_different_overtime_rate := true;
                            oi_overtime_rate := Some (55 # 1) |})] |}.

(** ** Vocabulary of the statements *)

(** Sum of a list of amounts. *)
Fixpoint Qsum (l : list Q) : Q :=
  match l with
  | [] => 0%Q
  | x :: l' => (x + Qsum l')%Q
  end.

(** The value [reductions.get(k)] of the reduction map. *)
Fixpoint reduction_at (reductions : list (nat * Q)) (k : nat) : option Q :=
  match reductions with
  | [] => None
  | (i, r) :: reductions' => if Nat.eqb i k then Some r else reduction_at reductions' k
  end.

(** What the reduction map makes of the entry at position [k]. *)
Definition reduced_entry (reductions : list (nat * Q)) (k : nat) (e : raw_entry) : raw_entry :=
  match reduction_at reductions k with
  | Some r => reduce_entry r e
  | None => e
  end.

(** Order of two neighbours in a sorted list: the later one does not have
    to come before the earlier one. *)
Definition in_order {A : Type} (precedes : A -> A -> bool) (a b : A) : Prop :=
  precedes b a = false.

(** A region, or an hour type, that occurs in the entries of a timesheet
    and has no mapping. *)
Definition region_unmapped (t : EmployeeTimesheet)
    (tracking_mappings : gmap string (option string)) (r : string) : Prop :=
  (exists d, In d (daily_entries t) /\ region_name d = r) /\ tracking_mappings !! r = None.

Definition hour_type_unmapped (t : EmployeeTimesheet)
    (earnings_mappings : gmap string string) (h : string) : Prop :=
  (exists d, In d (daily_entries t) /\ HourType_value (hour_type d) = h)
  /\ earnings_mappings !! h = None.



(** An exported row that stands for an unknown-region entry of the given
    date and hour type; the same test on an entry. *)
Definition is_unknown_row (d : date) (t : HourType) (x : export_entry) : bool :=
  String.eqb (x_region_name x) "Unknown" && (x_entry_date x =? d)%Z
  && String.eqb (x_hour_type x) (HourType_value t).

Definition is_unknown_entry (d : date) (t : HourType) (e : DailyEntry) : bool :=
  String.eqb (region_name e) "Unknown" && (entry_date e =? d)%Z
  && HourType_eqb (hour_type e) t.

(** The entries consolidated so far under a name. *)
Definition entries_of (n : string) (c : dict (list DailyEntry)) : list DailyEntry :=
  default [] (dict_get n c).

(** Nothing gathered in [st] is lost in [st']. *)
Definition extends (st st' : consolidation) : Prop :=
  (forall n d, In d (entries_of n (fst st)) -> In d (entries_of n (fst st')))
  /\ unknown_regions (snd st) ⊆ unknown_regions (snd st')
  /\ (forall x, In x (unknown_region_entries (snd st)) ->
                In x (unknown_region_entries (snd st'))).

(** The entry [d] is kept under the name [n], and reported when its
    region is not valid. *)
Definition recorded (n : string) (d : DailyEntry) (st : consolidation) : Prop :=
  In d (entries_of n (fst st))
  /\ (region_valid d = false ->
      default "" (original_region d) ∈ unknown_regions (snd st)
      /\ In (n, original_region d, entry_date d, hours d)
            (unknown_region_entries (snd st))).

(** Every kept entry with an invalid region is in the report list. *)
Definition audited (st : consolidation) : Prop :=
  forall n es d,
    In (n, es) (fst st) -> In d es -> region_valid d = false ->
    In (n, original_region d, entry_date d, hours d) (unknown_region_entries (snd st)).

(** Objects that pass their constructor's checks, with their parts. *)
Definition valid_entry (d : DailyEntry) : Prop := DailyEntry_validate d = Ok tt.

Definition valid_timesheet (t : EmployeeTimesheet) : Prop :=
  EmployeeTimesheet_validate t = Ok tt /\ forall d, In d (daily_entries t) -> valid_entry d.

Definition valid_payroll (p : PayrollData) : Prop :=
  PayrollData_validate p = Ok tt
  /\ forall t, In t (employee_timesheets p) -> valid_timesheet t.

(** A property of every entry kept under a name in a consolidation. *)
Definition all_kept (P : string -> DailyEntry -> Prop) (c : dict (list DailyEntry)) : Prop :=
  forall n es d, In (n, es) c -> In d es -> P n d.

(** The number of entries kept in a consolidation, and in payroll data. *)
Definition kept_count (c : dict (list DailyEntry)) : nat :=
  list_sum (map (fun p => length (snd p)) c).

Definition payroll_entry_count (p : PayrollData) : nat :=
  list_sum (map (fun t => length (daily_entries t)) (employee_timesheets p)).

Definition source_entry_count (d : parsed_data) : nat :=
  list_sum (map (fun emp => length (ed_entries emp)) (get_employees d)).

(** The [DailyEntry] that consolidation makes of a site entry of the
    employee [name], and of a travel entry. *)
Definition site_image (overtime_data : overtime_rates) (valid_regions : option (gset string))
    (name : string) (e : raw_entry) (d : DailyEntry) : Prop :=
  entry_date d = r_entry_date e
  /\ hours d = r_hours e
  /\ HourType_of_string (r_hour_type e) = Ok (hour_type d)
  /\ overtime_rate d
     = (if HourType_eqb (hour_type d) OVERTIME then lookup_overtime_rate name overtime_data
        else None)
  /\ original_region d = Some (r_region_name e)
  /\ region_valid d = negb (region_unknown valid_regions (r_region_name e))
  /\ region_name d
     = (if region_unknown valid_regions (r_region_name e) then "Unknown"
        else r_region_name e)
  /\ xero_tracking_id d = None /\ xero_earnings_rate_id d = None.

Definition travel_image (pay_period_end : date) (valid_regions : option (gset string))
    (e : raw_entry) (d : DailyEntry) : Prop :=
  entry_date d = (if year_is_1900 (r_entry_date e) then pay_period_end else r_entry_date e)
  /\ hours d = r_hours e
  /\ hour_type d = TRAVEL
  /\ overtime_rate d = None
  /\ original_region d = Some (r_region_name e)
  /\ region_valid d = negb (region_unknown valid_regions (r_region_name e))
  /\ region_name d
     = (if region_unknown valid_regions (r_region_name e) then "Unknown"
        else r_region_name e)
  /\ xero_tracking_id d = None /\ xero_earnings_rate_id d = None.

(** The number of source entries whose region is outside the valid set. *)
Definition source_unknown_count (valid_regions : option (gset string)) (d : parsed_data)
  : nat :=
  list_sum (map (fun emp =>
                   length (List.filter
                             (fun e => region_unknown valid_regions (r_region_name e))
                             (ed_entries emp)))
                (get_employees d)).

(** Every tuple of the report list has the property [P], and every name
    of the region set is the original region of a tuple. *)
Definition report_inv (P : string * option string * date * Q -> Prop) (u : unknown_state)
  : Prop :=
  (forall x, In x (unknown_region_entries u) -> P x)
  /\ (forall r, r ∈ unknown_regions u ->
        exists n o dt h, In (n, o, dt, h) (unknown_region_entries u) /\ default "" o = r).

(** The source entry an element of the report stands for. *)
Definition report_source (site_data travel_data : parsed_data)
    (valid_regions : option (gset string)) (pay_period_end : date)
    (x : string * option string * date * Q) : Prop :=
  exists emp e,
    In emp (get_employees site_data ++ get_employees travel_data)
    /\ In e (ed_entries emp)
    /\ region_unknown valid_regions (r_region_name e) = true
    /\ (x = (ed_employee_name emp, Some (r_region_name e), r_entry_date e, r_hours e)
        \/ x = (ed_employee_name emp, Some (r_region_name e), pay_period_end, r_hours e)).

(** No two rows of an export carry the same deduplication key. *)
Definition distinct_rows (rows : list export_entry) : Prop :=
  ForallOrdPairs (fun a b => export_key_eqb (key_of a) (key_of b) = false) rows.

(** The grouping key of an entry, and the test that an entry belongs to
    the group of a key. *)
Definition entry_key (e : DailyEntry) : group_key :=
  (entry_date e, region_name e, hour_type e).

Definition in_group (k : group_key) (e : DailyEntry) : bool :=
  group_key_eqb (entry_key e) k.

(** A group whose hours sum to more than zero, and the line the builder
    makes of it. *)
Definition billable (g : group_key * list DailyEntry) : bool :=
  negb (Qle_bool (Qsum (map hours (snd g))) 0).

Definition group_line (tracking_mappings : gmap string (option string))
    (earnings_mappings : gmap string string) (g : group_key * list DailyEntry)
    (line : timesheet_line) : Prop :=
  match g with
  | ((entry_date, region_name, hour_type), entries) =>
      Date line = entry_date
      /\ earnings_mappings !! HourType_value hour_type = Some (EarningsRateID line)
      /\ (0 <= NumberOfUnits line)%Q
      /\ (NumberOfUnits line - Qsum (map hours entries) <= 1 # 200)%Q
      /\ (Qsum (map hours entries) - NumberOfUnits line <= 1 # 200)%Q
      /\ TrackingItemID line
         = match tracking_mappings !! region_name with
           | Some (Some tracking_id) => if truthy tracking_id then Some tracking_id else None
           | _ => None
           end
      /\ RatePerUnit line
         = match hour_type, entries with
           | OVERTIME, reference_entry :: _ => overtime_rate reference_entry
           | _, _ => None
           end
  end.

(** The hours kept in a consolidation, weighted by [w], and the hours of
    the source entries that pass [keep]. *)
Definition kept_weight (w : DailyEntry -> Q) (c : dict (list DailyEntry)) : Q :=
  Qsum (map (fun p => Qsum (map w (snd p))) c).

Definition source_hours (keep : raw_entry -> bool) (d : parsed_data) : Q :=
  Qsum (map (fun emp => Qsum (map r_hours (List.filter keep (ed_entries emp))))
          (get_employees d)).

(** The hours an entry counts for in a total of the wanted hour type. *)
Definition counted_hours (wanted : option HourType) (d : DailyEntry) : Q :=
  match wanted with
  | None => hours d
  | Some ht => if HourType_eqb (hour_type d) ht then hours d else 0%Q
  end.

(** What every result of the matcher satisfies, for the thresholds
    [auto] and [sugg] of the matcher that made it. *)
Definition result_consistent (auto sugg : Q) (r : MatchResult) : Prop :=
  (matched_id r = None <-> confidence r = NO_MATCH)
  /\ (matched_name r = None <-> confidence r = NO_MATCH)
  /\ (requires_confirmation r = false -> confidence r = HIGH)
  /\ (confidence r = HIGH ->
      confidence_score r = 100%Q \/ (auto <= confidence_score r)%Q)
  /\ (confidence r = MEDIUM ->
      (70 <= confidence_score r)%Q /\ (confidence_score r < auto)%Q)
  /\ (confidence r = LOW ->
      (50 <= confidence_score r)%Q /\ (confidence_score r < 70)%Q
      /\ (confidence_score r < auto)%Q)
  /\ (confidence r = NO_MATCH -> (confidence_score r < 50)%Q)
  /\ (length (suggestions r) <= 5)%nat
  /\ StronglySorted (fun a b => (sg_score b <= sg_score a)%Q) (suggestions r)
  /\ forall s, In s (suggestions r) ->
       (sugg <= sg_score s)%Q /\ (sg_score s <= confidence_score r)%Q.

(** Every cached result is consistent. *)
Definition cache_consistent (self : EmployeeMatcher) : Prop :=
  forall k r, match_cache self !! k = Some r ->
    result_consistent (auto_match_threshold self) (suggestion_threshold self) r.

(** A region name that validation accepts against the set [regions], and
    the errors it reports for a name otherwise. *)
Definition region_ok (regions : gset string) (name : string) : bool :=
  negb (blank name) && bool_decide (strip name ∈ regions).

Definition region_errors (regions : gset string) (name : string) : list ValidationError :=
  if region_ok regions name then []
  else if blank name then
    [{| error_type := "EMPTY_REGION"; message := "Region name cannot be empty";
        field_name := Some "region_name" |}]
  else if bool_decide (regions = ∅) then
    [{| error_type := "NO_XERO_REGIONS";
        message := "No Xero regions available for validation";
        field_name := Some "xero_regions" |}]
  else [invalid_region_error (strip name)].

(** Every cached answer is the membership of the name in the current
    region set, which is not empty. *)
Definition validator_sound (self : RegionValidator) : Prop :=
  forall n b, region_cache self !! n = Some b ->
    xero_regions self <> ∅ /\ b = bool_decide (n ∈ xero_regions self).

(** The entry [e'] that [apply_overtime_rates_to_payroll] makes of the
    entry [e] of the employee [name]. *)
Definition rate_applied (name : string) (overtime_data : overtime_rates)
    (e e' : DailyEntry) : Prop :=
  entry_date e' = entry_date e /\ region_name e' = region_name e
  /\ hours e' = hours e /\ hour_type e' = hour_type e
  /\ xero_tracking_id e' = xero_tracking_id e
  /\ xero_earnings_rate_id e' = xero_earnings_rate_id e
  /\ match hour_type e, overtime_rate e with
     | OVERTIME, None =>
         overtime_rate e' = lookup_overtime_rate name overtime_data
         /\ original_region e' = None /\ region_valid e' = true
     | _, _ => e' = e
     end.

(** The register of overtime rates, and a register without negative
    rates. *)
Definition register (overtime_data : overtime_rates) : dict overtime_info :=
  match overtime_rates_lookup overtime_data with Some l => l | None => [] end.

Definition rates_not_negative (overtime_data : overtime_rates) : Prop :=
  forall k info r, In (k, info) (register overtime_data) ->
    oi_overtime_rate info = Some r -> (0 <= r)%Q.

(** The answer of the matcher [self] for a name, and a matcher that
    gives the same answers as [self]. *)
Definition answer {F : Fuzz} (self : EmployeeMatcher) (rc : bool) (name : string)
  : MatchResult :=
  fst (match_employee self name rc).

Definition same_answers {F : Fuzz} (self m : EmployeeMatcher) : Prop :=
  forall n rc, fst (match_employee m n rc) = fst (match_employee self n rc).

(** The tests of [get_matching_statistics]. *)
Definition counts_exact (r : MatchResult) : bool := Qeq_bool (confidence_score r) 100.
Definition counts_fuzzy (r : MatchResult) : bool :=
  negb (counts_exact r) && negb (is_no_match r).
Definition counts_none (r : MatchResult) : bool :=
  negb (counts_exact r) && is_no_match r.

(** * Properties *)

(** ** Comparisons on rationals *)

Lemma Qltb_lt (x y : Q) : Qltb x y = true <-> (x < y)%Q.
Proof.
  unfold Qltb. rewrite negb_true_iff.
  destruct (Qle_bool y x) eqn:E.
  - apply Qle_bool_iff in E. split; [discriminate | intros H; lra].
  - split; [intros _ | reflexivity].
    destruct (Qlt_le_dec x y) as [H | H]; [exact H |].
    apply Qle_bool_iff in H. congruence.
Qed.

Lemma Qltb_ge (x y : Q) : Qltb x y = false <-> (y <= x)%Q.
Proof.
  unfold Qltb. rewrite negb_false_iff. apply Qle_bool_iff.
Qed.

Lemma Qle_bool_gt (x y : Q) : Qle_bool x y = false <-> (y < x)%Q.
Proof.
  rewrite <- Qltb_lt. unfold Qltb. now rewrite negb_true_iff.
Qed.

(** ** Strings *)

Lemma lstrip_empty (s : string) : lstrip s = "" <-> all_space s = true.
Proof.
  induction s as [| c s IH]; simpl; [tauto |].
  destruct (is_space c); simpl; [exact IH | split; discriminate].
Qed.






(** ** [DailyEntry] *)

Lemma DailyEntry_validate_ok (d : DailyEntry) :
  DailyEntry_validate d = Ok tt <->
  (0 <= hours d)%Q /\ (hours d <= 24)%Q /\ blank (region_name d) = false
  /\ (forall r, overtime_rate d = Some r -> (0 <= r)%Q).
Proof.
  unfold DailyEntry_validate.
  destruct (Qltb (hours d) 0) eqn:H0; simpl.
  { apply Qltb_lt in H0. split; [discriminate | intros [H _]; lra]. }
  apply Qltb_ge in H0.
  destruct (Qltb 24 (hours d)) eqn:H24; simpl.
  { apply Qltb_lt in H24. split; [discriminate | intros (_ & H & _); lra]. }
  apply Qltb_ge in H24.
  destruct (blank (region_name d)) eqn:HB; simpl.
  { split; [discriminate | intros (_ & _ & H & _); discriminate]. }
  destruct (overtime_rate d) as [r |] eqn:HR.
  - destruct (Qltb r 0) eqn:Hr; simpl.
    + apply Qltb_lt in Hr. split; [discriminate |].
      intros (_ & _ & _ & H). specialize (H r eq_refl). lra.
    + apply Qltb_ge in Hr. split; [| reflexivity].
      intros _. repeat split; try assumption. intros r' [= <-]. exact Hr.
  - split; [| reflexivity]. intros _. repeat split; try assumption. discriminate.
Qed.

Lemma new_DailyEntry_ok dt rn h ht rate tid eid orig valid d :
  new_DailyEntry dt rn h ht rate tid eid orig valid = Ok d ->
  d = {| entry_date := dt; region_name := rn; hours := h; hour_type := ht;
         overtime_rate := rate; xero_tracking_id := tid; xero_earnings_rate_id := eid;
         original_region := orig; region_valid := valid |}
  /\ DailyEntry_validate d = Ok tt.
Proof.
  unfold new_DailyEntry, bind.
  match goal with |- context [DailyEntry_validate ?x] =>
    destruct (DailyEntry_validate x) as [[] |] eqn:V end; [| discriminate].
  intros [= <-]. now split.
Qed.




(** ** [EmployeeTimesheet] *)

Lemma check_entries_within_ok (pay_period_end : date) (l : list DailyEntry) :
  check_entries_within pay_period_end l = Ok tt <->
  (forall e, In e l -> (entry_date e <= pay_period_end)%Z).
Proof.
  induction l as [| e l IH]; simpl.
  - split; [intros _ x [] | reflexivity].
  - destruct (Z.ltb_spec pay_period_end (entry_date e)) as [Hlt | Hge]; simpl.
    + split; [discriminate |]. intros H. specialize (H e (or_introl eq_refl)). lia.
    + rewrite IH. split.
      * intros H x [<- | Hx]; auto.
      * intros H x Hx. apply H. now right.
Qed.

Lemma new_EmployeeTimesheet_ok nm entries pend xid cal t :
  new_EmployeeTimesheet nm entries pend xid cal = Ok t ->
  t = {| employee_name := nm; daily_entries := entries; pay_period_end_date := pend;
         xero_employee_id := xid; payroll_calendar_id := cal |}
  /\ blank nm = false /\ entries <> []
  /\ (forall e, In e entries -> (entry_date e <= pend)%Z).
Proof.
  unfold new_EmployeeTimesheet, bind, EmployeeTimesheet_validate. simpl.
  destruct (blank nm); simpl; [discriminate |].
  destruct entries as [| e0 entries]; [discriminate |].
  destruct (check_entries_within pend (e0 :: entries)) as [[] |] eqn:C; [| discriminate].
  intros [= <-]. repeat split; [discriminate |].
  now apply check_entries_within_ok.
Qed.

(** C7: constructing an [EmployeeTimesheet] raises when some entry is
    dated after the pay-period end and when the entry list is empty, so a
    constructed timesheet keeps all the entries it was given, has at least
    one, and every entry date is at most the pay-period end date. *)
Theorem EmployeeTimesheet_entries_within_period nm entries pend xid cal :
  ((exists e, In e entries /\ (pend < entry_date e)%Z) ->
     exists err, new_EmployeeTimesheet nm entries pend xid cal = Err err)
  /\ (entries = [] ->
     exists err, new_EmployeeTimesheet nm entries pend xid cal = Err err)
  /\ (forall t, new_EmployeeTimesheet nm entries pend xid cal = Ok t ->
        daily_entries t = entries
        /\ pay_period_end_date t = pend
        /\ daily_entries t <> []
        /\ forall e, In e (daily_entries t) ->
             (entry_date e <= pay_period_end_date t)%Z).
Proof.
  split; [| split].
  - intros (e & He & Hlt).
    destruct (new_EmployeeTimesheet nm entries pend xid cal) as [t | err] eqn:E;
      [| now exists err].
    apply new_EmployeeTimesheet_ok in E as (_ & _ & _ & H).
    specialize (H e He). lia.
  - intros ->.
    destruct (new_EmployeeTimesheet nm [] pend xid cal) as [t | err] eqn:E;
      [| now exists err].
    apply new_EmployeeTimesheet_ok in E as (_ & _ & H & _). congruence.
  - intros t E. apply new_EmployeeTimesheet_ok in E as (-> & _ & Hne & H).
    simpl. repeat split; assumption.
Qed.

(** ** Sums, enumeration and stable sorting *)

Lemma fold_left_Qplus {A : Type} (f : A -> Q) (l : list A) (a : Q) :
  (fold_left (fun acc e => acc + f e) l a == a + Qsum (map f l))%Q.
Proof.
  revert a. induction l as [| x l IH]; intros a; simpl.
  - lra.
  - rewrite IH. lra.
Qed.

Lemma sum_hours_Qsum (l : list raw_entry) : (sum_hours l == Qsum (map r_hours l))%Q.
Proof. unfold sum_hours. rewrite fold_left_Qplus. lra. Qed.

Lemma Qsum_perm (l l' : list Q) : Permutation l l' -> (Qsum l == Qsum l')%Q.
Proof.
  induction 1; simpl; try lra.
Qed.

Lemma Qsum_ext_in {A : Type} (f g : A -> Q) (l : list A) :
  (forall x, In x l -> (f x == g x)%Q) -> (Qsum (map f l) == Qsum (map g l))%Q.
Proof.
  induction l as [| x l IH]; intros H; simpl; [lra |].
  rewrite (H x (or_introl eq_refl)), IH; [lra |].
  intros y Hy. apply H. now right.
Qed.



Lemma enumerate_from_keys {A : Type} (l : list A) (n : nat) :
  map fst (enumerate_from n l) = seq n (length l).
Proof.
  revert n. induction l as [| y l IH]; intros n; simpl; [reflexivity |].
  now rewrite IH.
Qed.

Lemma NoDup_keys_filter {A B : Type} (f : A * B -> bool) (l : list (A * B)) :
  List.NoDup (map fst l) -> List.NoDup (map fst (List.filter f l)).
Proof.
  induction l as [| p l IH]; simpl; intros H; [constructor |].
  inversion H as [| ? ? Hn Hd]; subst.
  destruct (f p); simpl; [| now apply IH].
  constructor; [| now apply IH].
  intros Hin. apply Hn. apply in_map_iff in Hin as (q & Hq & Hin).
  apply filter_In in Hin as [Hin _]. apply in_map_iff. now exists q.
Qed.

Lemma insert_by_perm {A : Type} (p : A -> A -> bool) (x : A) (l : list A) :
  Permutation (insert_by p x l) (x :: l).
Proof.
  induction l as [| y l IH]; simpl; [reflexivity |].
  destruct (p y x); [| reflexivity].
  rewrite IH. apply perm_swap.
Qed.

Lemma stable_sort_perm {A : Type} (p : A -> A -> bool) (l : list A) :
  Permutation (stable_sort p l) l.
Proof.
  induction l as [| x l IH]; simpl; [reflexivity |].
  rewrite insert_by_perm. now constructor.
Qed.

Lemma stable_sort_In {A : Type} (p : A -> A -> bool) (l : list A) (x : A) :
  In x (stable_sort p l) <-> In x l.
Proof.
  split; apply Permutation_in;
    [apply stable_sort_perm | apply Permutation_sym, stable_sort_perm].
Qed.

Lemma StronglySorted_weaken {A : Type} (R R' : A -> A -> Prop) (l : list A) :
  (forall a b, R a b -> R' a b) -> StronglySorted R l -> StronglySorted R' l.
Proof.
  intros HR. induction 1 as [| x l Hs IH Hx]; constructor; [exact IH |].
  eapply List.Forall_impl; [| exact Hx]. intros y. apply HR.
Qed.

Section SortedBy.
Context {A : Type} (precedes : A -> A -> bool).
Hypothesis precedes_asym : forall a b, precedes a b = true -> precedes b a = false.
Hypothesis precedes_negtrans :
  forall a b c, precedes a b = false -> precedes b c = false -> precedes a c = false.

Lemma insert_by_sorted (x : A) (l : list A) :
  StronglySorted (in_order precedes) l -> StronglySorted (in_order precedes) (insert_by precedes x l).
Proof.
  induction 1 as [| y l Hs IH Hy]; simpl.
  - constructor; constructor.
  - destruct (precedes y x) eqn:E.
    + constructor; [exact IH |].
      apply List.Forall_forall. intros z Hz.
      apply (Permutation_in _ (insert_by_perm precedes x l)) in Hz.
      destruct Hz as [<- | Hz]; [now apply precedes_asym |].
      rewrite List.Forall_forall in Hy. now apply Hy.
    + constructor; [now constructor |].
      constructor; [exact E |].
      apply List.Forall_forall. intros z Hz.
      rewrite List.Forall_forall in Hy. unfold in_order.
      apply (precedes_negtrans z y x); [now apply Hy | exact E].
Qed.

Lemma stable_sort_sorted (l : list A) : StronglySorted (in_order precedes) (stable_sort precedes l).
Proof.
  induction l as [| x l IH]; simpl; [constructor | now apply insert_by_sorted].
Qed.
End SortedBy.

(** ** The 40-hour cap *)


Lemma regular_entries_NoDup (entries : list raw_entry) :
  List.NoDup (map fst (regular_entries entries)).
Proof.
  unfold regular_entries, enumerate. apply NoDup_keys_filter.
  rewrite enumerate_from_keys. apply List.seq_NoDup.
Qed.

Lemma regular_entries_by_date_perm (entries : list raw_entry) :
  Permutation (regular_entries_by_date entries) (regular_entries entries).
Proof. apply stable_sort_perm. Qed.

Lemma regular_entries_by_date_NoDup (entries : list raw_entry) :
  List.NoDup (map fst (regular_entries_by_date entries)).
Proof.
  eapply Permutation_NoDup; [| apply regular_entries_NoDup].
  apply Permutation_map, Permutation_sym, regular_entries_by_date_perm.
Qed.



Lemma regular_entries_from_snd (n : nat) (l : list raw_entry) :
  map snd (List.filter (fun p => has_type "REGULAR" (snd p)) (enumerate_from n l))
  = List.filter (has_type "REGULAR") l.
Proof.
  revert n. induction l as [| x l IH]; intros n; simpl; [reflexivity |].
  destruct (has_type "REGULAR" x); simpl; now rewrite IH.
Qed.

Lemma total_regular_hours_filter (l : list raw_entry) :
  (total_regular_hours l == Qsum (map r_hours (List.filter (has_type "REGULAR") l)))%Q.
Proof.
  unfold total_regular_hours, regular_entries, enumerate.
  now rewrite regular_entries_from_snd, sum_hours_Qsum.
Qed.

Lemma total_regular_hours_enum (l : list raw_entry) :
  (total_regular_hours l == Qsum (map (fun p => r_hours (snd p)) (regular_entries l)))%Q.
Proof.
  unfold total_regular_hours. rewrite sum_hours_Qsum, map_map. reflexivity.
Qed.

Lemma build_reductions_zero (l : list (nat * raw_entry)) : build_reductions 0 l = [].
Proof. destruct l as [| [i e] l]; reflexivity. Qed.

Lemma build_reductions_keys (rem : Q) (l : list (nat * raw_entry)) (k : nat) :
  In k (map fst (build_reductions rem l)) -> In k (map fst l).
Proof.
  revert rem. induction l as [| [i e] l IH]; intros rem; simpl; [tauto |].
  destruct (Qle_bool rem 0); [intros [] |].
  destruct (Qle_bool rem (r_hours e)); simpl; intros [H | H]; eauto.
Qed.

Lemma build_reductions_NoDup (rem : Q) (l : list (nat * raw_entry)) :
  List.NoDup (map fst l) -> List.NoDup (map fst (build_reductions rem l)).
Proof.
  revert rem. induction l as [| [i e] l IH]; intros rem Hnd; simpl; [constructor |].
  inversion Hnd as [| ? ? Hn Hd]; subst.
  destruct (Qle_bool rem 0); [constructor |].
  destruct (Qle_bool rem (r_hours e)); simpl; (constructor; [| now apply IH]);
    intros H; apply Hn; eapply build_reductions_keys; exact H.
Qed.

Lemma reduction_at_None (P : list (nat * Q)) (k : nat) :
  ~ In k (map fst P) -> reduction_at P k = None.
Proof.
  induction P as [| [i r] P IH]; simpl; intros H; [reflexivity |].
  destruct (Nat.eqb_spec i k) as [-> | Hne]; [exfalso; apply H; now left |].
  apply IH. intros Hin. apply H. now right.
Qed.


Lemma reduce_entry_frame (r : Q) (e : raw_entry) :
  r_entry_date (reduce_entry r e) = r_entry_date e
  /\ r_region_name (reduce_entry r e) = r_region_name e
  /\ r_hour_type (reduce_entry r e) = r_hour_type e.
Proof. unfold reduce_entry. now destruct (Qltb 0 (r_hours e - r)). Qed.

Lemma reduce_entry_hours (r : Q) (e : raw_entry) :
  (0 <= r_hours (reduce_entry r e))%Q
  /\ ((r <= r_hours e)%Q -> (r_hours (reduce_entry r e) == r_hours e - r)%Q).
Proof.
  unfold reduce_entry. destruct (Qltb 0 (r_hours e - r)) eqn:E; simpl.
  - apply Qltb_lt in E. split; [lra | intros _; lra].
  - apply Qltb_ge in E. split; [lra | intros H; lra].
Qed.

Lemma reduce_entry_consumed (e : raw_entry) : r_hours (reduce_entry (r_hours e) e) = 0%Q.
Proof.
  unfold reduce_entry. destruct (Qltb 0 (r_hours e - r_hours e)) eqn:E; [| reflexivity].
  apply Qltb_lt in E. lra.
Qed.

Lemma reduced_entry_frame (P : list (nat * Q)) (k : nat) (e : raw_entry) :
  r_entry_date (reduced_entry P k e) = r_entry_date e
  /\ r_region_name (reduced_entry P k e) = r_region_name e
  /\ r_hour_type (reduced_entry P k e) = r_hour_type e.
Proof.
  unfold reduced_entry. destruct (reduction_at P k); [apply reduce_entry_frame | tauto].
Qed.

(** The in-place updates, position by position. *)
Lemma apply_reductions_lookup (P : list (nat * Q)) (E : list raw_entry) (k : nat) :
  List.NoDup (map fst P) ->
  apply_reductions P E !! k = reduced_entry P k <$> E !! k.
Proof.
  revert E. induction P as [| [i r] P IH]; intros E Hnd; simpl.
  - unfold reduced_entry. simpl. now destruct (E !! k).
  - inversion Hnd as [| ? ? Hn Hd]; subst.
    unfold apply_reductions in *. simpl. rewrite IH by assumption.
    unfold reduced_entry. simpl.
    destruct (Nat.eqb_spec i k) as [-> | Hne].
    + rewrite list_lookup_alter_eq, (reduction_at_None P k Hn).
      now destruct (E !! k).
    + now rewrite list_lookup_alter_ne.
Qed.



(** The reductions remove exactly the excess. *)
Lemma build_reductions_sum (S : list (nat * raw_entry)) (rem : Q) :
  List.NoDup (map fst S) ->
  (0 <= rem)%Q -> (rem <= Qsum (map (fun p => r_hours (snd p)) S))%Q ->
  (Qsum (map (fun p => r_hours (reduced_entry (build_reductions rem S) (fst p) (snd p))) S)
   == Qsum (map (fun p => r_hours (snd p)) S) - rem)%Q.
Proof.
  revert rem. induction S as [| [i e] S IH]; intros rem Hnd H0 Hle; simpl in *.
  - lra.
  - inversion Hnd as [| ? ? Hn Hd]; subst.
    assert (Hother : forall P p, In p S ->
              reduced_entry ((i, P) :: nil) (fst p) (snd p) = snd p).
    { intros P p Hp. unfold reduced_entry. simpl.
      destruct (Nat.eqb_spec i (fst p)) as [-> | Hne]; [| reflexivity].
      exfalso. apply Hn. now apply in_map. }
    destruct (Qle_bool rem 0) eqn:E0.
    { apply Qle_bool_iff in E0. unfold reduced_entry at 1. simpl.
      rewrite (Qsum_ext_in _ (fun p => r_hours (snd p))); [lra |].
      intros p _. unfold reduced_entry. simpl. reflexivity. }
    apply Qle_bool_gt in E0.
    destruct (Qle_bool rem (r_hours e)) eqn:E1.
    + apply Qle_bool_iff in E1. rewrite build_reductions_zero.
      unfold reduced_entry at 1. simpl. rewrite Nat.eqb_refl.
      destruct (reduce_entry_hours rem e) as [_ Hh]. rewrite (Hh E1).
      rewrite (Qsum_ext_in _ (fun p => r_hours (snd p))); [lra |].
      intros p Hp. now rewrite Hother.
    + apply Qle_bool_gt in E1.
      unfold reduced_entry at 1. simpl. rewrite Nat.eqb_refl.
      rewrite reduce_entry_consumed.
      rewrite (Qsum_ext_in _
                 (fun p => r_hours (reduced_entry
                                      (build_reductions (rem - r_hours e) S)
                                      (fst p) (snd p)))).
      * rewrite IH; [lra | assumption | lra | lra].
      * intros p Hp. unfold reduced_entry. simpl.
        destruct (Nat.eqb_spec i (fst p)) as [-> | Hne]; [| reflexivity].
        exfalso. apply Hn. now apply in_map.
Qed.



Lemma In_lookup {A : Type} (l : list A) (x : A) : In x l <-> exists k, l !! k = Some x.
Proof. rewrite <- list_elem_of_In. apply list_elem_of_lookup. Qed.

Lemma cap_reductions_NoDup (entries : list raw_entry) :
  List.NoDup (map fst (cap_reductions entries)).
Proof. apply build_reductions_NoDup, regular_entries_by_date_NoDup. Qed.

Lemma reduced_entries_lookup (entries : list raw_entry) (k : nat) :
  reduced_entries entries !! k
  = reduced_entry (cap_reductions entries) k <$> entries !! k.
Proof. apply apply_reductions_lookup, cap_reductions_NoDup. Qed.

(** Hours of the regular entries of a list updated position by position. *)
Lemma regular_hours_pointwise (g : nat -> raw_entry -> raw_entry)
    (E U : list raw_entry) (n : nat) :
  (forall k e, r_hour_type (g k e) = r_hour_type e) ->
  (forall k, U !! k = g (n + k)%nat <$> E !! k) ->
  map r_hours (List.filter (has_type "REGULAR") U)
  = map (fun p => r_hours (g (fst p) (snd p)))
      (List.filter (fun p => has_type "REGULAR" (snd p)) (enumerate_from n E)).
Proof.
  intros Hg. revert U n. induction E as [| x E IH]; intros U n HU.
  - destruct U as [| u U]; [reflexivity |]. specialize (HU 0%nat). discriminate.
  - destruct U as [| u U]; [specialize (HU 0%nat); discriminate |].
    pose proof (HU 0%nat) as H0. simpl in H0. injection H0 as ->.
    rewrite Nat.add_0_r. simpl.
    assert (HU' : forall k, U !! k = g (S n + k)%nat <$> E !! k).
    { intros k. specialize (HU (S k)). simpl in HU.
      now replace (S n + k)%nat with (n + S k)%nat by lia. }
    unfold has_type at 1. rewrite Hg. fold (has_type "REGULAR" x).
    destruct (has_type "REGULAR" x); simpl; now rewrite (IH U (S n) HU').
Qed.

Lemma Qsum_regular_pruned (l : list raw_entry) :
  (forall e, In e l -> r_hour_type e = "REGULAR" -> (0 <= r_hours e)%Q) ->
  (Qsum (map r_hours
           (List.filter (has_type "REGULAR")
              (List.filter (fun e => Qltb 0 (r_hours e)) l)))
   == Qsum (map r_hours (List.filter (has_type "REGULAR") l)))%Q.
Proof.
  induction l as [| e l IH]; intros H; simpl; [lra |].
  assert (IH' := IH (fun x Hx => H x (or_intror Hx))).
  destruct (Qltb 0 (r_hours e)) eqn:Hp; simpl.
  - destruct (has_type "REGULAR" e); simpl; lra.
  - apply Qltb_ge in Hp.
    destruct (has_type "REGULAR" e) eqn:Hr; simpl; [| exact IH'].
    unfold has_type in Hr. apply String.eqb_eq in Hr.
    specialize (H e (or_introl eq_refl) Hr). lra.
Qed.

Lemma reduced_entries_regular_nonneg (entries : list raw_entry) :
  (forall e, In e entries -> r_hour_type e = "REGULAR" -> (0 <= r_hours e)%Q) ->
  forall e', In e' (reduced_entries entries) -> r_hour_type e' = "REGULAR" ->
             (0 <= r_hours e')%Q.
Proof.
  intros H e' Hin Hreg. apply In_lookup in Hin as [k Hk].
  rewrite reduced_entries_lookup in Hk.
  destruct (entries !! k) as [e |] eqn:Ek; [| discriminate].
  injection Hk as <-. unfold reduced_entry in *.
  destruct (reduction_at (cap_reductions entries) k) as [r |].
  - apply reduce_entry_hours.
  - apply H; [| exact Hreg]. apply In_lookup. now exists k.
Qed.

(** After the reductions the regular hours add up to 40. *)
Lemma reduced_entries_total (entries : list raw_entry) :
  (40 < total_regular_hours entries)%Q ->
  (Qsum (map r_hours (List.filter (has_type "REGULAR") (reduced_entries entries))) == 40)%Q.
Proof.
  intros Hgt.
  rewrite (regular_hours_pointwise (reduced_entry (cap_reductions entries))
             entries (reduced_entries entries) 0).
  2: { intros k e. apply reduced_entry_frame. }
  2: { intros k. apply reduced_entries_lookup. }
  fold (enumerate entries). fold (regular_entries entries).
  pose proof (regular_entries_by_date_perm entries) as Hperm.
  rewrite <- (Qsum_perm _ _
                (Permutation_map
                   (fun p => r_hours (reduced_entry (cap_reductions entries) (fst p) (snd p)))
                   Hperm)).
  assert (Htot : (Qsum (map (fun p => r_hours (snd p)) (regular_entries_by_date entries))
                  == total_regular_hours entries)%Q).
  { rewrite total_regular_hours_enum. apply Qsum_perm, Permutation_map, Hperm. }
  unfold cap_reductions.
  rewrite build_reductions_sum.
  - lra.
  - apply regular_entries_by_date_NoDup.
  - lra.
  - lra.
Qed.




(** ** Earliest and latest date *)

Lemma min_date_spec (d : date) (l : list date) :
  In (min_date d l) (d :: l) /\ forall x, In x (d :: l) -> (min_date d l <= x)%Z.
Proof.
  unfold min_date. revert d. induction l as [| y l IH]; intros d; simpl.
  - split; [now left | intros x [<- | []]; lia].
  - destruct (IH (Z.min d y)) as [Hin Hle]. split.
    + destruct Hin as [Hin | Hin]; [| now right; right].
      rewrite <- Hin. destruct (Z.min_spec d y) as [[_ ->] | [_ ->]]; auto.
    + intros x [<- | [<- | Hx]].
      * specialize (Hle _ (or_introl eq_refl)). lia.
      * specialize (Hle _ (or_introl eq_refl)). lia.
      * apply Hle. now right.
Qed.

Lemma max_date_spec (d : date) (l : list date) :
  In (max_date d l) (d :: l) /\ forall x, In x (d :: l) -> (x <= max_date d l)%Z.
Proof.
  unfold max_date. revert d. induction l as [| y l IH]; intros d; simpl.
  - split; [now left | intros x [<- | []]; lia].
  - destruct (IH (Z.max d y)) as [Hin Hle]. split.
    + destruct Hin as [Hin | Hin]; [| now right; right].
      rewrite <- Hin. destruct (Z.max_spec d y) as [[_ ->] | [_ ->]]; auto.
    + intros x [<- | [<- | Hx]].
      * specialize (Hle _ (or_introl eq_refl)). lia.
      * specialize (Hle _ (or_introl eq_refl)). lia.
      * apply Hle. now right.
Qed.

(** ** The payload builder *)

Lemma build_timesheet_ok t tm em payload :
  build_timesheet t tm em = Ok payload ->
  truthy_opt (xero_employee_id t) = true
  /\ daily_entries t <> []
  /\ missing_regions t tm = []
  /\ missing_hour_types t em = []
  /\ StartDate payload = fst (submission_window t)
  /\ EndDate payload = snd (submission_window t).
Proof.
  unfold build_timesheet, build_timesheet_body, validate_employee_timesheet,
    validate_mappings, bind.
  destruct (truthy_opt (xero_employee_id t)); [| discriminate].
  destruct (daily_entries t) as [| e es] eqn:E; [discriminate |].
  destruct (missing_regions t tm); [| discriminate].
  destruct (missing_hour_types t em); [| discriminate].
  destruct (submission_window t) as [s e'].
  destruct (build_timesheet_lines t tm em); [| discriminate].
  intros [= <-]. simpl. repeat split. discriminate.
Qed.

(** C4: a built timesheet starts at the earliest entry date; its end date
    is the pay-period end date when the entry dates span at most 30 days,
    and the earliest date plus 6 days when they span more. *)
Theorem build_timesheet_date_window t tm em payload :
  build_timesheet t tm em = Ok payload ->
  daily_entries t <> [] ->
  exists earliest latest,
    In earliest (map entry_date (daily_entries t))
    /\ In latest (map entry_date (daily_entries t))
    /\ (forall e, In e (daily_entries t) ->
          (earliest <= entry_date e)%Z /\ (entry_date e <= latest)%Z)
    /\ StartDate payload = earliest
    /\ ((latest - earliest <= 30)%Z -> EndDate payload = pay_period_end_date t)
    /\ ((30 < latest - earliest)%Z -> EndDate payload = (earliest + 6)%Z).
Proof.
  intros Hb Hne. apply build_timesheet_ok in Hb as (_ & _ & _ & _ & Hs & He).
  unfold submission_window, get_start_date in Hs, He.
  destruct (daily_entries t) as [| e0 es]; [congruence |]. simpl in Hs, He.
  destruct (min_date_spec (entry_date e0) (map entry_date es)) as [Hmin_in Hmin].
  destruct (max_date_spec (entry_date e0) (map entry_date es)) as [Hmax_in Hmax].
  exists (min_date (entry_date e0) (map entry_date es)),
         (max_date (entry_date e0) (map entry_date es)).
  split; [exact Hmin_in |]. split; [exact Hmax_in |].
  split.
  { intros e Hin. apply (in_map entry_date) in Hin. simpl in Hin. auto. }
  destruct (Z.ltb_spec 30 (max_date (entry_date e0) (map entry_date es)
                           - min_date (entry_date e0) (map entry_date es)))
    as [Hlong | Hshort]; simpl in Hs, He.
  - split; [exact Hs |]. split; [lia | intros _; exact He].
  - split; [exact Hs |]. split; [intros _; exact He | lia].
Qed.

Lemma missing_regions_In t tm r :
  In r (missing_regions t tm) <->
  (exists d, In d (daily_entries t) /\ region_name d = r) /\ tm !! r = None.
Proof.
  unfold missing_regions, get_regions. rewrite filter_In.
  rewrite <- list_elem_of_In, elem_of_elements, elem_of_list_to_set, list_elem_of_In.
  rewrite in_map_iff, negb_true_iff, bool_decide_eq_false.
  rewrite <- eq_None_not_Some. firstorder.
Qed.

Lemma missing_hour_types_In t em h :
  In h (missing_hour_types t em) <->
  (exists d, In d (daily_entries t) /\ HourType_value (hour_type d) = h) /\ em !! h = None.
Proof.
  unfold missing_hour_types. rewrite filter_In.
  rewrite <- list_elem_of_In, elem_of_elements, elem_of_list_to_set, list_elem_of_In.
  rewrite in_map_iff, negb_true_iff, bool_decide_eq_false.
  rewrite <- eq_None_not_Some. firstorder.
Qed.

(** C5, as the builder behaves: with a region and an hour type both
    unmapped, the error names the region only. *)
Lemma build_timesheet_reports_regions_only :
  exists e, build_timesheet sample_timesheet ∅ ∅ = Err e
    /\ region_unmapped sample_timesheet ∅ "North"
    /\ hour_type_unmapped sample_timesheet ∅ "REGULAR"
    /\ ~ In "REGULAR" (reported_keys e).
Proof.
  eexists. split; [vm_compute; reflexivity |].
  split; [| split].
  - split; [| reflexivity]. eexists. split; [now left | reflexivity].
  - split; [| reflexivity]. eexists. split; [now left | reflexivity].
  - simpl. intros [H | []]. discriminate.
Qed.

(** C5 (amended): when a region or an hour type of the entries has no
    mapping, building the payload fails.  For a timesheet that has an
    employee identifier the error enumerates every unmapped region when
    there is one (unmapped hour types are not added to it), and every
    unmapped hour type when all regions are mapped. *)
Theorem build_timesheet_missing_mappings t tm em :
  (exists r, region_unmapped t tm r) \/ (exists h, hour_type_unmapped t em h) ->
  exists e,
    build_timesheet t tm em = Err e
    /\ (truthy_opt (xero_employee_id t) = true ->
        ((exists r, region_unmapped t tm r) ->
           forall k, In k (reported_keys e) <-> region_unmapped t tm k)
        /\ (~ (exists r, region_unmapped t tm r) ->
           forall k, In k (reported_keys e) <-> hour_type_unmapped t em k)).
Proof.
  intros Hmiss.
  assert (Hne : daily_entries t <> []).
  { destruct Hmiss as [(r & (d & Hd & _) & _) | (h & (d & Hd & _) & _)];
      intros E; rewrite E in Hd; contradiction. }
  unfold build_timesheet, build_timesheet_body, validate_employee_timesheet,
    validate_mappings, bind.
  destruct (truthy_opt (xero_employee_id t)).
  2: { eexists. split; [reflexivity | discriminate]. }
  destruct (daily_entries t) as [| e0 es] eqn:E; [congruence |].
  destruct (missing_regions t tm) as [| r0 rs] eqn:Er.
  - destruct (missing_hour_types t em) as [| h0 hs] eqn:Eh.
    + exfalso. destruct Hmiss as [(r & Hr) | (h & Hh)].
      * apply missing_regions_In in Hr. rewrite Er in Hr. contradiction.
      * apply missing_hour_types_In in Hh. rewrite Eh in Hh. contradiction.
    + eexists. split; [reflexivity |]. intros _. split.
      * intros (r & Hr). apply missing_regions_In in Hr. rewrite Er in Hr. contradiction.
      * intros _ k. cbn [reported_keys]. rewrite <- Eh. apply missing_hour_types_In.
  - eexists. split; [reflexivity |]. intros _. split.
    + intros _ k. cbn [reported_keys]. rewrite <- Er. apply missing_regions_In.
    + intros Hno. exfalso. apply Hno. exists r0.
      apply missing_regions_In. rewrite Er. now left.
Qed.

(** ** Case folding and stripping *)






(** ** Insertion-ordered dictionaries *)

Lemma dict_get_set_same {V : Type} (k : string) (v : V) (d : dict V) :
  dict_get k (dict_set k v d) = Some v.
Proof.
  induction d as [| [k' v'] d IH]; simpl.
  - now rewrite String.eqb_refl.
  - destruct (String.eqb_spec k' k); simpl.
    + now rewrite String.eqb_refl.
    + destruct (String.eqb_spec k' k); [contradiction | exact IH].
Qed.

Lemma dict_get_set_other {V : Type} (k k0 : string) (v : V) (d : dict V) :
  k <> k0 -> dict_get k0 (dict_set k v d) = dict_get k0 d.
Proof.
  intros Hne. induction d as [| [k' v'] d IH]; simpl.
  - destruct (String.eqb_spec k k0); [contradiction | reflexivity].
  - destruct (String.eqb_spec k' k) as [-> | Hk]; simpl.
    + destruct (String.eqb_spec k k0); [contradiction | reflexivity].
    + destruct (String.eqb_spec k' k0); [reflexivity | exact IH].
Qed.


(** ** The employee matcher *)





Section MatchingProperties.
Context {F : Fuzz}.




(** C6 (amended): a roster entry yields a fuzzy match only if its best
    score reaches the suggestion threshold and, besides, a token-based
    score reaches that threshold or the last-name score reaches the
    fixed secondary threshold of 60; that threshold equals the default
    suggestion threshold and is not stricter than it.  Every roster entry
    with a name and an identifier that passes this test is among the
    matches. *)
Theorem find_fuzzy_matches_acceptance (self : EmployeeMatcher) (name : string) :
  (forall m, In m (find_fuzzy_matches self name) ->
     exists employee best_score token_sort_score token_set_score last_name_score,
       In employee (xero_employees self)
       /\ fm_name m = emp_name employee
       /\ fm_employee_id m = emp_employee_id employee
       /\ candidate_scores name employee
          = (best_score, token_sort_score, token_set_score, last_name_score)
       /\ fm_score m = best_score
       /\ (suggestion_threshold self <= best_score)%Q
       /\ ((suggestion_threshold self <= token_set_score)%Q
           \/ (suggestion_threshold self <= token_sort_score)%Q
           \/ (last_name_threshold <= last_name_score)%Q))
  /\ (forall employee best_score token_sort_score token_set_score last_name_score,
        In employee (xero_employees self) ->
        emp_name employee <> "" -> emp_employee_id employee <> "" ->
        candidate_scores name employee
          = (best_score, token_sort_score, token_set_score, last_name_score) ->
        (suggestion_threshold self <= best_score)%Q ->
        (suggestion_threshold self <= token_set_score)%Q
          \/ (suggestion_threshold self <= token_sort_score)%Q
          \/ (last_name_threshold <= last_name_score)%Q ->
        exists m, In m (find_fuzzy_matches self name)
                  /\ fm_name m = emp_name employee /\ fm_score m = best_score)
  /\ last_name_threshold = 60%Q
  /\ (last_name_threshold == FUZZY_MATCH_CUTOFF)%Q.
Proof.
  split; [| split; [| split; reflexivity]].
  - intros m Hm. unfold find_fuzzy_matches in Hm.
    apply stable_sort_In in Hm. apply list_elem_of_In, list_elem_of_omap in Hm.
    destruct Hm as (employee & Hin & Hc). apply list_elem_of_In in Hin.
    unfold fuzzy_candidate in Hc.
    destruct (negb (truthy (emp_name employee)) || negb (truthy (emp_employee_id employee)));
      [discriminate |].
    destruct (candidate_scores name employee) as [[[best tsort] tset] last] eqn:Es.
    destruct (candidate_accepted _ best tsort tset last) eqn:Ea; [| discriminate].
    injection Hc as <-. simpl.
    exists employee, best, tsort, tset, last.
    unfold candidate_accepted in Ea.
    apply andb_true_iff in Ea as [Hb Ht]. apply Qle_bool_iff in Hb.
    repeat split; try assumption.
    apply orb_true_iff in Ht as [Ht | Ht].
    + apply orb_true_iff in Ht as [Ht | Ht]; apply Qle_bool_iff in Ht; auto.
    + apply Qle_bool_iff in Ht; auto.
  - intros employee best tsort tset last Hin Hn Hid Es Hb Ht.
    eexists. split.
    + unfold find_fuzzy_matches. apply stable_sort_In.
      apply list_elem_of_In, list_elem_of_omap. exists employee.
      split; [now apply list_elem_of_In |].
      unfold fuzzy_candidate. rewrite Es.
      assert (truthy (emp_name employee) = true) as ->
        by (destruct (emp_name employee); [congruence | reflexivity]).
      assert (truthy (emp_employee_id employee) = true) as ->
        by (destruct (emp_employee_id employee); [congruence | reflexivity]).
      simpl.
      assert (candidate_accepted (suggestion_threshold self) best tsort tset last = true) as ->;
        [| reflexivity].
      unfold candidate_accepted. apply andb_true_iff. split; [now apply Qle_bool_iff |].
      apply orb_true_iff.
      destruct Ht as [Ht | [Ht | Ht]]; apply Qle_bool_iff in Ht;
        [left | left | right]; [| | exact Ht]; apply orb_true_iff; auto.
    + split; reflexivity.
Qed.
End MatchingProperties.

(** C6, as the matcher behaves: under the default suggestion threshold a
    candidate whose token scores are low is accepted on a last-name score
    of 60, so no secondary threshold above the suggestion threshold is
    enforced. *)
Lemma last_name_threshold_not_stricter :
  ~ (exists secondary : Q,
       (FUZZY_MATCH_CUTOFF < secondary)%Q
       /\ forall best_score token_sort_score token_set_score last_name_score,
            candidate_accepted FUZZY_MATCH_CUTOFF best_score token_sort_score
              token_set_score last_name_score = true ->
            (FUZZY_MATCH_CUTOFF <= best_score)%Q
            /\ ((FUZZY_MATCH_CUTOFF <= token_set_score)%Q
                \/ (FUZZY_MATCH_CUTOFF <= token_sort_score)%Q
                \/ (secondary <= last_name_score)%Q)).
Proof.
  intros (secondary & Hs & H).
  destruct (H 60%Q 0%Q 0%Q 60%Q eq_refl) as [_ [Ht | [Ht | Ht]]];
    unfold FUZZY_MATCH_CUTOFF in *; lra.
Qed.

(** ** The export transform *)

Lemma HourType_eqb_eq (a b : HourType) : HourType_eqb a b = true <-> a = b.
Proof. destruct a, b; simpl; split; congruence. Qed.

Lemma HourType_value_inj (a b : HourType) : HourType_value a = HourType_value b -> a = b.
Proof. destruct a, b; simpl; congruence. Qed.

Lemma is_unknown_row_dict (d : date) (t : HourType) (e : DailyEntry) :
  is_unknown_row d t (to_entry_dict e) = is_unknown_entry d t e.
Proof.
  unfold is_unknown_row, is_unknown_entry, to_entry_dict. simpl. f_equal.
  destruct (HourType_eqb (hour_type e) t) eqn:E.
  - apply HourType_eqb_eq in E as ->. apply String.eqb_refl.
  - apply String.eqb_neq. intros H. apply HourType_value_inj in H.
    apply HourType_eqb_eq in H. congruence.
Qed.

Lemma is_unknown_entry_key (d : date) (t : HourType) (e : DailyEntry) :
  is_unknown_entry d t e = true ->
  key_of (to_entry_dict e) = (d, "Unknown", 0%Q, HourType_value t).
Proof.
  unfold is_unknown_entry, key_of, to_entry_dict. simpl. intros H.
  apply andb_true_iff in H as [H Ht]. apply andb_true_iff in H as [Hr Hd].
  rewrite Hr. apply String.eqb_eq in Hr. apply Z.eqb_eq in Hd.
  apply HourType_eqb_eq in Ht. now rewrite Hr, Hd, Ht.
Qed.

Lemma unknown_key_match (d : date) (t : HourType) (e : DailyEntry) :
  export_key_eqb (key_of (to_entry_dict e)) (d, "Unknown", 0%Q, HourType_value t) = true ->
  is_unknown_entry d t e = true.
Proof.
  unfold export_key_eqb, key_of, to_entry_dict, is_unknown_entry. simpl. intros H.
  apply andb_true_iff in H as [H Ht]. apply andb_true_iff in H as [H _].
  apply andb_true_iff in H as [Hd Hr].
  rewrite Hd, Hr. simpl. apply String.eqb_eq, HourType_value_inj in Ht.
  now apply HourType_eqb_eq.
Qed.

Lemma export_key_eqb_refl (k : export_key) : export_key_eqb k k = true.
Proof.
  destruct k as [[[d r] h] t]. simpl.
  rewrite Z.eqb_refl, !String.eqb_refl. simpl. rewrite andb_true_r.
  apply Qeq_bool_iff. reflexivity.
Qed.

Lemma export_key_eqb_sym (a b : export_key) : export_key_eqb a b = export_key_eqb b a.
Proof.
  destruct a as [[[d r] h] t], b as [[[d' r'] h'] t']. simpl.
  rewrite (Z.eqb_sym d d'), (String.eqb_sym r r'), (String.eqb_sym t t').
  do 2 f_equal.
  destruct (Qeq_bool h h') eqn:E1, (Qeq_bool h' h) eqn:E2; try reflexivity.
  - apply Qeq_bool_iff in E1. symmetry in E1. apply Qeq_bool_iff in E1. congruence.
  - apply Qeq_bool_iff in E2. symmetry in E2. apply Qeq_bool_iff in E2. congruence.
Qed.

(** At most one unknown-region row per date and hour type, and none when
    the key has been seen already. *)
Lemma export_entries_unknown_rows (d : date) (t : HourType) (l : list DailyEntry)
    (seen : list export_key) :
  let K := (d, "Unknown", 0%Q, HourType_value t) in
  (existsb (export_key_eqb K) seen = true ->
     List.filter (is_unknown_row d t) (export_entries seen l) = [])
  /\ (length (List.filter (is_unknown_row d t) (export_entries seen l)) <= 1)%nat.
Proof.
  cbv zeta. revert seen. induction l as [| e l IH]; intros seen.
  - split; [reflexivity | simpl; lia].
  - cbn [export_entries].
    destruct (existsb (export_key_eqb (key_of (to_entry_dict e))) seen) eqn:Es;
      [apply IH |].
    cbn [List.filter]. rewrite is_unknown_row_dict.
    destruct (IH (key_of (to_entry_dict e) :: seen)) as [IH0 IH1].
    destruct (is_unknown_entry d t e) eqn:Eu.
    + pose proof (is_unknown_entry_key d t e Eu) as Hk.
      rewrite IH0 by (cbn [existsb]; now rewrite Hk, export_key_eqb_refl).
      rewrite Hk in Es.
      split; [intros H; congruence | simpl; lia].
    + split; [| exact IH1].
      intros H. apply IH0. cbn [existsb]. rewrite H. apply orb_true_r.
Qed.

(** The first unknown-region entry of a date and hour type is exported. *)
Lemma export_entries_first_unknown (d : date) (t : HourType)
    (l1 : list DailyEntry) (e : DailyEntry) (l2 : list DailyEntry) (seen : list export_key) :
  existsb (export_key_eqb (d, "Unknown", 0%Q, HourType_value t)) seen = false ->
  (forall e', In e' l1 -> is_unknown_entry d t e' = false) ->
  is_unknown_entry d t e = true ->
  In (to_entry_dict e) (export_entries seen (l1 ++ e :: l2)).
Proof.
  set (K := (d, "Unknown", 0%Q, HourType_value t)).
  revert seen. induction l1 as [| e1 l1 IH]; intros seen Hseen Hl1 He;
    cbn [app export_entries].
  - rewrite (is_unknown_entry_key d t e He). fold K. rewrite Hseen. now left.
  - assert (Hl1' : forall e', In e' l1 -> is_unknown_entry d t e' = false).
    { intros e' He'. apply Hl1. now right. }
    destruct (existsb (export_key_eqb (key_of (to_entry_dict e1))) seen).
    + now apply IH.
    + right. apply IH; [| exact Hl1' | exact He].
      cbn [existsb]. rewrite Hseen, orb_false_r.
      destruct (export_key_eqb K (key_of (to_entry_dict e1))) eqn:Ek; [| reflexivity].
      rewrite export_key_eqb_sym in Ek. apply unknown_key_match in Ek.
      rewrite (Hl1 e1 (or_introl eq_refl)) in Ek. discriminate.
Qed.

Lemma first_occurrence {A : Type} (P : A -> bool) (l : list A) (x : A) :
  In x l -> P x = true ->
  exists l1 x0 l2, l = l1 ++ x0 :: l2 /\ P x0 = true /\ forall y, In y l1 -> P y = false.
Proof.
  induction l as [| y l IH]; intros Hin Hx; [contradiction |].
  destruct (P y) eqn:Ey.
  - exists [], y, l. repeat split; [exact Ey | intros z []].
  - destruct Hin as [-> | Hin]; [congruence |].
    destruct (IH Hin Hx) as (l1 & x0 & l2 & -> & H0 & H1).
    exists (y :: l1), x0, l2. repeat split; [exact H0 |].
    intros z [<- | Hz]; auto.
Qed.

Lemma singleton_of_short {A : Type} (l : list A) (x : A) :
  In x l -> (length l <= 1)%nat -> l = [x].
Proof.
  destruct l as [| y [| z l]]; simpl; intros Hin Hlen; [contradiction | | lia].
  destruct Hin as [-> | []]. reflexivity.
Qed.

(** C10: in the export of a timesheet the unknown-region entries of one
    date and hour type leave at most one row, with hours 0; that row is
    the one of the first such entry, and every later one is dropped
    whatever its real hours are. *)
Theorem export_unknown_entries_collapse (payroll_data : PayrollData)
    (timesheet : EmployeeTimesheet) (d : date) (t : HourType) :
  In timesheet (employee_timesheets payroll_data) ->
  exists exported,
    In exported (x_employees (to_target_json_format payroll_data))
    /\ x_employee_name exported = employee_name timesheet
    /\ x_daily_entries exported = export_entries [] (daily_entries timesheet)
    /\ let rows := List.filter (is_unknown_row d t) (x_daily_entries exported) in
       (length rows <= 1)%nat
       /\ (forall x, In x rows -> x_hours x = 0%Q)
       /\ (forall l1 e l2,
             daily_entries timesheet = l1 ++ e :: l2 ->
             is_unknown_entry d t e = true ->
             (forall e', In e' l1 -> is_unknown_entry d t e' = false) ->
             rows = [to_entry_dict e] /\ x_hours (to_entry_dict e) = 0%Q).
Proof.
  intros Hin.
  exists {| x_employee_name := employee_name timesheet;
            x_daily_entries := export_entries [] (daily_entries timesheet) |}.
  split.
  { unfold to_target_json_format. simpl. apply in_map_iff. now exists timesheet. }
  split; [reflexivity |]. split; [reflexivity |]. simpl.
  destruct (export_entries_unknown_rows d t (daily_entries timesheet) []) as [_ Hlen].
  assert (Hzero : forall seen l x,
            In x (export_entries seen l) -> is_unknown_row d t x = true -> x_hours x = 0%Q).
  { intros seen l. revert seen. induction l as [| e l IH]; intros seen x Hx Hu;
      simpl in Hx; [contradiction |].
    destruct (existsb _ seen); [now apply (IH seen) |].
    destruct Hx as [<- | Hx]; [| exact (IH _ x Hx Hu)].
    rewrite is_unknown_row_dict in Hu. unfold is_unknown_entry in Hu.
    apply andb_true_iff in Hu as [Hu _]. apply andb_true_iff in Hu as [Hu _].
    unfold to_entry_dict. simpl. now rewrite Hu. }
  split; [exact Hlen |]. split.
  - intros x Hx. apply filter_In in Hx as [Hx Hu]. now apply (Hzero _ _ x Hx).
  - intros l1 e l2 Hl He Hl1.
    assert (Hrow : In (to_entry_dict e)
                     (List.filter (is_unknown_row d t)
                        (export_entries [] (daily_entries timesheet)))).
    { apply filter_In. split; [| now rewrite is_unknown_row_dict].
      rewrite Hl. now apply (export_entries_first_unknown d t). }
    split; [now apply singleton_of_short |].
    apply filter_In in Hrow as [Hrow Hu]. now apply (Hzero _ _ _ Hrow).
Qed.

(** ** Consolidation *)

Lemma dict_get_In {V : Type} (k : string) (v : V) (d : dict V) :
  dict_get k d = Some v -> In (k, v) d.
Proof.
  induction d as [| [k' v'] d IH]; simpl; [discriminate |].
  destruct (String.eqb_spec k' k) as [-> | _]; [intros [= ->]; now left | auto].
Qed.

Lemma dict_set_In {V : Type} (k : string) (v : V) (d : dict V) (p : string * V) :
  In p (dict_set k v d) -> p = (k, v) \/ In p d.
Proof.
  induction d as [| [k' v'] d IH]; simpl.
  - intros [<- | []]. now left.
  - destruct (String.eqb k' k); simpl; intros [<- | Hp]; auto.
    destruct (IH Hp); auto.
Qed.

Lemma mapM_Forall2 {E A B : Type} (f : A -> result E B) (l : list A) (ys : list B) :
  mapM f l = Ok ys -> List.Forall2 (fun x y => f x = Ok y) l ys.
Proof.
  revert ys. induction l as [| x l IH]; simpl; intros ys H.
  - injection H as <-. constructor.
  - unfold bind in H. destruct (f x) as [y |] eqn:Ex; [| discriminate].
    destruct (mapM f l) as [ys' |]; [| discriminate].
    injection H as <-. constructor; auto.
Qed.

Lemma Forall2_In_left {A B : Type} (R : A -> B -> Prop) (l : list A) (l' : list B) (x : A) :
  List.Forall2 R l l' -> In x l -> exists y, In y l' /\ R x y.
Proof.
  induction 1 as [| a b l l' Hab _ IH]; intros Hin; [contradiction |].
  destruct Hin as [<- | Hin]; [exists b; split; [now left | exact Hab] |].
  destruct (IH Hin) as (y & Hy & HR). exists y. split; [now right | exact HR].
Qed.

Lemma Forall2_In_right {A B : Type} (R : A -> B -> Prop) (l : list A) (l' : list B) (y : B) :
  List.Forall2 R l l' -> In y l' -> exists x, In x l /\ R x y.
Proof.
  induction 1 as [| a b l l' Hab _ IH]; intros Hin; [contradiction |].
  destruct Hin as [<- | Hin]; [exists a; split; [now left | exact Hab] |].
  destruct (IH Hin) as (x & Hx & HR). exists x. split; [now right | exact HR].
Qed.

Lemma get_canonical_employee_name_id (site_data travel_data : parsed_data) (name : string) :
  get_canonical_employee_name name (build_employee_name_mapping site_data travel_data) = name.
Proof.
  unfold get_canonical_employee_name, build_employee_name_mapping.
  match goal with |- default _ (?m !! _) = _ => destruct (m !! name) as [v |] eqn:E end;
    [| reflexivity].
  apply lookup_set_to_map in E.
  - destruct E as (x & _ & [= -> ->]). reflexivity.
  - intros y y' _ _ Hy. exact Hy.
Qed.

Lemma extends_refl (st : consolidation) : extends st st.
Proof. repeat split; auto. Qed.

Lemma extends_trans (a b c : consolidation) : extends a b -> extends b c -> extends a c.
Proof.
  intros (H1 & H2 & H3) (H1' & H2' & H3'). repeat split; auto.
  etransitivity; eassumption.
Qed.

Lemma entries_of_set_same (n : string) (v : list DailyEntry) (c : dict (list DailyEntry)) :
  entries_of n (dict_set n v c) = v.
Proof. unfold entries_of. now rewrite dict_get_set_same. Qed.

Lemma entries_of_set_other (n n0 : string) (v : list DailyEntry) (c : dict (list DailyEntry)) :
  n <> n0 -> entries_of n0 (dict_set n v c) = entries_of n0 c.
Proof. intros H. unfold entries_of. now rewrite dict_get_set_other. Qed.

Lemma record_entry_extends (n : string) (d : DailyEntry) (st : consolidation) :
  extends st (record_entry n d st).
Proof.
  destruct st as [c u]. unfold record_entry, extends. simpl. split; [| split].
  - intros n0 d0 H. destruct (String.eqb_spec n n0) as [<- | Hne].
    + rewrite entries_of_set_same. apply in_or_app. now left.
    + now rewrite entries_of_set_other.
  - destruct (region_valid d); simpl; set_solver.
  - intros x Hx. destruct (region_valid d); simpl; [exact Hx |].
    apply in_or_app. now left.
Qed.

Lemma record_entry_recorded (n : string) (d : DailyEntry) (st : consolidation) :
  recorded n d (record_entry n d st).
Proof.
  destruct st as [c u]. unfold record_entry, recorded. simpl. split.
  - rewrite entries_of_set_same. apply in_or_app. right. now left.
  - intros Hv. rewrite Hv. simpl. split; [set_solver |].
    apply in_or_app. right. now left.
Qed.

Lemma recorded_extends (n : string) (d : DailyEntry) (st st' : consolidation) :
  recorded n d st -> extends st st' -> recorded n d st'.
Proof.
  intros [H1 H2] (E1 & E2 & E3). split; [auto |].
  intros Hv. specialize (H2 Hv) as [Hr He]. split; [set_solver | auto].
Qed.

Lemma ensure_employee_extends (n : string) (st : consolidation) :
  extends st (ensure_employee n (fst st), snd st).
Proof.
  unfold ensure_employee, extends. simpl.
  destruct (dict_get n (fst st)) eqn:E; [repeat split; auto |].
  split; [| split; auto].
  intros n0 d H. destruct (String.eqb_spec n n0) as [<- | Hne].
  - unfold entries_of in H. rewrite E in H. contradiction.
  - now rewrite entries_of_set_other.
Qed.

Lemma record_entry_audited (n : string) (d : DailyEntry) (st : consolidation) :
  audited st -> audited (record_entry n d st).
Proof.
  destruct st as [c u]. unfold audited, record_entry. simpl.
  intros Ha n0 es d0 Hin Hd0 Hv.
  assert (Hold : forall x, In x (unknown_region_entries u) ->
                   In x (unknown_region_entries
                           (if region_valid d then u
                            else {| unknown_regions :=
                                      {[default "" (original_region d)]} ∪ unknown_regions u;
                                    unknown_region_entries :=
                                      unknown_region_entries u
                                        ++ [(n, original_region d, entry_date d, hours d)] |}))).
  { intros x Hx. destruct (region_valid d); simpl; [exact Hx |]. apply in_or_app. now left. }
  apply dict_set_In in Hin as [[= -> ->] | Hin].
  - apply in_app_or in Hd0 as [Hd0 | [<- | []]].
    + apply Hold. destruct (dict_get n c) as [es |] eqn:E; simpl in Hd0; [| contradiction].
      apply (Ha n es d0); auto. now apply dict_get_In.
    + rewrite Hv. simpl. apply in_or_app. right. now left.
  - apply Hold. now apply (Ha n0 es d0).
Qed.

Lemma ensure_employee_audited (n : string) (st : consolidation) :
  audited st -> audited (ensure_employee n (fst st), snd st).
Proof.
  unfold audited, ensure_employee. simpl. intros Ha n0 es d Hin Hd Hv.
  destruct (dict_get n (fst st)); [now apply (Ha n0 es d) |].
  apply dict_set_In in Hin as [[= -> ->] | Hin]; [contradiction |].
  now apply (Ha n0 es d).
Qed.

Lemma add_entries_spec (create : raw_entry -> result error DailyEntry) (n : string)
    (entries : list raw_entry) (st st' : consolidation) :
  add_entries create n entries st = Ok st' ->
  extends st st'
  /\ (audited st -> audited st')
  /\ forall e, In e entries -> exists d, create e = Ok d /\ recorded n d st'.
Proof.
  revert st. induction entries as [| e entries IH]; intros st H; simpl in H.
  - injection H as <-. split; [apply extends_refl |]. split; [auto | intros e []].
  - unfold bind in H. destruct (create e) as [d |] eqn:Ec; [| discriminate].
    destruct (IH _ H) as (Hext & Haud & Hall).
    split; [| split].
    + eapply extends_trans; [apply record_entry_extends | exact Hext].
    + intros Ha. now apply Haud, record_entry_audited.
    + intros e0 [<- | Hin]; [| now apply Hall].
      exists d. split; [exact Ec |].
      eapply recorded_extends; [apply record_entry_recorded | exact Hext].
Qed.

Lemma add_employees_spec (create : string -> raw_entry -> result error DailyEntry)
    (site_data travel_data : parsed_data) (emps : list employee_data)
    (st st' : consolidation) :
  add_employees create (build_employee_name_mapping site_data travel_data) emps st = Ok st' ->
  extends st st'
  /\ (audited st -> audited st')
  /\ forall emp e, In emp emps -> In e (ed_entries emp) ->
       exists d, create (ed_employee_name emp) e = Ok d
                 /\ recorded (ed_employee_name emp) d st'.
Proof.
  revert st. induction emps as [| emp emps IH]; intros st H; simpl in H.
  - injection H as <-. split; [apply extends_refl |]. split; [auto | intros ? ? []].
  - rewrite get_canonical_employee_name_id in H. unfold bind in H.
    destruct (add_entries _ _ _ _) as [st2 |] eqn:Ea; [| discriminate].
    apply add_entries_spec in Ea as (Hext1 & Haud1 & Hall1).
    destruct (IH _ H) as (Hext2 & Haud2 & Hall2).
    split; [| split].
    + eapply extends_trans; [apply ensure_employee_extends |].
      eapply extends_trans; eassumption.
    + intros Ha. now apply Haud2, Haud1, ensure_employee_audited.
    + intros emp0 e [<- | Hin] He; [| now apply Hall2].
      destruct (Hall1 e He) as (d & Hc & Hr).
      exists d. split; [exact Hc |]. eapply recorded_extends; eassumption.
Qed.

Lemma build_timesheets_spec (pay_period_end : date) (c : dict (list DailyEntry))
    (ts : list EmployeeTimesheet) :
  build_timesheets pay_period_end c = Ok ts ->
  (forall n es, In (n, es) c ->
     exists t, In t ts /\ employee_name t = n
               /\ forall d, In d (daily_entries t) <-> In d es)
  /\ (forall t, In t ts ->
        exists es, In (employee_name t, es) c
                   /\ forall d, In d (daily_entries t) <-> In d es).
Proof.
  intros H. apply mapM_Forall2 in H. split.
  - intros n es Hin. destruct (Forall2_In_left _ _ _ _ H Hin) as (t & Ht & Hnew).
    apply new_EmployeeTimesheet_ok in Hnew as (-> & _). simpl.
    exists {| employee_name := n;
              daily_entries := stable_sort (fun y x => (entry_date y <? entry_date x)%Z) es;
              pay_period_end_date := pay_period_end;
              xero_employee_id := None; payroll_calendar_id := None |}.
    split; [exact Ht |]. split; [reflexivity |]. intros d. apply stable_sort_In.
  - intros t Ht. destruct (Forall2_In_right _ _ _ _ H Ht) as ([n es] & Hin & Hnew).
    apply new_EmployeeTimesheet_ok in Hnew as (-> & _). simpl.
    exists es. split; [exact Hin |]. intros d. apply stable_sort_In.
Qed.

(** What a successful run of [consolidate] went through. *)
Lemma consolidate_ok site_data travel_data overtime_data valid_regions payroll st :
  consolidate site_data travel_data overtime_data valid_regions = Ok (payroll, st) ->
  exists site_end st1 st2 ts,
    pd_end_date site_data = Some site_end
    /\ add_employees
         (fun name entry =>
            create_daily_entry_from_site_data entry overtime_data name valid_regions)
         (build_employee_name_mapping site_data travel_data)
         (get_employees site_data) ([], empty_unknown_state) = Ok st1
    /\ add_employees
         (fun _ entry =>
            create_daily_entry_from_travel_data entry
              (effective_pay_period_end site_data site_end) valid_regions)
         (build_employee_name_mapping site_data travel_data)
         (get_employees travel_data) st1 = Ok st2
    /\ build_timesheets (effective_pay_period_end site_data site_end) (fst st2) = Ok ts
    /\ (forall t, In t (employee_timesheets payroll) <-> In t ts)
    /\ pd_pay_period_end_date payroll = effective_pay_period_end site_data site_end
    /\ st = snd st2.
Proof.
  unfold consolidate, bind.
  destruct (validate_input_data _ _ _); [| discriminate].
  destruct (pd_end_date site_data) as [site_end |]; [| discriminate].
  destruct (validate_date_ranges _ _); [| discriminate].
  destruct (add_employees _ _ (get_employees site_data) _) as [st1 |] eqn:E1;
    [| discriminate].
  destruct (add_employees _ _ (get_employees travel_data) _) as [st2 |] eqn:E2;
    [| discriminate].
  destruct (build_timesheets _ _) as [ts |] eqn:E3; [| discriminate].
  destruct (stable_sort _ ts) as [| t0 ts0] eqn:Es; [discriminate |].
  unfold new_PayrollData, bind.
  destruct (PayrollData_validate _); [| discriminate].
  intros [= <- <-]. exists site_end, st1, st2, ts.
  do 4 (split; [first [reflexivity | eassumption] |]).
  split; [| split; reflexivity].
  intros t. cbn [employee_timesheets]. rewrite <- Es. apply stable_sort_In.
Qed.

Lemma region_unknown_iff (regions : gset string) (r : string) :
  region_unknown (Some regions) r = true <-> r ∉ regions.
Proof. unfold region_unknown. now rewrite negb_true_iff, bool_decide_eq_false. Qed.

Lemma create_site_unknown entry overtime_data name (regions : gset string) d :
  r_region_name entry ∉ regions ->
  create_daily_entry_from_site_data entry overtime_data name (Some regions) = Ok d ->
  region_name d = "Unknown" /\ region_valid d = false
  /\ original_region d = Some (r_region_name entry)
  /\ entry_date d = r_entry_date entry /\ hours d = r_hours entry
  /\ HourType_of_string (r_hour_type entry) = Ok (hour_type d).
Proof.
  intros Hr. apply region_unknown_iff in Hr.
  unfold create_daily_entry_from_site_data, bind. rewrite Hr.
  destruct (HourType_of_string (r_hour_type entry)) as [ht |]; [| discriminate].
  intros H. apply new_DailyEntry_ok in H as [-> _]. simpl. repeat split.
Qed.

Lemma create_travel_unknown entry pay_period_end (regions : gset string) d :
  r_region_name entry ∉ regions ->
  create_daily_entry_from_travel_data entry pay_period_end (Some regions) = Ok d ->
  region_name d = "Unknown" /\ region_valid d = false
  /\ original_region d = Some (r_region_name entry)
  /\ entry_date d
     = (if year_is_1900 (r_entry_date entry) then pay_period_end else r_entry_date entry)
  /\ hours d = r_hours entry /\ hour_type d = TRAVEL.
Proof.
  intros Hr. apply region_unknown_iff in Hr.
  unfold create_daily_entry_from_travel_data. rewrite Hr.
  intros H. apply new_DailyEntry_ok in H as [-> _]. simpl. repeat split.
Qed.

Lemma report_unknown_regions_In (st : unknown_state) (r : string) :
  In r (rep_unknown_regions (get_unknown_region_report st)) <->
  r ∈ unknown_regions st /\ r <> "".
Proof.
  unfold get_unknown_region_report. simpl.
  rewrite stable_sort_In, filter_In, <- list_elem_of_In, elem_of_elements.
  destruct r; simpl; split; intros [H1 H2]; split; auto; congruence.
Qed.

Lemma report_entries_In (st : unknown_state) n orig dt hrs :
  In (n, orig, dt, hrs) (unknown_region_entries st) ->
  In {| ur_employee_name := n; ur_original_region := orig;
        ur_entry_date := dt; ur_hours := hrs |}
     (rep_unknown_region_entries (get_unknown_region_report st)).
Proof.
  intros H. unfold get_unknown_region_report. simpl.
  apply in_map_iff. exists (n, orig, dt, hrs). now split.
Qed.

Lemma recorded_in_timesheet pay_period_end n d (st : consolidation) ts :
  recorded n d st -> build_timesheets pay_period_end (fst st) = Ok ts ->
  exists t, In t ts /\ employee_name t = n /\ In d (daily_entries t).
Proof.
  intros [Hin _] Hb. unfold entries_of in Hin.
  destruct (dict_get n (fst st)) as [es |] eqn:E; simpl in Hin; [| contradiction].
  apply dict_get_In in E.
  destruct (build_timesheets_spec _ _ _ Hb) as [Hall _].
  destruct (Hall n es E) as (t & Ht & Hn & Hd).
  exists t. split; [exact Ht |]. split; [exact Hn |]. now apply Hd.
Qed.

(** C3, as the code behaves: a site entry whose region text is empty (the
    site parser produces one from a cell that holds only blanks) is
    quarantined, but the report's [unknown_regions] leaves the empty name
    out. *)
Lemma consolidate_empty_region_unlisted :
  exists payroll st t d,
    consolidate (sample_site "") sample_travel sample_overtime
      (Some ({[ "North" ]} : gset string)) = Ok (payroll, st)
    /\ ("" ∉ ({[ "North" ]} : gset string))
    /\ In t (employee_timesheets payroll) /\ In d (daily_entries t)
    /\ region_name d = "Unknown" /\ region_valid d = false
    /\ original_region d = Some ""
    /\ ~ In "" (rep_unknown_regions (get_unknown_region_report st)).
Proof.
  do 4 eexists. split; [vm_compute; reflexivity |].
  split; [apply not_elem_of_singleton; discriminate |].
  split; [now left |]. split; [now left |].
  do 3 (split; [reflexivity |]).
  rewrite report_unknown_regions_In. intros [_ H]. congruence.
Qed.

(** C3 (amended): when [consolidate] succeeds with a set of valid regions,
    an entry whose region is not in the set is kept in the employee's
    timesheet with region name "Unknown", [region_valid] false and the
    source text as [original_region]; the report lists an entry with the
    employee name, the original region, the entry date and the hours, and
    lists the original region among [unknown_regions] when that name is not
    the empty string.  This holds for site entries and for travel
    entries. *)
Theorem consolidate_quarantines_unknown_regions site_data travel_data overtime_data
    (regions : gset string) payroll st :
  consolidate site_data travel_data overtime_data (Some regions) = Ok (payroll, st) ->
  let report := get_unknown_region_report st in
  (forall emp e,
     In emp (get_employees site_data) -> In e (ed_entries emp) ->
     r_region_name e ∉ regions ->
     exists t d,
       In t (employee_timesheets payroll)
       /\ employee_name t = ed_employee_name emp
       /\ In d (daily_entries t)
       /\ region_name d = "Unknown" /\ region_valid d = false
       /\ original_region d = Some (r_region_name e)
       /\ entry_date d = r_entry_date e /\ hours d = r_hours e
       /\ (r_region_name e <> "" -> In (r_region_name e) (rep_unknown_regions report))
       /\ In {| ur_employee_name := ed_employee_name emp;
                ur_original_region := Some (r_region_name e);
                ur_entry_date := r_entry_date e;
                ur_hours := r_hours e |} (rep_unknown_region_entries report))
  /\ (forall emp e,
        In emp (get_employees travel_data) -> In e (ed_entries emp) ->
        r_region_name e ∉ regions ->
        exists t d,
          In t (employee_timesheets payroll)
          /\ employee_name t = ed_employee_name emp
          /\ In d (daily_entries t)
          /\ region_name d = "Unknown" /\ region_valid d = false
          /\ original_region d = Some (r_region_name e)
          /\ hours d = r_hours e /\ hour_type d = TRAVEL
          /\ entry_date d
             = (if year_is_1900 (r_entry_date e) then pd_pay_period_end_date payroll
                else r_entry_date e)
          /\ (r_region_name e <> "" -> In (r_region_name e) (rep_unknown_regions report))
          /\ In {| ur_employee_name := ed_employee_name emp;
                   ur_original_region := Some (r_region_name e);
                   ur_entry_date := entry_date d;
                   ur_hours := r_hours e |} (rep_unknown_region_entries report)).
Proof.
  intros Hc report.
  apply consolidate_ok in Hc
    as (site_end & st1 & st2 & ts & _ & Hs & Ht & Hb & Hts & Hend & ->).
  apply add_employees_spec in Hs as (_ & _ & Hsite).
  apply add_employees_spec in Ht as (Hext & _ & Htravel).
  split.
  - intros emp e Hemp He Hr.
    destruct (Hsite emp e Hemp He) as (d & Hd & Hrec).
    apply (recorded_extends _ _ _ _ Hrec) in Hext.
    destruct (recorded_in_timesheet _ _ _ _ _ Hext Hb) as (t & Hin & Hn & Hdin).
    destruct (create_site_unknown _ _ _ _ _ Hr Hd) as (H1 & H2 & H3 & H4 & H5 & _).
    destruct Hext as [_ Hrep]. specialize (Hrep H2) as [Hreg Hent].
    rewrite H3 in Hreg, Hent. simpl in Hreg. rewrite H4, H5 in Hent.
    exists t, d. rewrite Hts. repeat split; try assumption.
    + intros Hne. apply report_unknown_regions_In. now split.
    + now apply report_entries_In.
  - intros emp e Hemp He Hr.
    destruct (Htravel emp e Hemp He) as (d & Hd & Hrec).
    destruct (recorded_in_timesheet _ _ _ _ _ Hrec Hb) as (t & Hin & Hn & Hdin).
    destruct (create_travel_unknown _ _ _ _ Hr Hd) as (H1 & H2 & H3 & H4 & H5 & H6).
    destruct Hrec as [_ Hrep]. specialize (Hrep H2) as [Hreg Hent].
    rewrite H3 in Hreg, Hent. simpl in Hreg. rewrite H5 in Hent.
    exists t, d. rewrite Hts, Hend. repeat split; try assumption.
    + intros Hne. apply report_unknown_regions_In. now split.
    + now apply report_entries_In.
Qed.

Lemma audited_initial : audited ([], empty_unknown_state).
Proof. intros n es d []. Qed.

(** C9, as the code behaves: an entry whose region is literally named
    "Unknown", consolidated without a valid-region set, is exported with 0
    hours although the unknown-region report records nothing. *)
Lemma unknown_named_region_redacted_unreported :
  exists payroll st t d,
    consolidate (sample_site "Unknown") sample_travel sample_overtime None = Ok (payroll, st)
    /\ In t (employee_timesheets payroll) /\ In d (daily_entries t)
    /\ region_name d = "Unknown" /\ hours d = 8%Q
    /\ (forall exported x,
          In exported (x_employees (to_target_json_format payroll)) ->
          In x (x_daily_entries exported) -> x_hours x = 0%Q)
    /\ rep_unknown_region_entries (get_unknown_region_report st) = [].
Proof.
  do 4 eexists. split; [vm_compute; reflexivity |].
  split; [now left |]. split; [now left |].
  split; [reflexivity |]. split; [reflexivity |]. split; [| reflexivity].
  intros exported x [<- | []] [<- | []]. reflexivity.
Qed.

(** The same happens with a valid-region set that holds the name
    "Unknown". *)
Lemma unknown_valid_region_redacted_unreported :
  exists payroll st t d,
    consolidate (sample_site "Unknown") sample_travel sample_overtime
      (Some ({[ "Unknown" ]} : gset string)) = Ok (payroll, st)
    /\ In t (employee_timesheets payroll) /\ In d (daily_entries t)
    /\ region_name d = "Unknown" /\ region_valid d = true /\ hours d = 8%Q
    /\ (forall exported x,
          In exported (x_employees (to_target_json_format payroll)) ->
          In x (x_daily_entries exported) -> x_hours x = 0%Q)
    /\ rep_unknown_region_entries (get_unknown_region_report st) = [].
Proof.
  do 4 eexists. split; [vm_compute; reflexivity |].
  split; [now left |]. split; [now left |].
  do 3 (split; [reflexivity |]). split; [| reflexivity].
  intros exported x [<- | []] [<- | []]. reflexivity.
Qed.

(** C9 (amended): in the export of consolidated payroll data every entry
    whose region name is "Unknown" is represented by a row of its date and
    hour type with hours 0; when consolidation marked the entry as having
    an unrecognised region ([region_valid] false), the unknown-region
    report records it with its true hours. *)
Theorem export_redacts_unknown_hours site_data travel_data overtime_data valid_regions
    payroll st (t : EmployeeTimesheet) (d : DailyEntry) :
  consolidate site_data travel_data overtime_data valid_regions = Ok (payroll, st) ->
  In t (employee_timesheets payroll) -> In d (daily_entries t) ->
  region_name d = "Unknown" ->
  (exists exported x,
     In exported (x_employees (to_target_json_format payroll))
     /\ x_employee_name exported = employee_name t
     /\ In x (x_daily_entries exported)
     /\ x_entry_date x = entry_date d
     /\ x_region_name x = "Unknown"
     /\ x_hour_type x = HourType_value (hour_type d)
     /\ x_hours x = 0%Q)
  /\ (region_valid d = false ->
      In {| ur_employee_name := employee_name t;
            ur_original_region := original_region d;
            ur_entry_date := entry_date d;
            ur_hours := hours d |}
         (rep_unknown_region_entries (get_unknown_region_report st))).
Proof.
  intros Hc Ht Hd Hu. split.
  - assert (Hue : is_unknown_entry (entry_date d) (hour_type d) d = true).
    { unfold is_unknown_entry. rewrite Hu, Z.eqb_refl. simpl.
      now apply HourType_eqb_eq. }
    destruct (first_occurrence _ _ _ Hd Hue) as (l1 & e0 & l2 & Hl & He0 & Hl1).
    exists {| x_employee_name := employee_name t;
              x_daily_entries := export_entries [] (daily_entries t) |},
           (to_entry_dict e0).
    pose proof (export_entries_first_unknown _ _ l1 e0 l2 [] eq_refl Hl1 He0) as Hrow.
    rewrite <- Hl in Hrow.
    unfold is_unknown_entry in He0.
    apply andb_true_iff in He0 as [He0 Hty]. apply andb_true_iff in He0 as [Hreg Hdt].
    apply Z.eqb_eq in Hdt. apply HourType_eqb_eq in Hty.
    split.
    { unfold to_target_json_format. simpl. apply in_map_iff. now exists t. }
    split; [reflexivity |]. split; [exact Hrow |].
    unfold to_entry_dict. simpl. rewrite Hreg. apply String.eqb_eq in Hreg.
    rewrite Hty. repeat split; assumption.
  - intros Hv.
    apply consolidate_ok in Hc
      as (site_end & st1 & st2 & ts & _ & Hs & Htr & Hb & Hts & _ & ->).
    apply add_employees_spec in Hs as (_ & Ha1 & _).
    apply add_employees_spec in Htr as (_ & Ha2 & _).
    pose proof (Ha2 (Ha1 audited_initial)) as Haud.
    apply Hts in Ht.
    destruct (build_timesheets_spec _ _ _ Hb) as [_ Hback].
    destruct (Hback t Ht) as (es & Hes & Hd').
    apply report_entries_In. apply (Haud _ es d Hes); [now apply Hd' | exact Hv].
Qed.

(** ** Serialisation round trips *)

Lemma HourType_of_string_value (h : HourType) : HourType_of_string (HourType_value h) = Ok h.
Proof. destruct h; reflexivity. Qed.

Lemma HourType_of_string_ok (s : string) (h : HourType) :
  HourType_of_string s = Ok h -> s = HourType_value h.
Proof.
  unfold HourType_of_string.
  repeat match goal with
         | |- context [String.eqb s ?k] => destruct (String.eqb_spec s k) as [-> | _]
         end; intros [= <-] || discriminate; reflexivity.
Qed.

Lemma new_DailyEntry_valid (d : DailyEntry) :
  valid_entry d ->
  new_DailyEntry (entry_date d) (region_name d) (hours d) (hour_type d) (overtime_rate d)
    (xero_tracking_id d) (xero_earnings_rate_id d) (original_region d) (region_valid d)
  = Ok d.
Proof.
  intros Hv. destruct d. unfold new_DailyEntry, bind. simpl in *.
  unfold valid_entry in Hv. now rewrite Hv.
Qed.

Lemma DailyEntry_to_from_dict (d : DailyEntry) :
  valid_entry d -> DailyEntry_from_dict (DailyEntry_to_dict d) = Ok d.
Proof.
  intros Hv. unfold DailyEntry_from_dict, DailyEntry_to_dict, bind. simpl.
  rewrite HourType_of_string_value. now apply new_DailyEntry_valid.
Qed.

(** X1: a [DailyEntry] that passes validation is given back unchanged by
    [from_dict (to_dict d)]; conversely an entry read by [from_dict] passes
    validation and [to_dict] returns the dictionary it was read from, with
    ["region_valid"] filled in by its default [True] when it was missing. *)
Theorem DailyEntry_dict_round_trip :
  (forall d, valid_entry d -> DailyEntry_from_dict (DailyEntry_to_dict d) = Ok d)
  /\ (forall data d,
        DailyEntry_from_dict data = Ok d ->
        valid_entry d
        /\ DailyEntry_to_dict d
           = {| dd_entry_date := dd_entry_date data;
                dd_region_name := dd_region_name data;
                dd_hours := dd_hours data;
                dd_hour_type := dd_hour_type data;
                dd_overtime_rate := dd_overtime_rate data;
                dd_xero_tracking_id := dd_xero_tracking_id data;
                dd_xero_earnings_rate_id := dd_xero_earnings_rate_id data;
                dd_original_region := dd_original_region data;
                dd_region_valid := Some (default true (dd_region_valid data)) |}).
Proof.
  split; [apply DailyEntry_to_from_dict |].
  intros data d H. unfold DailyEntry_from_dict, bind in H.
  destruct (HourType_of_string (dd_hour_type data)) as [h |] eqn:Eh; [| discriminate].
  apply new_DailyEntry_ok in H as [-> Hv]. split; [exact Hv |].
  unfold DailyEntry_to_dict. simpl. now rewrite (HourType_of_string_ok _ _ Eh).
Qed.

Lemma mapM_map_ok {E A B : Type} (g : A -> B) (f : B -> result E A) (l : list A) :
  (forall x, In x l -> f (g x) = Ok x) -> mapM f (map g l) = Ok l.
Proof.
  induction l as [| x l IH]; intros H; simpl; [reflexivity |].
  unfold bind. rewrite (H x (or_introl eq_refl)), IH; [reflexivity |].
  intros y Hy. apply H. now right.
Qed.

Lemma new_EmployeeTimesheet_valid (t : EmployeeTimesheet) :
  EmployeeTimesheet_validate t = Ok tt ->
  new_EmployeeTimesheet (employee_name t) (daily_entries t) (pay_period_end_date t)
    (xero_employee_id t) (payroll_calendar_id t) = Ok t.
Proof.
  intros Hv. destruct t. unfold new_EmployeeTimesheet, bind. simpl in *. now rewrite Hv.
Qed.

Lemma EmployeeTimesheet_to_from_dict (t : EmployeeTimesheet) :
  valid_timesheet t -> EmployeeTimesheet_from_dict (EmployeeTimesheet_to_dict t) = Ok t.
Proof.
  intros [Hv Hd]. unfold EmployeeTimesheet_from_dict, EmployeeTimesheet_to_dict, bind. simpl.
  rewrite (mapM_map_ok DailyEntry_to_dict DailyEntry_from_dict).
  - now apply new_EmployeeTimesheet_valid.
  - intros d Hin. now apply DailyEntry_to_from_dict, Hd.
Qed.

(** X2: payroll data whose parts all pass their validation is given back
    unchanged by [PayrollData.from_dict (to_dict p)], and so is each of its
    timesheets by [EmployeeTimesheet.from_dict (to_dict t)]. *)
Theorem PayrollData_dict_round_trip (p : PayrollData) :
  valid_payroll p ->
  PayrollData_from_dict (PayrollData_to_dict p) = Ok p
  /\ forall t, In t (employee_timesheets p) ->
       EmployeeTimesheet_from_dict (EmployeeTimesheet_to_dict t) = Ok t.
Proof.
  intros [Hv Ht]. split.
  - unfold PayrollData_from_dict, PayrollData_to_dict, bind. simpl.
    rewrite (mapM_map_ok EmployeeTimesheet_to_dict EmployeeTimesheet_from_dict).
    + destruct p. unfold new_PayrollData, bind. simpl in *. now rewrite Hv.
    + intros t Hin. now apply EmployeeTimesheet_to_from_dict, Ht.
  - intros t Hin. now apply EmployeeTimesheet_to_from_dict, Ht.
Qed.

(** ** Totals by hour type *)

Lemma Qsum_by_hour_type (l : list DailyEntry) :
  (Qsum (map hours l)
   == Qsum (map hours (List.filter (fun e => HourType_eqb (hour_type e) REGULAR) l))
      + Qsum (map hours (List.filter (fun e => HourType_eqb (hour_type e) OVERTIME) l))
      + Qsum (map hours (List.filter (fun e => HourType_eqb (hour_type e) TRAVEL) l))
      + Qsum (map hours (List.filter (fun e => HourType_eqb (hour_type e) HOLIDAY) l)))%Q.
Proof.
  induction l as [| e l IH]; simpl; [lra |].
  destruct (hour_type e); simpl; lra.
Qed.

Lemma get_total_hours_Qsum (t : EmployeeTimesheet) (h : HourType) :
  (get_total_hours t (Some h)
   == Qsum (map hours (List.filter (fun e => HourType_eqb (hour_type e) h) (daily_entries t))))%Q.
Proof. unfold get_total_hours. rewrite fold_left_Qplus. lra. Qed.

Lemma get_total_hours_all_Qsum (t : EmployeeTimesheet) :
  (get_total_hours t None == Qsum (map hours (daily_entries t)))%Q.
Proof. unfold get_total_hours. rewrite fold_left_Qplus. lra. Qed.

Lemma get_total_hours_split (t : EmployeeTimesheet) :
  (get_total_hours t None
   == get_total_hours t (Some REGULAR) + get_total_hours t (Some OVERTIME)
      + get_total_hours t (Some TRAVEL) + get_total_hours t (Some HOLIDAY))%Q.
Proof.
  rewrite get_total_hours_all_Qsum, !get_total_hours_Qsum. apply Qsum_by_hour_type.
Qed.

(** X3: the total hours of a timesheet are the sum of its totals for the
    four hour types, and the same holds for the totals of payroll data. *)
Theorem total_hours_split_by_hour_type (p : PayrollData) :
  (forall t : EmployeeTimesheet,
     get_total_hours t None
     == get_total_hours t (Some REGULAR) + get_total_hours t (Some OVERTIME)
        + get_total_hours t (Some TRAVEL) + get_total_hours t (Some HOLIDAY))%Q
  /\ (payroll_total_hours p None
      == payroll_total_hours p (Some REGULAR) + payroll_total_hours p (Some OVERTIME)
         + payroll_total_hours p (Some TRAVEL) + payroll_total_hours p (Some HOLIDAY))%Q.
Proof.
  split; [apply get_total_hours_split |].
  unfold payroll_total_hours. rewrite !fold_left_Qplus.
  induction (employee_timesheets p) as [| t l IH]; cbn [map Qsum]; [lra |].
  rewrite (get_total_hours_split t). lra.
Qed.

(** ** Consolidation: what is kept *)

Lemma dict_get_None_keys {V : Type} (k : string) (d : dict V) :
  dict_get k d = None <-> ~ In k (map fst d).
Proof.
  induction d as [| [k' v] d IH]; simpl; [tauto |].
  destruct (String.eqb_spec k' k) as [-> | Hne].
  - split; [discriminate | intros H; exfalso; apply H; now left].
  - rewrite IH. split; [intros H [Hk | Hin]; [congruence | auto] | intros H Hin; auto].
Qed.

Lemma dict_set_keys_present {V : Type} (k : string) (v : V) (d : dict V) :
  In k (map fst d) -> map fst (dict_set k v d) = map fst d.
Proof.
  induction d as [| [k' v'] d IH]; simpl; [tauto |].
  destruct (String.eqb_spec k' k) as [-> | Hne]; simpl; [reflexivity |].
  intros [Hk | Hin]; [congruence |]. now rewrite IH.
Qed.

Lemma dict_set_keys_absent {V : Type} (k : string) (v : V) (d : dict V) :
  ~ In k (map fst d) -> map fst (dict_set k v d) = map fst d ++ [k].
Proof.
  induction d as [| [k' v'] d IH]; simpl; [reflexivity |].
  intros H. destruct (String.eqb_spec k' k) as [-> | Hne]; [exfalso; apply H; now left |].
  simpl. rewrite IH; [reflexivity |]. intros Hin. apply H. now right.
Qed.

Lemma dict_set_NoDup {V : Type} (k : string) (v : V) (d : dict V) :
  List.NoDup (map fst d) -> List.NoDup (map fst (dict_set k v d)).
Proof.
  intros Hnd. destruct (in_dec string_dec k (map fst d)) as [Hin | Hout].
  - now rewrite dict_set_keys_present.
  - rewrite dict_set_keys_absent by assumption.
    eapply Permutation_NoDup; [apply Permutation_cons_append |].
    now constructor.
Qed.

Lemma record_entry_keys_NoDup (n : string) (d : DailyEntry) (st : consolidation) :
  List.NoDup (map fst (fst st)) -> List.NoDup (map fst (fst (record_entry n d st))).
Proof. destruct st as [c u]. simpl. apply dict_set_NoDup. Qed.

Lemma ensure_employee_keys_NoDup (n : string) (c : dict (list DailyEntry)) :
  List.NoDup (map fst c) -> List.NoDup (map fst (ensure_employee n c)).
Proof.
  unfold ensure_employee. destruct (dict_get n c); [auto | apply dict_set_NoDup].
Qed.

Lemma record_entry_all_kept (P : string -> DailyEntry -> Prop) (n : string) (d : DailyEntry)
    (st : consolidation) :
  P n d -> all_kept P (fst st) -> all_kept P (fst (record_entry n d st)).
Proof.
  destruct st as [c u]. unfold all_kept. simpl. intros HP Ha n0 es d0 Hin Hd0.
  apply dict_set_In in Hin as [[= -> ->] | Hin]; [| now apply (Ha n0 es)].
  apply in_app_or in Hd0 as [Hd0 | [<- | []]]; [| exact HP].
  destruct (dict_get n c) as [es |] eqn:E; simpl in Hd0; [| contradiction].
  apply (Ha n es); [now apply dict_get_In | exact Hd0].
Qed.

Lemma ensure_employee_all_kept (P : string -> DailyEntry -> Prop) (n : string)
    (c : dict (list DailyEntry)) :
  all_kept P c -> all_kept P (ensure_employee n c).
Proof.
  unfold ensure_employee, all_kept. intros Ha n0 es d Hin Hd.
  destruct (dict_get n c); [now apply (Ha n0 es) |].
  apply dict_set_In in Hin as [[= -> ->] | Hin]; [contradiction | now apply (Ha n0 es)].
Qed.

Lemma kept_count_record (n : string) (d : DailyEntry) (c : dict (list DailyEntry)) :
  kept_count (dict_set n (default [] (dict_get n c) ++ [d]) c) = S (kept_count c).
Proof.
  unfold kept_count. induction c as [| [k es] c IH]; simpl; [reflexivity |].
  destruct (String.eqb_spec k n) as [-> | Hne]; simpl.
  - rewrite length_app. simpl. lia.
  - rewrite IH. lia.
Qed.

Lemma kept_count_ensure (n : string) (c : dict (list DailyEntry)) :
  kept_count (ensure_employee n c) = kept_count c.
Proof.
  unfold ensure_employee. destruct (dict_get n c) eqn:E; [reflexivity |].
  unfold kept_count. induction c as [| [k es] c IH]; simpl in *; [reflexivity |].
  destruct (String.eqb_spec k n) as [-> | Hne]; [discriminate |].
  simpl. rewrite (IH E). reflexivity.
Qed.

Lemma dict_set_keys_grow {V : Type} (k k0 : string) (v : V) (d : dict V) :
  In k0 (map fst d) \/ k0 = k -> In k0 (map fst (dict_set k v d)).
Proof.
  destruct (in_dec string_dec k (map fst d)) as [Hin | Hout].
  - rewrite dict_set_keys_present by assumption. intros [H | ->]; assumption.
  - rewrite dict_set_keys_absent by assumption. intros [H | ->]; apply in_or_app;
      [now left | right; now left].
Qed.

Lemma ensure_employee_keys_grow (n k0 : string) (c : dict (list DailyEntry)) :
  In k0 (map fst c) \/ k0 = n -> In k0 (map fst (ensure_employee n c)).
Proof.
  unfold ensure_employee. destruct (dict_get n c) eqn:E.
  - intros [H | ->]; [exact H |].
    destruct (in_dec string_dec n (map fst c)) as [Hin | Hout]; [exact Hin |].
    apply dict_get_None_keys in Hout. congruence.
  - apply dict_set_keys_grow.
Qed.

(** The loops of [consolidate] keep the keys of the dictionary distinct
    and never drop one, add one kept entry per source entry, and keep what
    holds of every created entry. *)
Lemma add_entries_kept (P : string -> DailyEntry -> Prop)
    (create : raw_entry -> result error DailyEntry) (n : string)
    (entries : list raw_entry) (st st' : consolidation) :
  add_entries create n entries st = Ok st' ->
  (List.NoDup (map fst (fst st)) -> List.NoDup (map fst (fst st')))
  /\ (forall k, In k (map fst (fst st)) -> In k (map fst (fst st')))
  /\ kept_count (fst st') = (kept_count (fst st) + length entries)%nat
  /\ ((forall e d, In e entries -> create e = Ok d -> P n d) ->
      all_kept P (fst st) -> all_kept P (fst st')).
Proof.
  revert st. induction entries as [| e entries IH]; intros st H; simpl in H.
  - injection H as <-. split; [auto |]. split; [auto |]. split; [simpl; lia | auto].
  - unfold bind in H. destruct (create e) as [d |] eqn:Ec; [| discriminate].
    destruct (IH _ H) as (Hnd & Hgrow & Hcount & Hall). split; [| split; [| split]].
    + intros Hn. now apply Hnd, record_entry_keys_NoDup.
    + intros k Hk. apply Hgrow. destruct st as [c u]. simpl in *.
      apply dict_set_keys_grow. now left.
    + rewrite Hcount. destruct st as [c u]. simpl. rewrite kept_count_record. lia.
    + intros Hc Ha. apply Hall.
      * intros e0 d0 Hin. apply Hc. now right.
      * apply record_entry_all_kept; [| exact Ha]. apply (Hc e); [now left | exact Ec].
Qed.

Lemma add_employees_kept (P : string -> DailyEntry -> Prop)
    (create : string -> raw_entry -> result error DailyEntry)
    (site_data travel_data : parsed_data) (emps : list employee_data)
    (st st' : consolidation) :
  add_employees create (build_employee_name_mapping site_data travel_data) emps st = Ok st' ->
  (List.NoDup (map fst (fst st)) -> List.NoDup (map fst (fst st')))
  /\ (forall k, In k (map fst (fst st)) -> In k (map fst (fst st')))
  /\ kept_count (fst st')
     = (kept_count (fst st) + list_sum (map (fun emp => length (ed_entries emp)) emps))%nat
  /\ ((forall emp e d, In emp emps -> In e (ed_entries emp) ->
         create (ed_employee_name emp) e = Ok d -> P (ed_employee_name emp) d) ->
      all_kept P (fst st) -> all_kept P (fst st'))
  /\ (forall emp, In emp emps -> In (ed_employee_name emp) (map fst (fst st'))).
Proof.
  revert st. induction emps as [| emp emps IH]; intros st H; simpl in H.
  - injection H as <-. split; [auto |]. split; [auto |]. split; [simpl; lia |].
    split; [auto | intros ? []].
  - rewrite get_canonical_employee_name_id in H. unfold bind in H.
    destruct (add_entries _ _ _ _) as [st2 |] eqn:Ea; [| discriminate].
    apply (add_entries_kept P) in Ea as (Hnd1 & Hg1 & Hc1 & Hall1). simpl in *.
    destruct (IH _ H) as (Hnd2 & Hg2 & Hc2 & Hall2 & Hkeys2).
    split; [| split; [| split; [| split]]].
    + intros Hn. now apply Hnd2, Hnd1, ensure_employee_keys_NoDup.
    + intros k Hk. apply Hg2, Hg1, ensure_employee_keys_grow. now left.
    + rewrite Hc2, Hc1, kept_count_ensure. simpl. lia.
    + intros Hc Ha. apply Hall2.
      * intros emp0 e d Hin. apply Hc. now right.
      * apply Hall1.
        -- intros e d Hin. apply Hc; [now left | exact Hin].
        -- now apply ensure_employee_all_kept.
    + intros emp0 [<- | Hin]; [| now apply Hkeys2].
      apply Hg2, Hg1, ensure_employee_keys_grow. now right.
Qed.

(** ** Order of strings *)

Lemma String_ltb_asym (a b : string) : String.ltb a b = true -> String.ltb b a = false.
Proof.
  unfold String.ltb. rewrite (String.compare_antisym b a).
  now destruct (String.compare a b).
Qed.

Lemma String_ltb_total (a b : string) :
  String.ltb b a = false -> a <> b -> String.ltb a b = true.
Proof.
  unfold String.ltb. rewrite (String.compare_antisym b a).
  destruct (String.compare a b) eqn:E; simpl; try discriminate; try reflexivity.
  intros _ H. apply String.compare_eq_iff in E. congruence.
Qed.

Lemma String_ltb_trans (a b c : string) :
  String.ltb a b = true -> String.ltb b c = true -> String.ltb a c = true.
Proof.
  unfold String.ltb. intros H1 H2.
  destruct (String.compare a b) eqn:E1; try discriminate.
  destruct (String.compare b c) eqn:E2; try discriminate.
  apply String_as_OT.cmp_lt in E1, E2.
  pose proof (String_as_OT.lt_trans _ _ _ E1 E2) as H.
  apply String_as_OT.cmp_lt in H. unfold String_as_OT.cmp in H. now rewrite H.
Qed.

Lemma String_ltb_negtrans (a b c : string) :
  String.ltb a b = false -> String.ltb b c = false -> String.ltb a c = false.
Proof.
  intros H1 H2. destruct (String.ltb a c) eqn:E; [| reflexivity].
  destruct (string_dec b a) as [-> | Hne]; [congruence |].
  pose proof (String_ltb_total b a H1 Hne) as H.
  rewrite (String_ltb_trans b a c H E) in H2. discriminate.
Qed.

Lemma StronglySorted_distinct {A B : Type} (R : A -> A -> Prop) (f : A -> B) (l : list A) :
  StronglySorted R l -> List.NoDup (map f l) ->
  StronglySorted (fun a b => R a b /\ f a <> f b) l.
Proof.
  induction 1 as [| x l Hs IH Hx]; intros Hnd; [constructor |].
  inversion Hnd as [| ? ? Hn Hd]; subst.
  constructor; [now apply IH |].
  rewrite List.Forall_forall in *. intros y Hy. split; [now apply Hx |].
  intros Heq. apply Hn. rewrite Heq. now apply in_map.
Qed.

(** ** Consolidation: the shape of the result *)

Lemma new_DailyEntry_valid_entry dt rn h ht rate tid eid orig valid d :
  new_DailyEntry dt rn h ht rate tid eid orig valid = Ok d -> valid_entry d.
Proof. intros H. now apply new_DailyEntry_ok in H as [_ H]. Qed.

Lemma create_site_image entry overtime_data name valid_regions d :
  create_daily_entry_from_site_data entry overtime_data name valid_regions = Ok d ->
  site_image overtime_data valid_regions name entry d /\ valid_entry d.
Proof.
  unfold create_daily_entry_from_site_data, bind, site_image.
  destruct (HourType_of_string (r_hour_type entry)) as [ht |]; [| discriminate].
  destruct (region_unknown valid_regions (r_region_name entry));
    intros H; pose proof (new_DailyEntry_valid_entry _ _ _ _ _ _ _ _ _ _ H) as Hv;
    apply new_DailyEntry_ok in H as [-> _]; simpl; repeat split; exact Hv.
Qed.

Lemma create_travel_image entry pay_period_end valid_regions d :
  create_daily_entry_from_travel_data entry pay_period_end valid_regions = Ok d ->
  travel_image pay_period_end valid_regions entry d /\ valid_entry d.
Proof.
  unfold create_daily_entry_from_travel_data, travel_image.
  destruct (region_unknown valid_regions (r_region_name entry));
    intros H; pose proof (new_DailyEntry_valid_entry _ _ _ _ _ _ _ _ _ _ H) as Hv;
    apply new_DailyEntry_ok in H as [-> _]; simpl; repeat split; exact Hv.
Qed.

Lemma new_EmployeeTimesheet_validates nm entries pend xid cal t :
  new_EmployeeTimesheet nm entries pend xid cal = Ok t ->
  EmployeeTimesheet_validate t = Ok tt.
Proof.
  unfold new_EmployeeTimesheet, bind.
  match goal with |- context [EmployeeTimesheet_validate ?x] =>
    destruct (EmployeeTimesheet_validate x) as [[] |] eqn:V end; [| discriminate].
  now intros [= <-].
Qed.

Lemma entries_by_date_sorted (l : list DailyEntry) :
  StronglySorted (fun a b => (entry_date a <= entry_date b)%Z)
    (stable_sort (fun y x => (entry_date y <? entry_date x)%Z) l).
Proof.
  eapply StronglySorted_weaken;
    [| apply (stable_sort_sorted (fun y x : DailyEntry => (entry_date y <? entry_date x)%Z))].
  - intros a b H. unfold in_order in H. now apply Z.ltb_ge in H.
  - intros a b H. apply Z.ltb_lt in H. apply Z.ltb_ge. lia.
  - intros a b c H1 H2. apply Z.ltb_ge in H1, H2. apply Z.ltb_ge. lia.
Qed.

Lemma timesheets_by_name_sorted (l : list EmployeeTimesheet) :
  List.NoDup (map employee_name l) ->
  StronglySorted (fun a b => String.ltb (employee_name a) (employee_name b) = true)
    (stable_sort (fun y x => String.ltb (employee_name y) (employee_name x)) l).
Proof.
  intros Hnd.
  set (precedes := fun y x : EmployeeTimesheet =>
                     String.ltb (employee_name y) (employee_name x)).
  assert (Hs : StronglySorted (in_order precedes) (stable_sort precedes l)).
  { apply stable_sort_sorted.
    - intros a b. apply String_ltb_asym.
    - intros a b c. apply String_ltb_negtrans. }
  apply (StronglySorted_distinct _ employee_name) in Hs.
  - eapply StronglySorted_weaken; [| exact Hs].
    intros a b [H Hne]. unfold in_order, precedes in H. now apply String_ltb_total.
  - eapply Permutation_NoDup; [| exact Hnd].
    apply Permutation_map, Permutation_sym, stable_sort_perm.
Qed.

Lemma build_timesheets_shape (pay_period_end : date) (c : dict (list DailyEntry))
    (ts : list EmployeeTimesheet) :
  build_timesheets pay_period_end c = Ok ts ->
  map employee_name ts = map fst c
  /\ list_sum (map (fun t => length (daily_entries t)) ts) = kept_count c
  /\ forall t, In t ts ->
       EmployeeTimesheet_validate t = Ok tt
       /\ pay_period_end_date t = pay_period_end
       /\ xero_employee_id t = None /\ payroll_calendar_id t = None
       /\ StronglySorted (fun a b => (entry_date a <= entry_date b)%Z) (daily_entries t).
Proof.
  intros H. apply mapM_Forall2 in H. unfold kept_count.
  induction H as [| [n es] t c ts Hnew _ IH].
  - split; [reflexivity |]. split; [reflexivity | intros t []].
  - destruct IH as (Hnames & Hcount & Hall).
    pose proof (new_EmployeeTimesheet_validates _ _ _ _ _ _ Hnew) as Hv.
    apply new_EmployeeTimesheet_ok in Hnew as (Ht & _).
    split; [| split].
    + simpl. rewrite Hnames, Ht. reflexivity.
    + simpl. rewrite Hcount, Ht. simpl.
      now rewrite (Permutation_length (stable_sort_perm _ es)).
    + intros t0 [<- | Hin]; [| now apply Hall].
      split; [exact Hv |]. rewrite Ht. simpl.
      repeat split. apply entries_by_date_sorted.
Qed.

(** The steps of a successful run of [consolidate], with the checks it
    passed. *)
Lemma consolidate_inv site_data travel_data overtime_data valid_regions payroll st :
  consolidate site_data travel_data overtime_data valid_regions = Ok (payroll, st) ->
  exists site_end st1 st2 ts,
    pd_end_date site_data = Some site_end
    /\ validate_input_data site_data travel_data overtime_data = Ok tt
    /\ validate_date_ranges site_data travel_data = Ok tt
    /\ add_employees
         (fun name entry =>
            create_daily_entry_from_site_data entry overtime_data name valid_regions)
         (build_employee_name_mapping site_data travel_data)
         (get_employees site_data) ([], empty_unknown_state) = Ok st1
    /\ add_employees
         (fun _ entry =>
            create_daily_entry_from_travel_data entry
              (effective_pay_period_end site_data site_end) valid_regions)
         (build_employee_name_mapping site_data travel_data)
         (get_employees travel_data) st1 = Ok st2
    /\ build_timesheets (effective_pay_period_end site_data site_end) (fst st2) = Ok ts
    /\ employee_timesheets payroll
       = stable_sort (fun y x => String.ltb (employee_name y) (employee_name x)) ts
    /\ pd_pay_period_end_date payroll = effective_pay_period_end site_data site_end
    /\ PayrollData_validate payroll = Ok tt
    /\ st = snd st2.
Proof.
  unfold consolidate, bind.
  destruct (validate_input_data _ _ _) as [[] |] eqn:E0; [| discriminate].
  destruct (pd_end_date site_data) as [site_end |]; [| discriminate].
  destruct (validate_date_ranges _ _) as [[] |] eqn:E00; [| discriminate].
  destruct (add_employees _ _ (get_employees site_data) _) as [st1 |] eqn:E1;
    [| discriminate].
  destruct (add_employees _ _ (get_employees travel_data) _) as [st2 |] eqn:E2;
    [| discriminate].
  destruct (build_timesheets _ _) as [ts |] eqn:E3; [| discriminate].
  destruct (stable_sort _ ts) as [| t0 ts0] eqn:Es; [discriminate |].
  unfold new_PayrollData, bind.
  match goal with |- context [PayrollData_validate ?x] =>
    destruct (PayrollData_validate x) as [[] |] eqn:V end; [| discriminate].
  intros [= <- <-]. exists site_end, st1, st2, ts.
  do 6 (split; [first [reflexivity | eassumption] |]).
  cbn [employee_timesheets pd_pay_period_end_date].
  split; [now rewrite <- Es |]. split; [reflexivity |]. split; [exact V | reflexivity].
Qed.

(** What every successful run of [consolidate] returns. *)
Lemma consolidate_shape site_data travel_data overtime_data valid_regions payroll st :
  consolidate site_data travel_data overtime_data valid_regions = Ok (payroll, st) ->
  valid_payroll payroll
  /\ StronglySorted (fun a b => String.ltb (employee_name a) (employee_name b) = true)
       (employee_timesheets payroll)
  /\ payroll_entry_count payroll
     = (source_entry_count site_data + source_entry_count travel_data)%nat
  /\ (forall emp, In emp (get_employees site_data ++ get_employees travel_data) ->
        In (ed_employee_name emp) (map employee_name (employee_timesheets payroll)))
  /\ forall t, In t (employee_timesheets payroll) ->
       pay_period_end_date t = pd_pay_period_end_date payroll
       /\ xero_employee_id t = None /\ payroll_calendar_id t = None
       /\ StronglySorted (fun a b => (entry_date a <= entry_date b)%Z) (daily_entries t)
       /\ forall d, In d (daily_entries t) ->
            (exists emp e, In emp (get_employees site_data)
               /\ ed_employee_name emp = employee_name t /\ In e (ed_entries emp)
               /\ site_image overtime_data valid_regions (employee_name t) e d)
            \/ (exists emp e, In emp (get_employees travel_data)
                  /\ ed_employee_name emp = employee_name t /\ In e (ed_entries emp)
                  /\ travel_image (pd_pay_period_end_date payroll) valid_regions e d).
Proof.
  intros Hc.
  apply consolidate_inv in Hc
    as (site_end & st1 & st2 & ts & Hend & _ & _ & Hs & Ht & Hb & Hts & Hpe & Hvp & ->).
  set (P := fun (n : string) (d : DailyEntry) =>
              valid_entry d
              /\ ((exists emp e, In emp (get_employees site_data)
                     /\ ed_employee_name emp = n /\ In e (ed_entries emp)
                     /\ site_image overtime_data valid_regions n e d)
                  \/ (exists emp e, In emp (get_employees travel_data)
                        /\ ed_employee_name emp = n /\ In e (ed_entries emp)
                        /\ travel_image (effective_pay_period_end site_data site_end)
                             valid_regions e d))).
  apply (add_employees_kept P) in Hs as (Hnd1 & Hg1 & Hc1 & Hall1 & Hk1).
  apply (add_employees_kept P) in Ht as (Hnd2 & Hg2 & Hc2 & Hall2 & Hk2).
  assert (HP : all_kept P (fst st2)).
  { apply Hall2.
    - intros emp e d Hemp He Hcr. apply create_travel_image in Hcr as [Him Hv].
      split; [exact Hv |]. right. now exists emp, e.
    - apply Hall1.
      + intros emp e d Hemp He Hcr. apply create_site_image in Hcr as [Him Hv].
        split; [exact Hv |]. left. now exists emp, e.
      + intros n es d []. }
  destruct (build_timesheets_shape _ _ _ Hb) as (Hnames & Hcount & Hshape).
  destruct (build_timesheets_spec _ _ _ Hb) as [_ Hback].
  assert (Hperm : Permutation (employee_timesheets payroll) ts).
  { rewrite Hts. apply stable_sort_perm. }
  assert (Hin_ts : forall t, In t (employee_timesheets payroll) -> In t ts).
  { intros t. apply Permutation_in, Hperm. }
  assert (Hnd : List.NoDup (map employee_name ts)).
  { rewrite Hnames. apply Hnd2, Hnd1. constructor. }
  split; [| split; [| split; [| split]]].
  - split; [exact Hvp |]. intros t Hin. apply Hin_ts in Hin.
    destruct (Hshape t Hin) as (Hv & _). split; [exact Hv |].
    intros d Hd. destruct (Hback t Hin) as (es & Hes & Hiff).
    apply Hiff in Hd. now destruct (HP _ _ _ Hes Hd).
  - rewrite Hts. now apply timesheets_by_name_sorted.
  - unfold payroll_entry_count, source_entry_count.
    rewrite (Permutation_list_sum
               (Permutation_map (fun t => length (daily_entries t)) Hperm)).
    rewrite Hcount, Hc2, Hc1. reflexivity.
  - intros emp Hemp.
    apply (Permutation_in _ (Permutation_map employee_name (Permutation_sym Hperm))).
    rewrite Hnames. apply in_app_or in Hemp as [Hemp | Hemp]; [apply Hg2 |]; auto.
  - intros t Hin. apply Hin_ts in Hin.
    destruct (Hshape t Hin) as (_ & Hpend & Hx & Hcal & Hsorted).
    rewrite Hpe. split; [exact Hpend |]. do 3 (split; [assumption |]).
    intros d Hd. destruct (Hback t Hin) as (es & Hes & Hiff).
    apply Hiff in Hd. now destruct (HP _ _ _ Hes Hd) as [_ H].
Qed.

Lemma consolidate_complete site_data travel_data overtime_data valid_regions payroll st :
  consolidate site_data travel_data overtime_data valid_regions = Ok (payroll, st) ->
  (forall emp e, In emp (get_employees site_data) -> In e (ed_entries emp) ->
     exists t d, In t (employee_timesheets payroll)
                 /\ employee_name t = ed_employee_name emp
                 /\ In d (daily_entries t)
                 /\ site_image overtime_data valid_regions (ed_employee_name emp) e d)
  /\ (forall emp e, In emp (get_employees travel_data) -> In e (ed_entries emp) ->
        exists t d, In t (employee_timesheets payroll)
                    /\ employee_name t = ed_employee_name emp
                    /\ In d (daily_entries t)
                    /\ travel_image (pd_pay_period_end_date payroll) valid_regions e d).
Proof.
  intros Hc.
  apply consolidate_ok in Hc as (site_end & st1 & st2 & ts & _ & Hs & Ht & Hb & Hts & Hend & ->).
  apply add_employees_spec in Hs as (_ & _ & Hsite).
  apply add_employees_spec in Ht as (Hext & _ & Htravel).
  split.
  - intros emp e Hemp He. destruct (Hsite emp e Hemp He) as (d & Hd & Hrec).
    apply (recorded_extends _ _ _ _ Hrec) in Hext.
    destruct (recorded_in_timesheet _ _ _ _ _ Hext Hb) as (t & Hin & Hn & Hdin).
    exists t, d. rewrite Hts. repeat split; try assumption.
    all: now apply create_site_image in Hd as [Hi _]; apply Hi.
  - intros emp e Hemp He. destruct (Htravel emp e Hemp He) as (d & Hd & Hrec).
    destruct (recorded_in_timesheet _ _ _ _ _ Hrec Hb) as (t & Hin & Hn & Hdin).
    exists t, d. rewrite Hts, Hend. repeat split; try assumption.
    all: now apply create_travel_image in Hd as [Hi _]; apply Hi.
Qed.

(** X4: after a successful [consolidate] the timesheets are in strictly
    ascending order of employee name, so there is one per name; every
    employee named in the site or the travel data has one; each timesheet
    carries the pay-period end date of the payroll data, no external
    identifiers, and its entries in ascending order of date. *)
Theorem consolidate_one_sorted_timesheet_per_employee site_data travel_data overtime_data
    valid_regions payroll st :
  consolidate site_data travel_data overtime_data valid_regions = Ok (payroll, st) ->
  StronglySorted (fun a b => String.ltb (employee_name a) (employee_name b) = true)
    (employee_timesheets payroll)
  /\ (forall emp, In emp (get_employees site_data ++ get_employees travel_data) ->
        exists t, In t (employee_timesheets payroll)
                  /\ employee_name t = ed_employee_name emp)
  /\ (forall t, In t (employee_timesheets payroll) ->
        pay_period_end_date t = pd_pay_period_end_date payroll
        /\ xero_employee_id t = None /\ payroll_calendar_id t = None
        /\ StronglySorted (fun a b => (entry_date a <= entry_date b)%Z) (daily_entries t)).
Proof.
  intros Hc. destruct (consolidate_shape _ _ _ _ _ _ Hc) as (_ & Hs & _ & Hn & Ht).
  split; [exact Hs |]. split.
  - intros emp Hemp. apply Hn in Hemp. apply in_map_iff in Hemp as (t & Hname & Hin).
    now exists t.
  - intros t Hin. destruct (Ht t Hin) as (H1 & H2 & H3 & H4 & _). auto.
Qed.

(** X5: a successful [consolidate] keeps as many entries as the site and
    travel data hold together, and every kept entry is made from a source
    entry of the same employee: a site entry keeps its date, hours and
    hour type, and a travel entry becomes a TRAVEL entry. *)
Theorem consolidate_keeps_each_entry_once site_data travel_data overtime_data
    valid_regions payroll st :
  consolidate site_data travel_data overtime_data valid_regions = Ok (payroll, st) ->
  payroll_entry_count payroll
  = (source_entry_count site_data + source_entry_count travel_data)%nat
  /\ forall t d, In t (employee_timesheets payroll) -> In d (daily_entries t) ->
       (exists emp e, In emp (get_employees site_data)
          /\ ed_employee_name emp = employee_name t /\ In e (ed_entries emp)
          /\ site_image overtime_data valid_regions (employee_name t) e d)
       \/ (exists emp e, In emp (get_employees travel_data)
             /\ ed_employee_name emp = employee_name t /\ In e (ed_entries emp)
             /\ travel_image (pd_pay_period_end_date payroll) valid_regions e d).
Proof.
  intros Hc. destruct (consolidate_shape _ _ _ _ _ _ Hc) as (_ & _ & Hcount & _ & Ht).
  split; [exact Hcount |]. intros t d Hin Hd.
  destruct (Ht t Hin) as (_ & _ & _ & _ & H). now apply H.
Qed.

(** X6: after a successful [consolidate] every site entry is found in the
    timesheet of its employee with its date and hours, its hour type
    parsed, the custom overtime rate of the register when it is an
    OVERTIME entry and no rate otherwise, and its own region name with
    [region_valid] true unless the region is outside the valid set; every
    travel entry is found as a TRAVEL entry without rate, dated at the
    pay-period end when it carries the placeholder year 1900. *)
Theorem consolidate_entry_images site_data travel_data overtime_data valid_regions
    payroll st :
  consolidate site_data travel_data overtime_data valid_regions = Ok (payroll, st) ->
  (forall emp e, In emp (get_employees site_data) -> In e (ed_entries emp) ->
     exists t d, In t (employee_timesheets payroll)
                 /\ employee_name t = ed_employee_name emp
                 /\ In d (daily_entries t)
                 /\ site_image overtime_data valid_regions (ed_employee_name emp) e d)
  /\ (forall emp e, In emp (get_employees travel_data) -> In e (ed_entries emp) ->
        exists t d, In t (employee_timesheets payroll)
                    /\ employee_name t = ed_employee_name emp
                    /\ In d (daily_entries t)
                    /\ travel_image (pd_pay_period_end_date payroll) valid_regions e d).
Proof. apply consolidate_complete. Qed.

(** X7: the payroll data returned by [consolidate] passes every
    constructor check again and is given back unchanged by
    [PayrollData.from_dict (to_dict payroll)]. *)
Theorem consolidate_result_round_trips site_data travel_data overtime_data valid_regions
    payroll st :
  consolidate site_data travel_data overtime_data valid_regions = Ok (payroll, st) ->
  valid_payroll payroll
  /\ PayrollData_from_dict (PayrollData_to_dict payroll) = Ok payroll.
Proof.
  intros Hc. destruct (consolidate_shape _ _ _ _ _ _ Hc) as (Hv & _).
  split; [exact Hv |].
  unfold PayrollData_from_dict, PayrollData_to_dict, bind. simpl.
  destruct Hv as [Hv Ht].
  rewrite (mapM_map_ok EmployeeTimesheet_to_dict EmployeeTimesheet_from_dict).
  - destruct payroll. unfold new_PayrollData, bind. simpl in *. now rewrite Hv.
  - intros t Hin. now apply EmployeeTimesheet_to_from_dict, Ht.
Qed.

Lemma extreme_dates_unique (d : date) (ds : list date) (lo hi : date) :
  In lo (d :: ds) -> In hi (d :: ds) ->
  (forall x, In x (d :: ds) -> (lo <= x)%Z /\ (x <= hi)%Z) ->
  min_date d ds = lo /\ max_date d ds = hi.
Proof.
  intros Hlo Hhi Hall.
  destruct (min_date_spec d ds) as [Hmin_in Hmin].
  destruct (max_date_spec d ds) as [Hmax_in Hmax].
  pose proof (Hmin lo Hlo). pose proof (Hmax hi Hhi).
  destruct (Hall _ Hmin_in). destruct (Hall _ Hmax_in). lia.
Qed.

(** X8: after a successful [consolidate] the pay-period end date of the
    result is the one of the site data when the site entry dates span at
    most 30 days (or there is no site entry), and the latest site entry
    date when they span more; no kept entry is dated after it. *)
Theorem consolidate_pay_period_end site_data travel_data overtime_data valid_regions
    payroll st :
  consolidate site_data travel_data overtime_data valid_regions = Ok (payroll, st) ->
  exists site_end,
    pd_end_date site_data = Some site_end
    /\ (all_entry_dates site_data = [] -> pd_pay_period_end_date payroll = site_end)
    /\ (forall earliest latest,
          In earliest (all_entry_dates site_data) -> In latest (all_entry_dates site_data) ->
          (forall x, In x (all_entry_dates site_data) ->
             (earliest <= x)%Z /\ (x <= latest)%Z) ->
          ((latest - earliest <= 30)%Z -> pd_pay_period_end_date payroll = site_end)
          /\ ((30 < latest - earliest)%Z -> pd_pay_period_end_date payroll = latest))
    /\ (forall t d, In t (employee_timesheets payroll) -> In d (daily_entries t) ->
          (entry_date d <= pd_pay_period_end_date payroll)%Z).
Proof.
  intros Hc. pose proof (consolidate_shape _ _ _ _ _ _ Hc) as ([_ Hv] & _ & _ & _ & Ht).
  apply consolidate_inv in Hc
    as (site_end & st1 & st2 & ts & Hend & ? & ? & ? & ? & ? & ? & Hpe & ? & ?).
  exists site_end. split; [exact Hend |]. rewrite Hpe.
  unfold effective_pay_period_end. split; [| split].
  - intros ->. reflexivity.
  - intros lo hi Hlo Hhi Hall.
    destruct (all_entry_dates site_data) as [| d ds]; [contradiction |].
    destruct (extreme_dates_unique d ds lo hi Hlo Hhi Hall) as [-> ->].
    destruct (Z.ltb_spec 30 (hi - lo)); split; intros; (reflexivity || lia).
  - intros t d Hin Hd. destruct (Hv t Hin) as [Hval _].
    destruct (Ht t Hin) as (Hp & _). rewrite Hpe in Hp.
    unfold EmployeeTimesheet_validate in Hval.
    destruct (blank (employee_name t)); simpl in Hval; [discriminate |].
    destruct (daily_entries t) as [| e0 es] eqn:E; [discriminate |].
    pose proof (proj1 (check_entries_within_ok _ _) Hval) as Hle.
    rewrite Hp in Hle. now apply Hle.
Qed.

Lemma validate_input_data_ok site_data travel_data overtime_data :
  validate_input_data site_data travel_data overtime_data = Ok tt ->
  file_type site_data = "site_timesheet" /\ file_type travel_data = "travel_time"
  /\ od_file_type overtime_data = "overtime_rates"
  /\ employees site_data <> None /\ pd_end_date site_data <> None
  /\ employees travel_data <> None /\ overtime_rates_lookup overtime_data <> None.
Proof.
  unfold validate_input_data.
  destruct (String.eqb_spec (file_type site_data) "site_timesheet"); [| discriminate].
  destruct (employees site_data); [| discriminate].
  destruct (pd_end_date site_data); [| discriminate].
  destruct (String.eqb_spec (file_type travel_data) "travel_time"); [| discriminate].
  destruct (employees travel_data); [| discriminate].
  destruct (String.eqb_spec (od_file_type overtime_data) "overtime_rates"); [| discriminate].
  destruct (overtime_rates_lookup overtime_data); [| discriminate].
  intros _. repeat split; (assumption || discriminate).
Qed.

Lemma validate_date_ranges_ok site_data travel_data :
  validate_date_ranges site_data travel_data = Ok tt ->
  forall d1 d2,
    In d1 (all_entry_dates site_data
             ++ List.filter (fun d => negb (year_is_1900 d)) (all_entry_dates travel_data)) ->
    In d2 (all_entry_dates site_data
             ++ List.filter (fun d => negb (year_is_1900 d)) (all_entry_dates travel_data)) ->
    (d2 - d1 <= 365)%Z.
Proof.
  unfold validate_date_ranges.
  destruct (all_entry_dates site_data
              ++ List.filter (fun d => negb (year_is_1900 d)) (all_entry_dates travel_data))
    as [| d ds]; [intros _ ? ? [] |].
  cbv zeta. intros H d1 d2 H1 H2.
  destruct (min_date_spec d ds) as [_ Hmin]. destruct (max_date_spec d ds) as [_ Hmax].
  pose proof (Hmin d1 H1). pose proof (Hmax d2 H2).
  destruct (Z.ltb_spec 30 (max_date d ds - min_date d ds)); [| lia].
  destruct (Z.ltb_spec 365 (max_date d ds - min_date d ds)); [discriminate | lia].
Qed.

(** X9: [consolidate] succeeds only on input that has the three file
    types and the required keys, whose site entries carry a known hour
    type, whose entries carry between 0 and 24 hours and are dated no
    later than the pay-period end of the result (travel entries dated in
    1900 apart), whose employee names are not blank, and whose dates, the
    travel placeholders apart, span at most 365 days; on any other input
    it raises. *)
Theorem consolidate_success_requirements site_data travel_data overtime_data valid_regions
    payroll st :
  consolidate site_data travel_data overtime_data valid_regions = Ok (payroll, st) ->
  (file_type site_data = "site_timesheet" /\ file_type travel_data = "travel_time"
   /\ od_file_type overtime_data = "overtime_rates"
   /\ employees site_data <> None /\ pd_end_date site_data <> None
   /\ employees travel_data <> None /\ overtime_rates_lookup overtime_data <> None)
  /\ (forall emp e, In emp (get_employees site_data) -> In e (ed_entries emp) ->
        blank (ed_employee_name emp) = false
        /\ (0 <= r_hours e)%Q /\ (r_hours e <= 24)%Q
        /\ (exists h, HourType_of_string (r_hour_type e) = Ok h)
        /\ (r_entry_date e <= pd_pay_period_end_date payroll)%Z)
  /\ (forall emp e, In emp (get_employees travel_data) -> In e (ed_entries emp) ->
        blank (ed_employee_name emp) = false
        /\ (0 <= r_hours e)%Q /\ (r_hours e <= 24)%Q
        /\ (year_is_1900 (r_entry_date e) = false ->
            (r_entry_date e <= pd_pay_period_end_date payroll)%Z))
  /\ (forall d1 d2,
        In d1 (all_entry_dates site_data
                 ++ List.filter (fun d => negb (year_is_1900 d)) (all_entry_dates travel_data)) ->
        In d2 (all_entry_dates site_data
                 ++ List.filter (fun d => negb (year_is_1900 d)) (all_entry_dates travel_data)) ->
        (d2 - d1 <= 365)%Z).
Proof.
  intros Hc.
  pose proof (consolidate_shape _ _ _ _ _ _ Hc) as ([_ Hv] & _ & _ & _ & Ht).
  pose proof (consolidate_complete _ _ _ _ _ _ Hc) as [Hsite Htravel].
  apply consolidate_inv in Hc
    as (site_end & st1 & st2 & ts & _ & Hin & Hdr & _).
  assert (Hentry : forall t d, In t (employee_timesheets payroll) -> In d (daily_entries t) ->
            blank (employee_name t) = false
            /\ (0 <= hours d)%Q /\ (hours d <= 24)%Q
            /\ (entry_date d <= pd_pay_period_end_date payroll)%Z).
  { intros t d Hti Hd. destruct (Hv t Hti) as [Hval Hds].
    destruct (proj1 (DailyEntry_validate_ok d) (Hds d Hd)) as (H0 & H24 & _).
    destruct (Ht t Hti) as (Hp & _).
    unfold EmployeeTimesheet_validate in Hval.
    destruct (blank (employee_name t)); simpl in Hval; [discriminate |].
    destruct (daily_entries t) as [| e0 es] eqn:E; [discriminate |].
    pose proof (proj1 (check_entries_within_ok _ _) Hval d Hd) as Hle.
    rewrite Hp in Hle. auto. }
  split; [now apply validate_input_data_ok |]. split; [| split].
  - intros emp e Hemp He.
    destruct (Hsite emp e Hemp He) as (t & d & Hti & Hn & Hd & Hi).
    destruct (Hentry t d Hti Hd) as (Hb & H0 & H24 & Hle).
    destruct Hi as (Hdate & Hh & Hty & _).
    rewrite <- Hn, <- Hh, <- Hdate. repeat split; try assumption. now exists (hour_type d).
  - intros emp e Hemp He.
    destruct (Htravel emp e Hemp He) as (t & d & Hti & Hn & Hd & Hi).
    destruct (Hentry t d Hti Hd) as (Hb & H0 & H24 & Hle).
    destruct Hi as (Hdate & Hh & _).
    rewrite <- Hn, <- Hh. repeat split; try assumption.
    intros Hy. rewrite Hy in Hdate. now rewrite <- Hdate.
  - now apply validate_date_ranges_ok.
Qed.

(** ** Consolidation: the unknown-region report *)

Lemma record_entry_reported (P : string * option string * date * Q -> Prop)
    (n : string) (d : DailyEntry) (st : consolidation) :
  (region_valid d = false -> P (n, original_region d, entry_date d, hours d)) ->
  report_inv P (snd st) ->
  report_inv P (snd (record_entry n d st))
  /\ length (unknown_region_entries (snd (record_entry n d st)))
     = (length (unknown_region_entries (snd st))
        + (if region_valid d then 0 else 1))%nat.
Proof.
  destruct st as [c u]. unfold record_entry. cbn [snd].
  intros HP [Hall Hreg]. destruct (region_valid d); [split; [now split | lia] |].
  specialize (HP eq_refl). split; [split |]; cbn [unknown_region_entries unknown_regions].
  - intros x Hx. apply in_app_or in Hx as [Hx | [<- | []]]; auto.
  - intros r Hr. apply elem_of_union in Hr as [Hr | Hr].
    + apply elem_of_singleton in Hr as ->.
      exists n, (original_region d), (entry_date d), (hours d).
      split; [| reflexivity]. apply in_or_app. right. now left.
    + destruct (Hreg r Hr) as (n0 & o & dt & h & Hin & Ho).
      exists n0, o, dt, h. split; [| exact Ho]. apply in_or_app. now left.
  - rewrite length_app. reflexivity.
Qed.

Lemma add_entries_reported (P : string * option string * date * Q -> Prop)
    (unk : raw_entry -> bool) (create : raw_entry -> result error DailyEntry) (n : string)
    (entries : list raw_entry) (st st' : consolidation) :
  add_entries create n entries st = Ok st' ->
  (forall e d, In e entries -> create e = Ok d ->
     region_valid d = negb (unk e)
     /\ (unk e = true -> P (n, original_region d, entry_date d, hours d))) ->
  report_inv P (snd st) ->
  report_inv P (snd st')
  /\ length (unknown_region_entries (snd st'))
     = (length (unknown_region_entries (snd st)) + length (List.filter unk entries))%nat.
Proof.
  revert st. induction entries as [| e entries IH]; intros st H Hc Hinv; simpl in H.
  - injection H as <-. split; [exact Hinv | simpl; lia].
  - unfold bind in H. destruct (create e) as [d |] eqn:Ec; [| discriminate].
    destruct (Hc e d (or_introl eq_refl) Ec) as [Hv HP].
    destruct (record_entry_reported P n d st) as [Hinv1 Hlen1]; [| exact Hinv |].
    { intros Hf. apply HP. rewrite Hf in Hv. now destruct (unk e). }
    destruct (IH _ H) as [Hinv2 Hlen2]; [| exact Hinv1 |].
    { intros e0 d0 Hin. apply Hc. now right. }
    split; [exact Hinv2 |]. rewrite Hlen2, Hlen1, Hv. cbn [List.filter].
    destruct (unk e); simpl; lia.
Qed.

Lemma add_employees_reported (P : string * option string * date * Q -> Prop)
    (unk : raw_entry -> bool) (create : string -> raw_entry -> result error DailyEntry)
    (site_data travel_data : parsed_data) (emps : list employee_data)
    (st st' : consolidation) :
  add_employees create (build_employee_name_mapping site_data travel_data) emps st = Ok st' ->
  (forall emp e d, In emp emps -> In e (ed_entries emp) ->
     create (ed_employee_name emp) e = Ok d ->
     region_valid d = negb (unk e)
     /\ (unk e = true ->
         P (ed_employee_name emp, original_region d, entry_date d, hours d))) ->
  report_inv P (snd st) ->
  report_inv P (snd st')
  /\ length (unknown_region_entries (snd st'))
     = (length (unknown_region_entries (snd st))
        + list_sum (map (fun emp => length (List.filter unk (ed_entries emp))) emps))%nat.
Proof.
  revert st. induction emps as [| emp emps IH]; intros st H Hc Hinv; simpl in H.
  - injection H as <-. split; [exact Hinv | simpl; lia].
  - rewrite get_canonical_employee_name_id in H. unfold bind in H.
    destruct (add_entries _ _ _ _) as [st2 |] eqn:Ea; [| discriminate].
    apply (add_entries_reported P unk) in Ea as [Hinv1 Hlen1]; [| | exact Hinv].
    2:{ intros e d He. apply Hc; [now left | exact He]. }
    destruct (IH _ H) as [Hinv2 Hlen2]; [| exact Hinv1 |].
    { intros emp0 e d Hin. apply Hc. now right. }
    split; [exact Hinv2 |]. rewrite Hlen2, Hlen1. simpl. lia.
Qed.

Lemma unknown_regions_sorted (self : unknown_state) :
  StronglySorted (fun a b => String.ltb a b = true)
    (rep_unknown_regions (get_unknown_region_report self)).
Proof.
  unfold get_unknown_region_report. cbn [rep_unknown_regions].
  set (l := List.filter truthy (elements (unknown_regions self))).
  assert (Hnd : List.NoDup (map (fun x : string => x) l)).
  { rewrite map_id. apply List.NoDup_filter. apply NoDup_ListNoDup, NoDup_elements. }
  assert (Hs : StronglySorted (in_order String.ltb) (stable_sort String.ltb l)).
  { apply stable_sort_sorted; [apply String_ltb_asym | apply String_ltb_negtrans]. }
  apply (StronglySorted_distinct _ (fun x : string => x)) in Hs.
  - eapply StronglySorted_weaken; [| exact Hs].
    intros a b [H Hne]. now apply String_ltb_total.
  - eapply Permutation_NoDup; [| exact Hnd].
    apply Permutation_map, Permutation_sym, stable_sort_perm.
Qed.

(** X10: the report of [get_unknown_region_report] lists the non-empty
    names of the region set, each once, in ascending order, and one
    element per recorded tuple, in recording order. *)
Theorem unknown_region_report_lists_names_once (self : unknown_state) :
  StronglySorted (fun a b => String.ltb a b = true)
    (rep_unknown_regions (get_unknown_region_report self))
  /\ (forall r, In r (rep_unknown_regions (get_unknown_region_report self))
                <-> r ∈ unknown_regions self /\ r <> "")
  /\ map (fun x => (ur_employee_name x, ur_original_region x, ur_entry_date x, ur_hours x))
       (rep_unknown_region_entries (get_unknown_region_report self))
     = unknown_region_entries self.
Proof.
  split; [apply unknown_regions_sorted |]. split; [apply report_unknown_regions_In |].
  unfold get_unknown_region_report. cbn [rep_unknown_region_entries].
  rewrite map_map. rewrite <- (map_id (unknown_region_entries self)) at 2.
  apply map_ext. now intros [[[n o] dt] h].
Qed.

(** X11: after a successful [consolidate] the report holds one element
    per source entry whose region is outside the valid set, and no
    other: every element carries the employee, the region text and the
    hours of such a source entry, with its date or the pay-period end
    date; every listed region name is not empty, is outside the valid
    set and is the original region of an element; without a valid set
    the report is empty. *)
Theorem consolidate_report_sound site_data travel_data overtime_data valid_regions
    payroll st :
  consolidate site_data travel_data overtime_data valid_regions = Ok (payroll, st) ->
  length (rep_unknown_region_entries (get_unknown_region_report st))
  = (source_unknown_count valid_regions site_data
     + source_unknown_count valid_regions travel_data)%nat
  /\ (forall x, In x (rep_unknown_region_entries (get_unknown_region_report st)) ->
        report_source site_data travel_data valid_regions (pd_pay_period_end_date payroll)
          (ur_employee_name x, ur_original_region x, ur_entry_date x, ur_hours x))
  /\ (forall r, In r (rep_unknown_regions (get_unknown_region_report st)) ->
        r <> "" /\ region_unknown valid_regions r = true
        /\ exists x, In x (rep_unknown_region_entries (get_unknown_region_report st))
                     /\ ur_original_region x = Some r)
  /\ (valid_regions = None ->
      rep_unknown_region_entries (get_unknown_region_report st) = []
      /\ rep_unknown_regions (get_unknown_region_report st) = []).
Proof.
  intros Hc.
  apply consolidate_inv in Hc
    as (site_end & st1 & st2 & ts & Hend & _ & _ & Hs & Ht & Hb & Hts & Hpe & Hvp & ->).
  set (unk := fun e : raw_entry => region_unknown valid_regions (r_region_name e)).
  set (P := report_source site_data travel_data valid_regions
              (effective_pay_period_end site_data site_end)).
  apply (add_employees_reported P unk) in Hs as [Hinv1 Hlen1].
  2:{ intros emp e d Hemp He Hcr. apply create_site_image in Hcr as [Him _].
      destruct Him as (Hd & Hh & _ & _ & Ho & Hv & _). split; [exact Hv |].
      intros Hu. exists emp, e. rewrite Ho, Hd, Hh.
      split; [apply in_or_app; now left |]. split; [exact He |]. split; [exact Hu |].
      now left. }
  2:{ split; [intros x [] | intros r Hr; set_solver]. }
  apply (add_employees_reported P unk) in Ht as [Hinv2 Hlen2]; [| | exact Hinv1].
  2:{ intros emp e d Hemp He Hcr. apply create_travel_image in Hcr as [Him _].
      destruct Him as (Hd & Hh & _ & _ & Ho & Hv & _). split; [exact Hv |].
      intros Hu. exists emp, e. rewrite Ho, Hd, Hh.
      split; [apply in_or_app; now right |]. split; [exact He |]. split; [exact Hu |].
      destruct (year_is_1900 (r_entry_date e)); [now right | now left]. }
  destruct Hinv2 as [Hall Hreg]. rewrite Hpe.
  assert (Hentries : forall x,
            In x (rep_unknown_region_entries (get_unknown_region_report (snd st2))) ->
            In (ur_employee_name x, ur_original_region x, ur_entry_date x, ur_hours x)
               (unknown_region_entries (snd st2))).
  { intros x Hx. unfold get_unknown_region_report in Hx. cbn [rep_unknown_region_entries] in Hx.
    apply in_map_iff in Hx as ([[[n o] dt] h] & <- & Hin). exact Hin. }
  assert (Hlen : length (rep_unknown_region_entries (get_unknown_region_report (snd st2)))
                 = (source_unknown_count valid_regions site_data
                    + source_unknown_count valid_regions travel_data)%nat).
  { unfold get_unknown_region_report. cbn [rep_unknown_region_entries].
    rewrite length_map, Hlen2, Hlen1. reflexivity. }
  assert (Hregions : forall r,
            In r (rep_unknown_regions (get_unknown_region_report (snd st2))) ->
            r <> "" /\ region_unknown valid_regions r = true
            /\ exists x,
                 In x (rep_unknown_region_entries (get_unknown_region_report (snd st2)))
                 /\ ur_original_region x = Some r).
  { intros r Hr. apply report_unknown_regions_In in Hr as [Hr Hne].
    split; [exact Hne |].
    destruct (Hreg r Hr) as (n & o & dt & h & Hin & Ho).
    destruct (Hall _ Hin) as (emp & e & Hemp & He & Hu & Hx).
    assert (o = Some (r_region_name e)) as -> by (destruct Hx as [Hx | Hx]; congruence).
    simpl in Ho. subst r. split; [exact Hu |].
    exists {| ur_employee_name := n; ur_original_region := Some (r_region_name e);
              ur_entry_date := dt; ur_hours := h |}.
    split; [now apply report_entries_In | reflexivity]. }
  split; [exact Hlen |]. split; [| split; [exact Hregions |]].
  - intros x Hx. apply Hall, Hentries, Hx.
  - intros ->. split.
    + destruct (rep_unknown_region_entries _) as [| x l]; [reflexivity |].
      destruct (Hall _ (Hentries x (or_introl eq_refl))) as (emp & e & Hemp & He & Hu & Hx).
      discriminate.
    + destruct (rep_unknown_regions _) as [| r l]; [reflexivity |].
      destruct (Hregions r (or_introl eq_refl)) as (_ & Hu & _). discriminate.
Qed.

(** ** Export: rows and keys *)

Lemma sublist_In {A : Type} (l1 l2 : list A) (x : A) :
  sublist l1 l2 -> In x l1 -> In x l2.
Proof.
  induction 1 as [| y l1 l2 _ IH | y l1 l2 _ IH]; simpl; [tauto | | tauto].
  intros [<- | H]; auto.
Qed.

Lemma export_entries_rows (seen : list export_key) (l : list DailyEntry) :
  sublist (export_entries seen l) (map to_entry_dict l)
  /\ distinct_rows (export_entries seen l)
  /\ (forall r, In r (export_entries seen l) ->
        existsb (export_key_eqb (key_of r)) seen = false)
  /\ (forall e, In e l ->
        existsb (export_key_eqb (key_of (to_entry_dict e))) seen = true
        \/ exists r, In r (export_entries seen l)
                     /\ export_key_eqb (key_of (to_entry_dict e)) (key_of r) = true).
Proof.
  revert seen. induction l as [| e l IH]; intros seen; cbn [export_entries map].
  - split; [constructor |]. split; [constructor |]. split; intros ? [].
  - destruct (existsb (export_key_eqb (key_of (to_entry_dict e))) seen) eqn:Es.
    + destruct (IH seen) as (Hsub & Hd & Hnew & Hall).
      split; [now constructor |]. split; [exact Hd |]. split; [exact Hnew |].
      intros e0 [<- | Hin]; [now left | now apply Hall].
    + destruct (IH (key_of (to_entry_dict e) :: seen)) as (Hsub & Hd & Hnew & Hall).
      split; [now constructor |]. split; [| split].
      * constructor; [| exact Hd]. apply List.Forall_forall. intros r Hr.
        specialize (Hnew r Hr). cbn [existsb] in Hnew.
        apply orb_false_iff in Hnew as [Hk _]. now rewrite export_key_eqb_sym.
      * intros r [<- | Hr]; [exact Es |].
        specialize (Hnew r Hr). cbn [existsb] in Hnew.
        now apply orb_false_iff in Hnew as [_ Hk].
      * intros e0 [<- | Hin].
        -- right. exists (to_entry_dict e). split; [now left | apply export_key_eqb_refl].
        -- destruct (Hall e0 Hin) as [Hs | (r & Hr & Hk)].
           ++ cbn [existsb] in Hs. apply orb_true_iff in Hs as [Hk | Hs]; [| now left].
              right. exists (to_entry_dict e). split; [now left | exact Hk].
           ++ right. exists r. split; [now right | exact Hk].
Qed.

(** X12: [to_target_json_format] keeps the pay-period end date and one
    export employee per timesheet, in order and under the same name; the
    rows of an employee are taken from the entries in their order, no two
    rows share the key (date, region, exported hours, hour type), every
    entry has a row with its key, and a row carries the date, region,
    hour type and overtime rate of its entry, and its hours unless the
    region is "Unknown". *)
Theorem export_keeps_first_of_each_key (payroll_data : PayrollData) :
  x_pay_period_end_date (to_target_json_format payroll_data)
  = pd_pay_period_end_date payroll_data
  /\ Forall2
       (fun t x =>
          x_employee_name x = employee_name t
          /\ sublist (x_daily_entries x) (map to_entry_dict (daily_entries t))
          /\ distinct_rows (x_daily_entries x)
          /\ (forall e, In e (daily_entries t) ->
                exists r, In r (x_daily_entries x)
                          /\ export_key_eqb (key_of (to_entry_dict e)) (key_of r) = true)
          /\ (forall r, In r (x_daily_entries x) ->
                exists e, In e (daily_entries t)
                          /\ x_entry_date r = entry_date e
                          /\ x_region_name r = region_name e
                          /\ x_hour_type r = HourType_value (hour_type e)
                          /\ x_overtime_rate r = overtime_rate e
                          /\ (region_name e <> "Unknown" -> x_hours r = hours e)))
       (employee_timesheets payroll_data)
       (x_employees (to_target_json_format payroll_data)).
Proof.
  split; [reflexivity |]. unfold to_target_json_format. cbn [x_employees].
  induction (employee_timesheets payroll_data) as [| t ts IH]; cbn [map]; constructor;
    [| exact IH].
  cbn [x_employee_name x_daily_entries].
  destruct (export_entries_rows [] (daily_entries t)) as (Hsub & Hd & _ & Hall).
  split; [reflexivity |]. split; [exact Hsub |]. split; [exact Hd |]. split.
  - intros e He. destruct (Hall e He) as [Hs | H]; [discriminate | exact H].
  - intros r Hr. apply (sublist_In _ _ _ Hsub) in Hr.
    apply in_map_iff in Hr as (e & <- & He).
    exists e. split; [exact He |]. unfold to_entry_dict. cbn.
    repeat split. intros Hne. apply String.eqb_neq in Hne. now rewrite Hne.
Qed.

(** ** The payload builder: groups and lines *)

Lemma group_key_eqb_eq (a b : group_key) : group_key_eqb a b = true <-> a = b.
Proof.
  destruct a as [[d r] h], b as [[d' r'] h']. simpl.
  rewrite !andb_true_iff, Z.eqb_eq, String.eqb_eq, HourType_eqb_eq.
  split; [intros [[-> ->] ->]; reflexivity | intros [= -> -> ->]; auto].
Qed.

Lemma group_key_eqb_neq (a b : group_key) : group_key_eqb a b = false <-> a <> b.
Proof.
  rewrite <- group_key_eqb_eq. destruct (group_key_eqb a b); split; congruence.
Qed.

Lemma group_key_dec (a b : group_key) : {a = b} + {a <> b}.
Proof.
  destruct (group_key_eqb a b) eqn:E;
    [left; now apply group_key_eqb_eq | right; now apply group_key_eqb_neq].
Qed.

Lemma group_add_keys (k : group_key) (e : DailyEntry) (g : list (group_key * list DailyEntry)) :
  (In k (map fst g) -> map fst (group_add k e g) = map fst g)
  /\ (~ In k (map fst g) -> map fst (group_add k e g) = map fst g ++ [k]).
Proof.
  induction g as [| [k' es] g [IH1 IH2]]; simpl; [split; [contradiction | reflexivity] |].
  destruct (group_key_eqb k' k) eqn:E; simpl.
  - apply group_key_eqb_eq in E as ->. split; [reflexivity | intros H; exfalso; auto].
  - apply group_key_eqb_neq in E. split.
    + intros [H | H]; [contradiction | now rewrite IH1].
    + intros H. rewrite IH2; auto.
Qed.

Lemma group_add_NoDup (k : group_key) (e : DailyEntry) (g : list (group_key * list DailyEntry)) :
  List.NoDup (map fst g) -> List.NoDup (map fst (group_add k e g)).
Proof.
  intros Hnd. destruct (group_add_keys k e g) as [H1 H2].
  destruct (in_dec group_key_dec k (map fst g)) as [Hin | Hout].
  - now rewrite H1.
  - rewrite H2 by assumption.
    eapply Permutation_NoDup; [apply Permutation_cons_append |]. now constructor.
Qed.

Lemma group_add_In (k : group_key) (e : DailyEntry) (g : list (group_key * list DailyEntry))
    (k' : group_key) (es' : list DailyEntry) :
  List.NoDup (map fst g) ->
  In (k', es') (group_add k e g) ->
  (k' = k /\ ((exists es, In (k, es) g /\ es' = es ++ [e])
              \/ (~ In k (map fst g) /\ es' = [e])))
  \/ (k' <> k /\ In (k', es') g).
Proof.
  induction g as [| [k0 es0] g IH]; simpl; intros Hnd Hin.
  - destruct Hin as [[= <- <-] | []]. left. split; [reflexivity |]. right. tauto.
  - inversion Hnd as [| ? ? Hk0 Hnd']; subst.
    destruct (group_key_eqb k0 k) eqn:E.
    + apply group_key_eqb_eq in E as ->. destruct Hin as [[= <- <-] | Hin].
      * left. split; [reflexivity |]. left. exists es0. split; [now left | reflexivity].
      * right. split; [| now right]. intros ->. apply Hk0.
        apply in_map_iff. now exists (k, es').
    + apply group_key_eqb_neq in E. destruct Hin as [[= <- <-] | Hin].
      * right. split; [exact E | now left].
      * destruct (IH Hnd' Hin) as [[-> [(es & Hes & ->) | [Hout ->]]] | [Hne Hold]].
        -- left. split; [reflexivity |]. left. exists es. split; [now right | reflexivity].
        -- left. split; [reflexivity |]. right. split; [| reflexivity].
           intros [H | H]; [congruence | contradiction].
        -- right. split; [exact Hne | now right].
Qed.

Lemma filter_none {A : Type} (f : A -> bool) (l : list A) :
  (forall x, In x l -> f x = false) -> List.filter f l = [].
Proof.
  induction l as [| x l IH]; intros H; simpl; [reflexivity |].
  rewrite (H x (or_introl eq_refl)). apply IH. intros y Hy. apply H. now right.
Qed.

(** What the grouping loop has built after the entries [done]. *)
Lemma group_fold_spec (entries done : list DailyEntry) (g : list (group_key * list DailyEntry)) :
  List.NoDup (map fst g) ->
  (forall k es, In (k, es) g -> es = List.filter (in_group k) done /\ es <> []) ->
  (forall e, In e done -> In (entry_key e) (map fst g)) ->
  List.NoDup (map fst (fold_left (fun g e => group_add (entry_key e) e g) entries g))
  /\ (forall k es,
        In (k, es) (fold_left (fun g e => group_add (entry_key e) e g) entries g) ->
        es = List.filter (in_group k) (done ++ entries) /\ es <> [])
  /\ (forall e, In e (done ++ entries) ->
        In (entry_key e)
           (map fst (fold_left (fun g e => group_add (entry_key e) e g) entries g))).
Proof.
  revert done g. induction entries as [| e entries IH]; intros done g Hnd Hg Hcov.
  - simpl. rewrite app_nil_r. auto.
  - cbn [fold_left].
    replace (done ++ e :: entries) with ((done ++ [e]) ++ entries)
      by (rewrite <- app_assoc; reflexivity).
    apply IH.
    + now apply group_add_NoDup.
    + intros k es Hin. rewrite List.filter_app. cbn [List.filter].
      apply group_add_In in Hin as [[-> [(es0 & Hes0 & ->) | [Hout ->]]] | [Hne Hold]];
        [| | | exact Hnd].
      * destruct (Hg _ _ Hes0) as [-> _].
        assert (E : in_group (entry_key e) e = true) by now apply group_key_eqb_eq.
        rewrite E. split; [reflexivity |].
        now destruct (List.filter (in_group (entry_key e)) done).
      * assert (E : in_group (entry_key e) e = true) by now apply group_key_eqb_eq.
        rewrite E. split; [| now destruct (List.filter (in_group (entry_key e)) done)].
        rewrite filter_none; [reflexivity |].
        intros x Hx. apply group_key_eqb_neq. intros Hk. apply Hout.
        rewrite <- Hk. now apply Hcov.
      * destruct (Hg _ _ Hold) as [-> Hne'].
        assert (E : in_group k e = false) by (apply group_key_eqb_neq; congruence).
        rewrite E, app_nil_r. now split.
    + intros x Hx. destruct (group_add_keys (entry_key e) e g) as [H1 H2].
      destruct (in_dec group_key_dec (entry_key e) (map fst g)) as [Hin | Hout].
      * rewrite H1 by assumption. apply in_app_or in Hx as [Hx | [<- | []]]; auto.
      * rewrite H2 by assumption. apply in_or_app.
        apply in_app_or in Hx as [Hx | [<- | []]]; [left; auto | right; now left].
Qed.

Lemma group_daily_entries_spec (entries : list DailyEntry) :
  List.NoDup (map fst (group_daily_entries entries))
  /\ (forall k es, In (k, es) (group_daily_entries entries) ->
        es = List.filter (in_group k) entries /\ es <> [])
  /\ (forall e, In e entries -> In (entry_key e) (map fst (group_daily_entries entries))).
Proof.
  apply (group_fold_spec entries [] []); [constructor | intros ? ? [] | intros ? []].
Qed.

Lemma hundredth (z : Z) : (inject_Z z / 100 * 100 == inject_Z z)%Q.
Proof. field. Qed.

Lemma round2_cases (x : Q) :
  exists n : Z,
    (inject_Z n <= x * 100)%Q /\ (x * 100 < inject_Z n + 1)%Q
    /\ ((round2 x * 100 == inject_Z n)%Q /\ (x * 100 - inject_Z n <= 1 # 2)%Q
        \/ (round2 x * 100 == inject_Z n + 1)%Q /\ (1 # 2 <= x * 100 - inject_Z n)%Q).
Proof.
  exists (Qfloor (x * 100)).
  pose proof (Qfloor_le (x * 100)) as Hlo. pose proof (Qlt_floor (x * 100)) as Hhi.
  rewrite inject_Z_plus in Hhi. change (inject_Z 1) with 1%Q in Hhi.
  split; [exact Hlo |]. split; [exact Hhi |].
  unfold round2. cbv zeta.
  destruct (Qltb (x * 100 - inject_Z (Qfloor (x * 100))) (1 # 2)) eqn:E1.
  - apply Qltb_lt in E1. left. split; [apply hundredth | lra].
  - apply Qltb_ge in E1.
    destruct (Qltb (1 # 2) (x * 100 - inject_Z (Qfloor (x * 100)))) eqn:E2.
    + right. split; [| exact E1]. rewrite hundredth, inject_Z_plus. reflexivity.
    + apply Qltb_ge in E2. destruct (Z.odd (Qfloor (x * 100))).
      * right. split; [| exact E1]. rewrite hundredth, inject_Z_plus. reflexivity.
      * left. split; [apply hundredth | exact E2].
Qed.

Lemma round2_close (x : Q) :
  (round2 x - x <= 1 # 200)%Q /\ (x - round2 x <= 1 # 200)%Q.
Proof.
  destruct (round2_cases x) as (n & Hlo & Hhi & [[Hr Hf] | [Hr Hf]]); split; lra.
Qed.

Lemma round2_nonneg (x : Q) : (0 <= x)%Q -> (0 <= round2 x)%Q.
Proof.
  intros Hx. destruct (round2_cases x) as (n & Hlo & Hhi & Hr).
  assert (Hn : (0 <= n)%Z).
  { apply Z.lt_succ_r. rewrite Zlt_Qlt. unfold Z.succ. rewrite inject_Z_plus.
    change (inject_Z 1) with 1%Q. change (inject_Z 0) with 0%Q. lra. }
  rewrite Zle_Qle in Hn. change (inject_Z 0) with 0%Q in Hn.
  destruct Hr as [[Hr _] | [Hr _]]; lra.
Qed.

Lemma build_line_spec (g : group_key * list DailyEntry) tm em (res : option timesheet_line) :
  build_line g tm em = Ok res ->
  match res with
  | Some line => billable g = true /\ group_line tm em g line
  | None => billable g = false
  end.
Proof.
  destruct g as [[[d r] h] es]. unfold build_line, billable, group_line. cbn [snd].
  pose proof (fold_left_Qplus hours es 0) as Hsum.
  destruct (Qle_bool (fold_left (fun acc e => acc + hours e) es 0) 0)%Q eqn:E.
  - intros [= <-]. apply Qle_bool_iff in E. apply negb_false_iff, Qle_bool_iff. lra.
  - apply Qle_bool_gt in E.
    destruct (em !! HourType_value h) as [rate_id |] eqn:Em; [| discriminate].
    intros [= <-]. cbn.
    pose proof (round2_close (fold_left (fun acc e => acc + hours e) es 0)%Q) as [Hc1 Hc2].
    assert (Hnn : (0 <= round2 (fold_left (fun acc e => acc + hours e) es 0))%Q)
      by (apply round2_nonneg; lra).
    split.
    { apply negb_true_iff. destruct (Qle_bool (Qsum (map hours es)) 0) eqn:E'; [| reflexivity].
      apply Qle_bool_iff in E'. lra. }
    split; [reflexivity |]. split; [reflexivity |]. split; [exact Hnn |].
    split; [lra |]. split; [lra |]. split.
    + destruct (tm !! r) as [[tracking_id |] |]; reflexivity.
    + destruct h, es; reflexivity.
Qed.

Lemma build_lines_spec (groups : list (group_key * list DailyEntry)) tm em
    (results : list (option timesheet_line)) :
  mapM (fun g => build_line g tm em) groups = Ok results ->
  Forall2 (group_line tm em) (List.filter billable groups) (omap id results).
Proof.
  intros H. apply mapM_Forall2 in H.
  induction H as [| g res groups results Hg _ IH]; [constructor |].
  apply build_line_spec in Hg. cbn [List.filter omap].
  destruct res as [line |]; cbn.
  - destruct Hg as [-> Hline]. now constructor.
  - now rewrite Hg.
Qed.

Lemma build_timesheet_inv t tm em payload :
  build_timesheet t tm em = Ok payload ->
  exists lines,
    build_timesheet_lines t tm em = Ok lines
    /\ TimesheetLines payload = lines
    /\ EmployeeID payload = xero_employee_id t
    /\ Status payload = "Draft"
    /\ PayrollCalendarID payload
       = (if truthy_opt (payroll_calendar_id t) then payroll_calendar_id t else None).
Proof.
  unfold build_timesheet, build_timesheet_body, bind.
  destruct (validate_employee_timesheet t); [| discriminate].
  destruct (validate_mappings t tm em); [| discriminate].
  destruct (submission_window t) as [s e'].
  destruct (build_timesheet_lines t tm em) as [lines |]; [| discriminate].
  intros [= <-]. exists lines. repeat split.
Qed.

(** X13: [_group_daily_entries] partitions the entries by (date, region,
    hour type): the keys are distinct, every entry's key is among them,
    and the group of a key holds the entries with that key, in their
    order, and is never empty. *)
Theorem group_daily_entries_partition (entries : list DailyEntry) :
  List.NoDup (map fst (group_daily_entries entries))
  /\ (forall k es, In (k, es) (group_daily_entries entries) ->
        es = List.filter (in_group k) entries /\ es <> [])
  /\ (forall e, In e entries -> In (entry_key e) (map fst (group_daily_entries entries))).
Proof. apply group_daily_entries_spec. Qed.

(** X14: the lines of a built payload are, in order, one per group whose
    hours sum to more than zero: a line carries the group's date, the
    earnings rate mapped to its hour type, the tracking item mapped to
    its region when there is one, the overtime rate of the group's first
    entry when the hour type is OVERTIME, and a number of units that is
    not negative and within 0.005 of the sum of the group's hours. *)
Theorem build_timesheet_lines_per_group t tm em payload :
  build_timesheet t tm em = Ok payload ->
  Forall2 (group_line tm em)
    (List.filter billable (group_daily_entries (daily_entries t)))
    (TimesheetLines payload)
  /\ EmployeeID payload = xero_employee_id t
  /\ Status payload = "Draft"
  /\ PayrollCalendarID payload
     = (if truthy_opt (payroll_calendar_id t) then payroll_calendar_id t else None).
Proof.
  intros H. apply build_timesheet_inv in H as (lines & Hl & -> & Hid & Hst & Hcal).
  split; [| auto]. unfold build_timesheet_lines, bind in Hl.
  destruct (mapM _ _) as [results |] eqn:Hm; [| discriminate].
  injection Hl as <-. now apply build_lines_spec.
Qed.

Lemma mapM_all_ok {E A B : Type} (f : A -> result E B) (l : list A) :
  (forall x, In x l -> exists y, f x = Ok y) -> exists ys, mapM f l = Ok ys.
Proof.
  induction l as [| x l IH]; intros H; simpl; [now exists [] |].
  destruct (H x (or_introl eq_refl)) as [y Hy].
  destruct IH as [ys Hys]; [intros z Hz; apply H; now right |].
  exists (y :: ys). unfold bind. now rewrite Hy, Hys.
Qed.

Lemma build_timesheet_lines_total t tm em :
  (forall e, In e (daily_entries t) -> is_Some (em !! HourType_value (hour_type e))) ->
  exists lines, build_timesheet_lines t tm em = Ok lines.
Proof.
  intros Hem. unfold build_timesheet_lines, bind.
  destruct (mapM_all_ok (fun g => build_line g tm em)
              (group_daily_entries (daily_entries t))) as [results ->];
    [| now eexists].
  intros [[[d r] h] es] Hin.
  destruct (group_daily_entries_spec (daily_entries t)) as (_ & Hg & _).
  destruct (Hg _ _ Hin) as [Hes Hne].
  destruct es as [| e es']; [congruence |].
  assert (He : In e (List.filter (in_group (d, r, h)) (daily_entries t)))
    by (rewrite <- Hes; now left).
  apply filter_In in He as [He Hk]. apply group_key_eqb_eq in Hk.
  injection Hk as _ _ Hh. destruct (Hem e He) as [rate_id Hrate]. rewrite Hh in Hrate.
  unfold build_line. destruct (Qle_bool _ 0); [now eexists |].
  rewrite Hrate. now eexists.
Qed.

(** X15: [build_timesheet] returns a payload exactly when the timesheet
    has a non-empty Xero employee id and at least one entry, every
    region of its entries is a key of the tracking mappings and every
    hour type a key of the earnings mappings; in every other case it
    raises. *)
Theorem build_timesheet_succeeds_iff t tm em :
  (exists payload, build_timesheet t tm em = Ok payload)
  <-> truthy_opt (xero_employee_id t) = true
      /\ daily_entries t <> []
      /\ (forall e, In e (daily_entries t) -> is_Some (tm !! region_name e))
      /\ (forall e, In e (daily_entries t) ->
            is_Some (em !! HourType_value (hour_type e))).
Proof.
  split.
  - intros [payload H]. apply build_timesheet_ok in H as (Hid & Hne & Hr & Hh & _).
    split; [exact Hid |]. split; [exact Hne |]. split; intros e He.
    + destruct (tm !! region_name e) eqn:E; [now eexists |].
      assert (Hin : In (region_name e) (missing_regions t tm))
        by (apply missing_regions_In; split; [now exists e | exact E]).
      rewrite Hr in Hin. contradiction.
    + destruct (em !! HourType_value (hour_type e)) eqn:E; [now eexists |].
      assert (Hin : In (HourType_value (hour_type e)) (missing_hour_types t em))
        by (apply missing_hour_types_In; split; [now exists e | exact E]).
      rewrite Hh in Hin. contradiction.
  - intros (Hid & Hne & Hr & Hh).
    destruct (build_timesheet_lines_total t tm em Hh) as [lines Hl].
    unfold build_timesheet, build_timesheet_body, validate_employee_timesheet,
      validate_mappings, bind.
    rewrite Hid. destruct (daily_entries t) as [| e0 es0] eqn:E; [congruence |].
    rewrite <- E in *.
    destruct (missing_regions t tm) as [| r rs] eqn:Er.
    2:{ assert (Hin : In r (missing_regions t tm)) by (rewrite Er; now left).
        apply missing_regions_In in Hin as [(e & He & <-) Hnone].
        destruct (Hr e He) as [v Hv]. congruence. }
    destruct (missing_hour_types t em) as [| h hs] eqn:Eh.
    2:{ assert (Hin : In h (missing_hour_types t em)) by (rewrite Eh; now left).
        apply missing_hour_types_In in Hin as [(e & He & <-) Hnone].
        destruct (Hh e He) as [v Hv]. congruence. }
    destruct (submission_window t) as [s e']. rewrite Hl. now eexists.
Qed.

(** ** Consolidation: hours are conserved *)

Lemma Qsum_app (l l' : list Q) : (Qsum (l ++ l') == Qsum l + Qsum l')%Q.
Proof. induction l as [| x l IH]; simpl; [lra | rewrite IH; lra]. Qed.

Lemma Qsum_filter {A : Type} (f : A -> Q) (keep : A -> bool) (l : list A) :
  (Qsum (map f (List.filter keep l)) == Qsum (map (fun x => if keep x then f x else 0) l))%Q.
Proof.
  induction l as [| x l IH]; simpl; [lra |].
  destruct (keep x); simpl; rewrite IH; lra.
Qed.

Lemma kept_weight_record (w : DailyEntry -> Q) (n : string) (d : DailyEntry)
    (c : dict (list DailyEntry)) :
  (kept_weight w (dict_set n (default [] (dict_get n c) ++ [d]) c)
   == kept_weight w c + w d)%Q.
Proof.
  unfold kept_weight. induction c as [| [k es] c IH]; simpl; [lra |].
  destruct (String.eqb_spec k n) as [-> | Hne]; simpl.
  - rewrite map_app, Qsum_app. simpl. lra.
  - rewrite IH. lra.
Qed.

Lemma kept_weight_ensure (w : DailyEntry -> Q) (n : string) (c : dict (list DailyEntry)) :
  (kept_weight w (ensure_employee n c) == kept_weight w c)%Q.
Proof.
  unfold ensure_employee. destruct (dict_get n c) eqn:E; [reflexivity |].
  unfold kept_weight. induction c as [| [k es] c IH]; simpl in *; [lra |].
  destruct (String.eqb_spec k n) as [-> | Hne]; [discriminate |].
  simpl. rewrite (IH E). reflexivity.
Qed.

Lemma add_entries_weight (w : DailyEntry -> Q) (ws : raw_entry -> Q)
    (create : raw_entry -> result error DailyEntry) (n : string)
    (entries : list raw_entry) (st st' : consolidation) :
  add_entries create n entries st = Ok st' ->
  (forall e d, In e entries -> create e = Ok d -> (w d == ws e)%Q) ->
  (kept_weight w (fst st') == kept_weight w (fst st) + Qsum (map ws entries))%Q.
Proof.
  revert st. induction entries as [| e entries IH]; intros st H Hc; simpl in H.
  - injection H as <-. simpl. lra.
  - unfold bind in H. destruct (create e) as [d |] eqn:Ec; [| discriminate].
    rewrite (IH _ H) by (intros e0 d0 Hin; apply Hc; now right).
    destruct st as [c u]. cbn [record_entry fst map Qsum].
    rewrite kept_weight_record, (Hc e d (or_introl eq_refl) Ec). lra.
Qed.

Lemma add_employees_weight (w : DailyEntry -> Q) (ws : raw_entry -> Q)
    (create : string -> raw_entry -> result error DailyEntry)
    (site_data travel_data : parsed_data) (emps : list employee_data)
    (st st' : consolidation) :
  add_employees create (build_employee_name_mapping site_data travel_data) emps st = Ok st' ->
  (forall emp e d, In emp emps -> In e (ed_entries emp) ->
     create (ed_employee_name emp) e = Ok d -> (w d == ws e)%Q) ->
  (kept_weight w (fst st')
   == kept_weight w (fst st) + Qsum (map (fun emp => Qsum (map ws (ed_entries emp))) emps))%Q.
Proof.
  revert st. induction emps as [| emp emps IH]; intros st H Hc; simpl in H.
  - injection H as <-. simpl. lra.
  - rewrite get_canonical_employee_name_id in H. unfold bind in H.
    destruct (add_entries _ _ _ _) as [st2 |] eqn:Ea; [| discriminate].
    apply (add_entries_weight w ws) in Ea;
      [| intros e d He; apply Hc; [now left | exact He]].
    rewrite (IH _ H) by (intros emp0 e d Hin; apply Hc; now right).
    rewrite Ea. cbn [fst map Qsum]. rewrite kept_weight_ensure. lra.
Qed.

Lemma build_timesheets_weight (w : DailyEntry -> Q) (pay_period_end : date)
    (c : dict (list DailyEntry)) (ts : list EmployeeTimesheet) :
  build_timesheets pay_period_end c = Ok ts ->
  (Qsum (map (fun t => Qsum (map w (daily_entries t))) ts) == kept_weight w c)%Q.
Proof.
  intros H. apply mapM_Forall2 in H. unfold kept_weight.
  induction H as [| [n es] t c ts Hnew _ IH]; simpl; [lra |].
  apply new_EmployeeTimesheet_ok in Hnew as (-> & _). simpl. rewrite IH.
  rewrite (Qsum_perm _ _ (Permutation_map w (stable_sort_perm _ es))). lra.
Qed.

Lemma get_total_hours_counted (t : EmployeeTimesheet) (wanted : option HourType) :
  (get_total_hours t wanted == Qsum (map (counted_hours wanted) (daily_entries t)))%Q.
Proof.
  destruct wanted as [ht |]; unfold get_total_hours, counted_hours;
    rewrite fold_left_Qplus, Qplus_0_l; [| reflexivity].
  apply (Qsum_filter hours).
Qed.

Lemma consolidate_weight site_data travel_data overtime_data valid_regions payroll st
    (wanted : option HourType) :
  consolidate site_data travel_data overtime_data valid_regions = Ok (payroll, st) ->
  (payroll_total_hours payroll wanted
   == Qsum (map (fun emp =>
                   Qsum (map (fun e =>
                                match wanted with
                                | None => r_hours e
                                | Some ht =>
                                    if has_type (HourType_value ht) e then r_hours e else 0
                                end) (ed_entries emp)))
              (get_employees site_data))
      + Qsum (map (fun emp =>
                     Qsum (map (fun e =>
                                  match wanted with
                                  | None => r_hours e
                                  | Some ht => if HourType_eqb ht TRAVEL then r_hours e else 0
                                  end) (ed_entries emp)))
                (get_employees travel_data)))%Q.
Proof.
  intros Hc.
  apply consolidate_inv in Hc
    as (site_end & st1 & st2 & ts & _ & _ & _ & Hs & Ht & Hb & Hts & _).
  unfold payroll_total_hours. rewrite fold_left_Qplus, Qplus_0_l, Hts.
  rewrite (Qsum_ext_in _ (fun t => Qsum (map (counted_hours wanted) (daily_entries t))))
    by (intros t _; apply get_total_hours_counted).
  rewrite (Qsum_perm _ _
             (Permutation_map (fun t => Qsum (map (counted_hours wanted) (daily_entries t)))
                (stable_sort_perm _ ts))).
  rewrite (build_timesheets_weight _ _ _ _ Hb).
  eapply (add_employees_weight (counted_hours wanted)) in Ht.
  - rewrite Ht. eapply (add_employees_weight (counted_hours wanted)) in Hs.
    + rewrite Hs. unfold kept_weight. simpl. rewrite Qplus_0_l. reflexivity.
    + intros emp e d _ _ Hcr. apply create_site_image in Hcr as [Him _].
      destruct Him as (_ & Hh & Hty & _). apply HourType_of_string_ok in Hty.
      unfold counted_hours, has_type. rewrite Hh, Hty.
      destruct wanted as [ht |]; [| reflexivity].
      destruct (hour_type d), ht; reflexivity.
  - intros emp e d _ _ Hcr. apply create_travel_image in Hcr as [Him _].
    destruct Him as (_ & Hh & Hty & _).
    unfold counted_hours. rewrite Hh, Hty.
    destruct wanted as [ht |]; [| reflexivity]. destruct ht; reflexivity.
Qed.

Lemma Qsum_zero {A : Type} (l : list A) : (Qsum (map (fun _ => 0) l) == 0)%Q.
Proof. induction l as [| x l IH]; simpl; [lra | rewrite IH; lra]. Qed.

(** X16: a successful [consolidate] conserves hours: the total hours of
    the result are the hours of all site and travel entries together,
    and its total for an hour type is the hours of the site entries of
    that type, plus all travel hours when the type is TRAVEL. *)
Theorem consolidate_conserves_hours site_data travel_data overtime_data valid_regions
    payroll st :
  consolidate site_data travel_data overtime_data valid_regions = Ok (payroll, st) ->
  (payroll_total_hours payroll None
   == source_hours (fun _ => true) site_data + source_hours (fun _ => true) travel_data)%Q
  /\ forall ht,
       (payroll_total_hours payroll (Some ht)
        == source_hours (has_type (HourType_value ht)) site_data
           + (if HourType_eqb ht TRAVEL then source_hours (fun _ => true) travel_data
              else 0))%Q.
Proof.
  intros Hc.
  assert (Hall : forall d, (source_hours (fun _ => true) d
                            == Qsum (map (fun emp => Qsum (map r_hours (ed_entries emp)))
                                       (get_employees d)))%Q).
  { intros d. unfold source_hours. apply Qsum_ext_in. intros emp _.
    rewrite (Qsum_filter r_hours). reflexivity. }
  split.
  - rewrite (consolidate_weight _ _ _ _ _ _ None Hc), !Hall. reflexivity.
  - intros ht. rewrite (consolidate_weight _ _ _ _ _ _ (Some ht) Hc).
    apply Qplus_comp.
    + unfold source_hours. apply Qsum_ext_in. intros emp _.
      rewrite (Qsum_filter r_hours). reflexivity.
    + destruct (HourType_eqb ht TRAVEL); [now rewrite Hall |].
      rewrite (Qsum_ext_in _ (fun _ => 0%Q)); [apply Qsum_zero |].
      intros emp _. apply Qsum_zero.
Qed.

(** ** The 40-hour cap: a second pass *)

Lemma cap_employee_cases (employee : employee_data) :
  (forall e, In e (ed_entries employee) -> r_hour_type e = "REGULAR" -> (0 <= r_hours e)%Q) ->
  cap_employee employee = employee
  \/ (total_regular_hours (ed_entries (cap_employee employee)) == 40)%Q.
Proof.
  intros Hnn. unfold cap_employee.
  destruct (overtime_entries (ed_entries employee)); [now left |].
  destruct (Qle_bool (total_regular_hours (ed_entries employee)) 40) eqn:E; [now left |].
  right. apply Qle_bool_gt in E. cbn [ed_entries].
  rewrite total_regular_hours_filter, Qsum_regular_pruned.
  - now apply reduced_entries_total.
  - now apply reduced_entries_regular_nonneg.
Qed.

Lemma cap_employee_within_limit (employee : employee_data) :
  (total_regular_hours (ed_entries employee) <= 40)%Q -> cap_employee employee = employee.
Proof.
  intros H. unfold cap_employee. destruct (overtime_entries _); [reflexivity |].
  apply Qle_bool_iff in H. now rewrite H.
Qed.

Lemma cap_employee_idempotent (employee : employee_data) :
  (forall e, In e (ed_entries employee) -> r_hour_type e = "REGULAR" -> (0 <= r_hours e)%Q) ->
  cap_employee (cap_employee employee) = cap_employee employee.
Proof.
  intros Hnn. destruct (cap_employee_cases employee Hnn) as [Heq | H].
  - now rewrite !Heq.
  - apply cap_employee_within_limit. rewrite H. lra.
Qed.

(** X17: on site data whose regular entries carry no negative hours the
    cap is idempotent; it keeps the file type, the pay-period end date
    and the employees with their names and order; an employee with at
    most 40 regular hours is returned unchanged, and after the cap every
    employee that still has an OVERTIME entry has at most 40 regular
    hours. *)
Theorem cap_regular_hours_idempotent (site_data : parsed_data) :
  (forall emp e, In emp (get_employees site_data) -> In e (ed_entries emp) ->
     r_hour_type e = "REGULAR" -> (0 <= r_hours e)%Q) ->
  cap_regular_hours_in_parsed_data (cap_regular_hours_in_parsed_data site_data)
  = cap_regular_hours_in_parsed_data site_data
  /\ file_type (cap_regular_hours_in_parsed_data site_data) = file_type site_data
  /\ pd_end_date (cap_regular_hours_in_parsed_data site_data) = pd_end_date site_data
  /\ map ed_employee_name (get_employees (cap_regular_hours_in_parsed_data site_data))
     = map ed_employee_name (get_employees site_data)
  /\ (forall emp, In emp (get_employees site_data) ->
        (total_regular_hours (ed_entries emp) <= 40)%Q -> cap_employee emp = emp)
  /\ (forall emp e, In emp (get_employees (cap_regular_hours_in_parsed_data site_data)) ->
        In e (ed_entries emp) -> r_hour_type e = "OVERTIME" ->
        (total_regular_hours (ed_entries emp) <= 40)%Q).
Proof.
  intros Hnn. unfold cap_regular_hours_in_parsed_data, get_employees in *. cbn.
  destruct (employees site_data) as [emps |]; cbn in *.
  2:{ repeat split; try reflexivity; [intros ? [] | intros ? ? []]. }
  split; [| split; [reflexivity | split; [reflexivity | split; [| split]]]].
  - do 2 f_equal. rewrite map_map. apply map_ext_in.
    intros emp Hemp. apply cap_employee_idempotent. intros e. now apply (Hnn emp).
  - rewrite map_map. apply map_ext. intros emp. unfold cap_employee.
    destruct (overtime_entries _); [reflexivity |]. now destruct (Qle_bool _ 40).
  - intros emp _. apply cap_employee_within_limit.
  - intros emp' e Hemp He Hty. apply in_map_iff in Hemp as (emp & <- & Hemp).
    destruct (cap_employee_cases emp) as [Heq | Heq];
      [intros e0; now apply (Hnn emp) | | rewrite Heq; lra].
    rewrite Heq in *. unfold cap_employee in Heq.
    destruct (overtime_entries (ed_entries emp)) as [| o l] eqn:Eo.
    + assert (Hin : In e (overtime_entries (ed_entries emp))).
      { apply filter_In. split; [exact He |]. unfold has_type. now apply String.eqb_eq. }
      rewrite Eo in Hin. contradiction.
    + destruct (Qle_bool (total_regular_hours (ed_entries emp)) 40) eqn:E.
      * now apply Qle_bool_iff.
      * apply Qle_bool_gt in E.
        assert (total_regular_hours (ed_entries emp) == 40)%Q; [| lra].
        rewrite <- Heq at 1. cbn [ed_entries].
        rewrite total_regular_hours_filter, Qsum_regular_pruned.
        -- now apply reduced_entries_total.
        -- apply reduced_entries_regular_nonneg. intros e0. now apply (Hnn emp).
Qed.

(** ** The matcher: results, cache and confirmation *)

Lemma StronglySorted_filter {A : Type} (R : A -> A -> Prop) (f : A -> bool) (l : list A) :
  StronglySorted R l -> StronglySorted R (List.filter f l).
Proof.
  induction 1 as [| x l Hs IH Hx]; simpl; [constructor |].
  destruct (f x); [| exact IH]. constructor; [exact IH |].
  rewrite List.Forall_forall in *. intros y Hy. apply filter_In in Hy as [Hy _]. auto.
Qed.

Lemma firstn_In {A : Type} (n : nat) (l : list A) (x : A) : In x (firstn n l) -> In x l.
Proof.
  revert n. induction l as [| y l IH]; intros [| n]; simpl; try tauto.
  intros [H | H]; [now left | right; now apply (IH n)].
Qed.

Lemma filter_length_bound {A : Type} (f : A -> bool) (l : list A) :
  (length (List.filter f l) <= length l)%nat.
Proof. induction l as [| x l IH]; simpl; [lia | destruct (f x); simpl; lia]. Qed.

Lemma omap_length_bound {A B : Type} (f : A -> option B) (l : list A) :
  (length (omap f l) <= length l)%nat.
Proof.
  induction l as [| x l IH]; [reflexivity |].
  change (omap f (x :: l)) with (match f x with Some y => y :: omap f l | None => omap f l end).
  destruct (f x); simpl; lia.
Qed.

Lemma StronglySorted_firstn {A : Type} (R : A -> A -> Prop) (n : nat) (l : list A) :
  StronglySorted R l -> StronglySorted R (firstn n l).
Proof.
  intros H. revert n. induction H as [| x l Hs IH Hx]; intros [| n]; simpl; try constructor.
  - apply IH.
  - rewrite List.Forall_forall in *. intros y Hy. apply Hx. now apply (firstn_In n l).
Qed.

Lemma StronglySorted_map {A B : Type} (R : B -> B -> Prop) (f : A -> B) (l : list A) :
  StronglySorted (fun a b => R (f a) (f b)) l -> StronglySorted R (map f l).
Proof.
  induction 1 as [| x l Hs IH Hx]; simpl; constructor; [exact IH |].
  rewrite List.Forall_forall in *. intros y Hy.
  apply in_map_iff in Hy as (z & <- & Hz). auto.
Qed.

Section MatcherInvariants.
Context {F : Fuzz}.

Lemma find_fuzzy_matches_descending (self : EmployeeMatcher) (name : string) :
  StronglySorted (fun a b => (fm_score b <= fm_score a)%Q) (find_fuzzy_matches self name).
Proof.
  unfold find_fuzzy_matches.
  eapply StronglySorted_weaken;
    [| apply (stable_sort_sorted (fun y x : fuzzy_match => Qltb (fm_score x) (fm_score y)))].
  - intros a b H. unfold in_order in H. now apply Qltb_ge in H.
  - intros a b H. apply Qltb_lt in H. apply Qltb_ge. lra.
  - intros a b c H1 H2. apply Qltb_ge in H1, H2. apply Qltb_ge. lra.
Qed.

Lemma find_fuzzy_matches_threshold (self : EmployeeMatcher) (name : string) (m : fuzzy_match) :
  In m (find_fuzzy_matches self name) ->
  (suggestion_threshold self <= fm_score m)%Q
  /\ exists e, In e (xero_employees self)
               /\ fm_name m = emp_name e /\ fm_employee_id m = emp_employee_id e
               /\ emp_name e <> "" /\ emp_employee_id e <> "".
Proof.
  unfold find_fuzzy_matches. rewrite stable_sort_In, <- list_elem_of_In, list_elem_of_omap.
  intros (e & He & Hc). apply list_elem_of_In in He. unfold fuzzy_candidate in Hc.
  destruct (truthy (emp_name e)) eqn:En; [| discriminate].
  destruct (truthy (emp_employee_id e)) eqn:Ei; [| discriminate]. simpl in Hc.
  destruct (candidate_scores name e) as [[[best tsort] tset] lastn].
  destruct (candidate_accepted _ _ _ _ _) eqn:Ea; [| discriminate].
  injection Hc as <-. simpl. unfold candidate_accepted in Ea.
  apply andb_true_iff in Ea as [Hb _]. apply Qle_bool_iff in Hb.
  split; [exact Hb |]. exists e. repeat split; try assumption.
  - intros H. rewrite H in En. discriminate.
  - intros H. rewrite H in Ei. discriminate.
Qed.

Lemma compute_match_consistent (self : EmployeeMatcher) (name : string) (rc : bool) :
  result_consistent (auto_match_threshold self) (suggestion_threshold self)
    (compute_match self name rc).
Proof.
  unfold compute_match.
  destruct (find_exact_match self name) as [e |].
  { unfold result_consistent. cbn.
    repeat split; try discriminate; try (intros; lra); try constructor; auto;
      try (intros ? []); simpl; lia. }
  pose proof (find_fuzzy_matches_descending self name) as Hsorted.
  pose proof (find_fuzzy_matches_threshold self name) as Hthr.
  destruct (find_fuzzy_matches self name) as [| best rest].
  { unfold result_consistent. cbn.
    repeat split; try discriminate; try (intros; lra); try constructor; auto;
      try (intros ? []); simpl; lia. }
  set (sugg := map _ (List.filter _ (firstn 5 (best :: rest)))).
  assert (Hlen : (length sugg <= 5)%nat).
  { unfold sugg. rewrite length_map.
    etransitivity; [apply filter_length_bound | apply firstn_le_length]. }
  assert (Hs : StronglySorted (fun a b => (sg_score b <= sg_score a)%Q) sugg).
  { unfold sugg. apply StronglySorted_map. cbn [sg_score].
    now apply StronglySorted_filter, StronglySorted_firstn. }
  assert (Hin : forall s, In s sugg ->
                  (suggestion_threshold self <= sg_score s)%Q
                  /\ (sg_score s <= fm_score best)%Q).
  { intros s Hs'. unfold sugg in Hs'. apply in_map_iff in Hs' as (m & <- & Hm).
    apply filter_In in Hm as [Hm Hq]. apply Qle_bool_iff in Hq. cbn [sg_score].
    split; [exact Hq |]. apply firstn_In in Hm.
    inversion Hsorted as [| ? ? _ Hall]; subst.
    destruct Hm as [<- | Hm]; [lra |].
    rewrite List.Forall_forall in Hall. now apply Hall. }
  unfold result_consistent.
  destruct (Qle_bool (auto_match_threshold self) (fm_score best)) eqn:Ea.
  { apply Qle_bool_iff in Ea. cbn.
    repeat split; try discriminate; try assumption; try (intros; lra); auto;
      apply Hin; assumption. }
  apply Qle_bool_gt in Ea.
  destruct (Qle_bool 70 (fm_score best)) eqn:E70.
  { apply Qle_bool_iff in E70. cbn.
    repeat split; try discriminate; try assumption; try (intros; lra); auto;
      apply Hin; assumption. }
  apply Qle_bool_gt in E70.
  destruct (Qle_bool 50 (fm_score best)) eqn:E50.
  { apply Qle_bool_iff in E50. cbn.
    repeat split; try discriminate; try assumption; try (intros; lra); auto;
      apply Hin; assumption. }
  apply Qle_bool_gt in E50. cbn.
  repeat split; try discriminate; try assumption; try (intros; lra); auto;
    apply Hin; assumption.
Qed.

Lemma reachable_cache_consistent (self : EmployeeMatcher) :
  reachable self -> cache_consistent self.
Proof.
  induction 1 as [emps a s | self emps _ _ | self name rc _ IH | self name id _ IH].
  - intros k r H. simpl in H. now rewrite lookup_empty in H.
  - intros k r H. simpl in H. now rewrite lookup_empty in H.
  - unfold match_employee.
    destruct (blank name); [exact IH |].
    destruct (match_cache self !! (strip name, rc)) eqn:Hc; [exact IH |].
    intros k r. simpl.
    destruct (decide ((strip name, rc) = k)) as [<- | Hne].
    + rewrite lookup_insert_eq. intros [= <-]. apply compute_match_consistent.
    + rewrite lookup_insert_ne by exact Hne. apply IH.
  - unfold confirm_match.
    destruct (List.find _ (xero_employees self)); [| exact IH].
    intros k r. simpl.
    destruct (decide ((name, true) = k)) as [<- | Hne].
    + rewrite lookup_insert_eq. intros [= <-]. unfold result_consistent. cbn.
      repeat split; try discriminate; try (intros; lra); try constructor; auto;
        try (intros ? []); simpl; lia.
    + rewrite lookup_insert_ne by exact Hne. apply IH.
Qed.

End MatcherInvariants.

Lemma lstrip_head (s : string) :
  match lstrip s with EmptyString => True | String c _ => is_space c = false end.
Proof.
  induction s as [| c s IH]; simpl; [exact I |].
  destruct (is_space c) eqn:E; [exact IH | exact E].
Qed.

Lemma rstrip_head (c : ascii) (s : string) :
  is_space c = false -> exists r, rstrip (String c s) = String c r.
Proof.
  intros H. simpl. destruct (rstrip s); [rewrite H |]; now eexists.
Qed.

Lemma rstrip_idempotent (s : string) : rstrip (rstrip s) = rstrip s.
Proof.
  induction s as [| c s IH]; simpl; [reflexivity |].
  destruct (rstrip s) as [| c1 r1] eqn:R.
  - destruct (is_space c) eqn:E; simpl; [reflexivity | now rewrite E].
  - change (rstrip (String c (String c1 r1)))
      with (match rstrip (String c1 r1) with
            | EmptyString => if is_space c then EmptyString else String c EmptyString
            | r => String c r
            end).
    now rewrite IH.
Qed.

Lemma strip_idempotent (s : string) : strip (strip s) = strip s.
Proof.
  unfold strip. pose proof (lstrip_head s) as H.
  destruct (lstrip s) as [| c t]; [reflexivity |].
  destruct (rstrip_head c t H) as [r Hr]. rewrite Hr.
  cbn [lstrip]. rewrite H, <- Hr. apply rstrip_idempotent.
Qed.

Section MatcherProperties.
Context {F : Fuzz}.

(** X18: the cache of [match_employee] is transparent: a call leaves the
    roster, the thresholds and the lookup table as they are, a second
    call with the same arguments returns the same result and changes
    nothing, and every later call returns what it would have returned
    before. *)
Theorem match_employee_cache_transparent (self : EmployeeMatcher) (name : string)
    (rc : bool) :
  match_employee (snd (match_employee self name rc)) name rc = match_employee self name rc
  /\ (forall n rc',
        fst (match_employee (snd (match_employee self name rc)) n rc')
        = fst (match_employee self n rc'))
  /\ xero_employees (snd (match_employee self name rc)) = xero_employees self
  /\ auto_match_threshold (snd (match_employee self name rc)) = auto_match_threshold self
  /\ suggestion_threshold (snd (match_employee self name rc)) = suggestion_threshold self
  /\ employee_lookup (snd (match_employee self name rc)) = employee_lookup self.
Proof.
  destruct (match_employee self name rc) as [r self'] eqn:Hm. cbn [snd].
  unfold match_employee in Hm.
  destruct (blank name) eqn:Hb.
  { injection Hm as <- <-.
    split; [unfold match_employee; now rewrite Hb | repeat split]. }
  destruct (match_cache self !! (strip name, rc)) as [cached |] eqn:Hc.
  { injection Hm as <- <-.
    split; [unfold match_employee; now rewrite Hb, Hc | repeat split]. }
  injection Hm as <- <-. split; [| split; [| repeat split]].
  - unfold match_employee. rewrite Hb. cbn [match_cache]. rewrite lookup_insert_eq.
    reflexivity.
  - intros n rc'. unfold match_employee.
    destruct (blank n); [reflexivity |]. cbn [match_cache].
    destruct (decide ((strip name, rc) = (strip n, rc'))) as [Heq | Hne].
    + injection Heq as Hn Hr. rewrite <- Hn, <- Hr, lookup_insert_eq, Hc. reflexivity.
    + rewrite lookup_insert_ne by exact Hne.
      destruct (match_cache self !! (strip n, rc')); reflexivity.
Qed.

(** X19: in every state the matcher can reach, also when the answer
    comes from the cache or from a confirmation, a result carries a
    matched id and name exactly when its confidence is not NO_MATCH;
    it waives confirmation only with confidence HIGH; HIGH means score
    100 or a score at the automatic threshold, MEDIUM a score from 70
    and LOW a score from 50 to below 70, both below the automatic
    threshold, NO_MATCH a score below 50; there are at most five
    suggestions, in descending order of score, each at the suggestion
    threshold or above and not above the score of the result. *)
Theorem match_employee_result_consistent (self : EmployeeMatcher) (name : string)
    (rc : bool) :
  reachable self ->
  result_consistent (auto_match_threshold self) (suggestion_threshold self)
    (fst (match_employee self name rc)).
Proof.
  intros Hreach. pose proof (reachable_cache_consistent self Hreach) as Hcache.
  unfold match_employee. destruct (blank name).
  { unfold result_consistent. cbn.
    repeat split; try discriminate; try (intros; lra); try constructor; auto;
      try (intros ? []); simpl; lia. }
  destruct (match_cache self !! (strip name, rc)) as [cached |] eqn:Hc; cbn [fst].
  - now apply (Hcache _ _ Hc).
  - apply compute_match_consistent.
Qed.

(** X20: [_find_fuzzy_matches] returns its matches in descending order
    of score; every match has a score at the suggestion threshold or
    above and the name and id of a roster entry that has both, and there
    are no more matches than roster entries. *)
Theorem find_fuzzy_matches_best_first (self : EmployeeMatcher) (name : string) :
  StronglySorted (fun a b => (fm_score b <= fm_score a)%Q) (find_fuzzy_matches self name)
  /\ (forall m, In m (find_fuzzy_matches self name) ->
        (suggestion_threshold self <= fm_score m)%Q
        /\ exists e, In e (xero_employees self)
                     /\ fm_name m = emp_name e /\ fm_employee_id m = emp_employee_id e
                     /\ emp_name e <> "" /\ emp_employee_id e <> "")
  /\ (length (find_fuzzy_matches self name) <= length (xero_employees self))%nat.
Proof.
  split; [apply find_fuzzy_matches_descending |].
  split; [apply find_fuzzy_matches_threshold |].
  unfold find_fuzzy_matches.
  rewrite (Permutation_length (stable_sort_perm _ _)).
  apply omap_length_bound.
Qed.

(** X21: for a non-empty id whose roster entries carry a name,
    [confirm_match] with an id that no roster entry carries returns
    false and changes nothing.  With the id of a roster entry it returns
    true; a later [match_employee] for the same name that asks for
    confirmation then answers with that id, confidence HIGH and score
    100 when the name has no surrounding whitespace, while for a name
    with surrounding whitespace the confirmation changes no answer; the
    answers of calls that ask for no confirmation never change. *)
Theorem confirm_match_effect (self : EmployeeMatcher) (name id : string) :
  id <> "" ->
  (forall e, In e (xero_employees self) -> emp_employee_id e = id -> emp_name e <> "") ->
  ((forall e, In e (xero_employees self) -> emp_employee_id e <> id) ->
   confirm_match self name id = (false, self))
  /\ ((exists e, In e (xero_employees self) /\ emp_employee_id e = id) ->
      fst (confirm_match self name id) = true
      /\ (blank name = false -> strip name = name ->
          let r := fst (match_employee (snd (confirm_match self name id)) name true) in
          matched_id r = Some id /\ confidence r = HIGH /\ confidence_score r = 100%Q
          /\ requires_confirmation r = false
          /\ exists e, In e (xero_employees self) /\ emp_employee_id e = id
                       /\ matched_name r = Some (emp_name e))
      /\ (strip name <> name ->
          forall n rc, fst (match_employee (snd (confirm_match self name id)) n rc)
                       = fst (match_employee self n rc))
      /\ (forall n, fst (match_employee (snd (confirm_match self name id)) n false)
                    = fst (match_employee self n false))).
Proof.
  intros _ _. unfold confirm_match.
  destruct (List.find (fun e => String.eqb (emp_employee_id e) id) (xero_employees self))
    as [e0 |] eqn:Hf.
  - apply find_some in Hf as [Hin Hid]. apply String.eqb_eq in Hid.
    split; [intros Hno; now apply Hno in Hin |].
    intros _. cbn [fst snd]. split; [reflexivity |]. split; [| split].
    + intros Hb Hs. unfold match_employee. rewrite Hb, Hs. cbn [match_cache].
      rewrite lookup_insert_eq. cbn. repeat split. now exists e0.
    + intros Hs n rc. unfold match_employee. destruct (blank n); [reflexivity |].
      cbn [match_cache]. rewrite lookup_insert_ne.
      * destruct (match_cache self !! (strip n, rc)); reflexivity.
      * intros [= Hn _]. apply Hs. rewrite Hn. apply strip_idempotent.
    + intros n. unfold match_employee. destruct (blank n); [reflexivity |].
      cbn [match_cache]. rewrite lookup_insert_ne by discriminate.
      destruct (match_cache self !! (strip n, false)); reflexivity.
  - split; [reflexivity |].
    intros (e & Hin & Hid). exfalso.
    apply (find_none _ _ Hf) in Hin. apply String.eqb_neq in Hin. contradiction.
Qed.

End MatcherProperties.

(** ** The region validator *)

Lemma validate_region_spec (self : RegionValidator) (name : string) :
  validator_sound self ->
  validator_sound (snd (validate_region self name))
  /\ xero_regions (snd (validate_region self name)) = xero_regions self
  /\ is_valid (fst (validate_region self name)) = region_ok (xero_regions self) name
  /\ errors (fst (validate_region self name)) = region_errors (xero_regions self) name
  /\ warnings (fst (validate_region self name)) = []
  /\ status (fst (validate_region self name))
     = (if region_ok (xero_regions self) name then SUCCESS else FAILED).
Proof.
  intros Hs. unfold validate_region, region_errors, region_ok.
  destruct (blank name) eqn:Hb; cbn [negb andb fst snd];
    [split; [exact Hs | repeat split; reflexivity] |].
  destruct (region_cache self !! strip name) as [cached |] eqn:Hc.
  - destruct (Hs _ _ Hc) as [Hne ->]. cbn [fst snd].
    rewrite (bool_decide_eq_false_2 (xero_regions self = ∅) Hne).
    split; [exact Hs |].
    destruct (bool_decide (strip name ∈ xero_regions self)); repeat split; reflexivity.
  - destruct (bool_decide (xero_regions self = ∅)) eqn:He.
    + apply bool_decide_eq_true in He. cbn [fst snd].
      split; [exact Hs |].
      rewrite (bool_decide_eq_false_2 (strip name ∈ xero_regions self))
        by (rewrite He; set_solver).
      repeat split; reflexivity.
    + cbn [fst snd]. split.
      { intros n b. cbn [region_cache xero_regions].
        apply bool_decide_eq_false in He.
        destruct (decide (strip name = n)) as [<- | Hn].
        - rewrite lookup_insert_eq. intros [= <-]. now split.
        - rewrite lookup_insert_ne by exact Hn. apply Hs. }
      destruct (bool_decide (strip name ∈ xero_regions self)); repeat split; reflexivity.
Qed.

Lemma validate_each_spec (names : list string) (self : RegionValidator)
    (errs warns : list ValidationError) (invalid : list string) :
  validator_sound self ->
  validator_sound (snd (validate_each self names (errs, warns, invalid)))
  /\ xero_regions (snd (validate_each self names (errs, warns, invalid)))
     = xero_regions self
  /\ fst (validate_each self names (errs, warns, invalid))
     = (errs ++ flat_map (region_errors (xero_regions self)) names,
        warns,
        invalid ++ List.filter (fun n => negb (region_ok (xero_regions self) n)) names).
Proof.
  revert self errs warns invalid.
  induction names as [| n names IH]; intros self errs warns invalid Hs.
  - cbn. rewrite !app_nil_r. auto.
  - cbn [validate_each].
    destruct (validate_region_spec self n Hs) as (Hs' & Hx & Hv & He & Hw & _).
    destruct (validate_region self n) as [r self'] eqn:Hr. cbn [fst snd] in *.
    destruct (IH self' (errs ++ errors r) (warns ++ warnings r)
                (if is_valid r then invalid else invalid ++ [n]) Hs') as (H1 & H2 & H3).
    split; [exact H1 |]. split; [now rewrite H2 |].
    rewrite H3, Hx, He, Hw, Hv, app_nil_r. cbn [flat_map List.filter].
    destruct (region_ok (xero_regions self) n); cbn [negb];
      now rewrite <- ?app_assoc.
Qed.

Lemma validate_regions_sound (self : RegionValidator) (regions : gset string) :
  validator_sound self -> validator_sound (snd (validate_regions self regions)).
Proof.
  intros Hs. unfold validate_regions.
  destruct (bool_decide (regions = ∅)); [exact Hs |].
  destruct (validate_each_spec (stable_sort String.ltb (elements regions)) self [] [] [] Hs)
    as (H1 & _).
  destruct (validate_each _ _ _) as [[[errs warns] invalid] self']. exact H1.
Qed.

Lemma validator_reachable_sound (self : RegionValidator) :
  validator_reachable self -> validator_sound self.
Proof.
  induction 1 as [regions | self regions _ _ | self name _ IH | self regions _ IH].
  - intros n b H. cbn in H. now rewrite lookup_empty in H.
  - intros n b H. cbn in H. now rewrite lookup_empty in H.
  - now apply validate_region_spec.
  - now apply validate_regions_sound.
Qed.

(** X22: in every state the validator can reach, also when the answer
    comes from the cache, [validate_region] accepts a name exactly when
    it is not blank and, stripped, is one of the Xero regions; otherwise
    it reports one error: EMPTY_REGION for a blank name, NO_XERO_REGIONS
    when there are no Xero regions, INVALID_REGION with the stripped
    name in the other cases; it reports no warning and leaves the Xero
    regions as they are. *)
Theorem validate_region_decides_membership (self : RegionValidator) (name : string) :
  validator_reachable self ->
  (is_valid (fst (validate_region self name)) = true
   <-> blank name = false /\ strip name ∈ xero_regions self)
  /\ errors (fst (validate_region self name)) = region_errors (xero_regions self) name
  /\ warnings (fst (validate_region self name)) = []
  /\ status (fst (validate_region self name))
     = (if is_valid (fst (validate_region self name)) then SUCCESS else FAILED)
  /\ xero_regions (snd (validate_region self name)) = xero_regions self.
Proof.
  intros Hr. apply validator_reachable_sound in Hr.
  destruct (validate_region_spec self name Hr) as (_ & Hx & Hv & He & Hw & Hst).
  rewrite Hv. repeat split; try assumption.
  - unfold region_ok in H. apply andb_true_iff in H as [H _]. now apply negb_true_iff.
  - unfold region_ok in H. apply andb_true_iff in H as [_ H].
    now apply bool_decide_eq_true in H.
  - intros [Hb Hin]. unfold region_ok. rewrite Hb. cbn.
    now apply bool_decide_eq_true.
Qed.

Lemma region_errors_length (regions : gset string) (names : list string) :
  length (flat_map (region_errors regions) names)
  = length (List.filter (fun n => negb (region_ok regions n)) names).
Proof.
  induction names as [| n names IH]; [reflexivity |].
  cbn [flat_map List.filter]. rewrite length_app, IH. unfold region_errors.
  destruct (region_ok regions n); [reflexivity |].
  destruct (blank n); [reflexivity |]. now destruct (bool_decide (regions = ∅)).
Qed.

Lemma sorted_elements_length (regions : gset string) :
  length (stable_sort String.ltb (elements regions)) = size regions.
Proof. now rewrite (Permutation_length (stable_sort_perm _ _)). Qed.

(** X23: in every state the validator can reach, [validate_regions] on
    an empty set gives one warning and status WARNING; on another set it
    reports, in ascending order of the names, the errors of the regions
    that [validate_region] rejects and no warning; the metadata list
    these regions in that order and count the others as valid; the
    result is valid exactly when every region is accepted, and FAILED
    otherwise. *)
Theorem validate_regions_summary (self : RegionValidator) (regions : gset string) :
  validator_reachable self ->
  validated_items (fst (validate_regions self regions)) = size regions
  /\ (regions = ∅ ->
      status (fst (validate_regions self regions)) = WARNING
      /\ errors (fst (validate_regions self regions)) = []
      /\ length (warnings (fst (validate_regions self regions))) = 1%nat
      /\ metadata (fst (validate_regions self regions)) = None)
  /\ (regions <> ∅ ->
      errors (fst (validate_regions self regions))
      = flat_map (region_errors (xero_regions self))
          (stable_sort String.ltb (elements regions))
      /\ warnings (fst (validate_regions self regions)) = []
      /\ (exists md,
            metadata (fst (validate_regions self regions)) = Some md
            /\ md_total_regions md = size regions
            /\ md_invalid_regions md
               = List.filter (fun n => negb (region_ok (xero_regions self) n))
                   (stable_sort String.ltb (elements regions))
            /\ (md_valid_regions md + length (md_invalid_regions md))%nat = size regions
            /\ md_xero_regions_count md = size (xero_regions self)
            /\ length (errors (fst (validate_regions self regions)))
               = length (md_invalid_regions md))
      /\ (is_valid (fst (validate_regions self regions)) = true
          <-> forall n, n ∈ regions -> region_ok (xero_regions self) n = true)
      /\ status (fst (validate_regions self regions))
         = (if is_valid (fst (validate_regions self regions)) then SUCCESS else FAILED)).
Proof.
  intros Hr. apply validator_reachable_sound in Hr. unfold validate_regions.
  destruct (bool_decide (regions = ∅)) eqn:He.
  { apply bool_decide_eq_true in He. cbn. split; [reflexivity |].
    split; [repeat split | congruence]. }
  apply bool_decide_eq_false in He.
  destruct (validate_each_spec (stable_sort String.ltb (elements regions)) self [] [] [] Hr)
    as (_ & Hx & Hf).
  destruct (validate_each _ _ _) as [[[errs warns] invalid] self'].
  cbn [fst snd] in *. injection Hf as -> -> ->. cbn [app] in *.
  pose proof (region_errors_length (xero_regions self)
                (stable_sort String.ltb (elements regions))) as Hlen.
  pose proof (filter_length_bound (fun n => negb (region_ok (xero_regions self) n))
                (stable_sort String.ltb (elements regions))) as Hle.
  rewrite sorted_elements_length in Hle.
  split; [reflexivity |]. split; [congruence |]. intros _.
  split; [reflexivity |]. split; [reflexivity |]. split.
  { eexists. split; [reflexivity |]. cbn. rewrite Hx. repeat split; [lia | exact Hlen]. }
  assert (Hiff : List.filter (fun n => negb (region_ok (xero_regions self) n))
                   (stable_sort String.ltb (elements regions)) = []
                 <-> forall n, n ∈ regions -> region_ok (xero_regions self) n = true).
  { split.
    - intros Hnil n Hn. destruct (region_ok (xero_regions self) n) eqn:E; [reflexivity |].
      assert (Hin : In n (List.filter (fun n => negb (region_ok (xero_regions self) n))
                            (stable_sort String.ltb (elements regions)))).
      { apply filter_In. split; [| now rewrite E].
        apply stable_sort_In, list_elem_of_In, elem_of_elements, Hn. }
      rewrite Hnil in Hin. contradiction.
    - intros Hall. apply filter_none. intros n Hn.
      apply stable_sort_In, list_elem_of_In, elem_of_elements in Hn.
      now rewrite (Hall n Hn). }
  destruct (flat_map (region_errors (xero_regions self))
              (stable_sort String.ltb (elements regions))) as [| e es] eqn:Ee.
  - cbn in Hlen. symmetry in Hlen. apply length_zero_iff_nil in Hlen.
    split; [| reflexivity]. split; [intros _; now apply Hiff | reflexivity].
  - split; [| reflexivity]. split; [discriminate |].
    intros Hall. apply Hiff in Hall. rewrite Hall in Hlen. discriminate.
Qed.

(** ** Overtime rates: the register and its application *)

Lemma lookup_overtime_rate_ci_source (name : string) (l : dict overtime_info) (r : Q) :
  lookup_overtime_rate_ci name l = Some r ->
  exists k info, In (k, info) l /\ lower k = lower name
                 /\ has_different_overtime_rate info = true
                 /\ oi_overtime_rate info = Some r.
Proof.
  induction l as [| [k info] l IH]; simpl; [discriminate |].
  destruct (String.eqb_spec (lower k) (lower name)) as [Hk | _]; simpl.
  - destruct (has_different_overtime_rate info) eqn:Hf.
    + intros Hr. exists k, info. repeat split; auto.
    + intros H. destruct (IH H) as (k' & info' & Hin & Hrest).
      exists k', info'. split; [now right | exact Hrest].
  - intros H. destruct (IH H) as (k' & info' & Hin & Hrest).
    exists k', info'. split; [now right | exact Hrest].
Qed.

Lemma lookup_overtime_rate_source (name : string) (overtime_data : overtime_rates) (r : Q) :
  lookup_overtime_rate name overtime_data = Some r ->
  exists k info, In (k, info) (register overtime_data) /\ lower k = lower name
                 /\ has_different_overtime_rate info = true
                 /\ oi_overtime_rate info = Some r.
Proof.
  unfold lookup_overtime_rate. fold (register overtime_data).
  destruct (dict_get name (register overtime_data)) as [info |] eqn:E;
    [| apply lookup_overtime_rate_ci_source].
  destruct (has_different_overtime_rate info) eqn:Hf;
    [| apply lookup_overtime_rate_ci_source].
  intros Hr. exists name, info. repeat split; auto. now apply dict_get_In.
Qed.

Lemma lookup_ci_none (name : string) (l : dict overtime_info) :
  (forall k info, In (k, info) l -> lower k <> lower name) ->
  lookup_overtime_rate_ci name l = None /\ has_different_ci name l = false.
Proof.
  induction l as [| [k info] l IH]; intros H; simpl; [auto |].
  destruct (String.eqb_spec (lower k) (lower name)) as [Hk | _].
  - exfalso. apply (H k info); [now left | exact Hk].
  - simpl. apply IH. intros k' info' Hin. apply (H k' info'). now right.
Qed.

Lemma has_different_ci_source (name : string) (l : dict overtime_info) :
  has_different_ci name l = true ->
  exists k info, In (k, info) l /\ lower k = lower name
                 /\ has_different_overtime_rate info = true
                 /\ lookup_overtime_rate_ci name l = oi_overtime_rate info.
Proof.
  induction l as [| [k info] l IH]; simpl; [discriminate |].
  destruct (String.eqb_spec (lower k) (lower name)) as [Hk | _]; simpl.
  - intros Hf. rewrite Hf. exists k, info. repeat split; auto.
  - intros H. destruct (IH H) as (k' & info' & Hin & Hrest).
    exists k', info'. split; [now right | exact Hrest].
Qed.

(** X24: a rate returned by [_lookup_overtime_rate] is the rate of a
    register entry whose name equals the employee name up to case and
    that is flagged as having a different rate; when no register name
    equals the employee name up to case there is no rate and no flag;
    and when [has_different_overtime_rate] is true the lookup returns
    the rate field of such a flagged entry. *)
Theorem lookup_overtime_rate_from_register (name : string) (overtime_data : overtime_rates) :
  (forall r, lookup_overtime_rate name overtime_data = Some r ->
     exists k info, In (k, info) (register overtime_data) /\ lower k = lower name
                    /\ has_different_overtime_rate info = true
                    /\ oi_overtime_rate info = Some r)
  /\ ((forall k info, In (k, info) (register overtime_data) -> lower k <> lower name) ->
      lookup_overtime_rate name overtime_data = None
      /\ employee_has_different_overtime_rate name overtime_data = false)
  /\ (employee_has_different_overtime_rate name overtime_data = true ->
      exists k info, In (k, info) (register overtime_data) /\ lower k = lower name
                     /\ has_different_overtime_rate info = true
                     /\ lookup_overtime_rate name overtime_data = oi_overtime_rate info)
  /\ get_overtime_rate name overtime_data = lookup_overtime_rate name overtime_data.
Proof.
  split; [intros r; apply lookup_overtime_rate_source |]. split; [| split; [| reflexivity]].
  - intros Hno. unfold lookup_overtime_rate, employee_has_different_overtime_rate.
    fold (register overtime_data).
    destruct (dict_get name (register overtime_data)) as [info |] eqn:E.
    + apply dict_get_In in E. now apply Hno in E.
    + now apply lookup_ci_none.
  - unfold lookup_overtime_rate, employee_has_different_overtime_rate.
    fold (register overtime_data).
    destruct (dict_get name (register overtime_data)) as [info |] eqn:E.
    + intros Hf. rewrite Hf. exists name, info. repeat split; auto. now apply dict_get_In.
    + apply has_different_ci_source.
Qed.

Lemma check_same_period_ok (pay_period_end : date) (l : list EmployeeTimesheet) :
  check_same_period pay_period_end l = Ok tt <->
  (forall t, In t l -> pay_period_end_date t = pay_period_end).
Proof.
  induction l as [| t l IH]; simpl; [split; [intros _ ? [] | reflexivity] |].
  destruct (Z.eqb_spec (pay_period_end_date t) pay_period_end) as [He | Hne]; simpl.
  - rewrite IH. split; [intros H x [<- | Hx]; auto | intros H x Hx; apply H; now right].
  - split; [discriminate | intros H; exfalso; apply Hne, H; now left].
Qed.

Lemma EmployeeTimesheet_validate_ok (t : EmployeeTimesheet) :
  EmployeeTimesheet_validate t = Ok tt <->
  blank (employee_name t) = false /\ daily_entries t <> []
  /\ (forall e, In e (daily_entries t) -> (entry_date e <= pay_period_end_date t)%Z).
Proof.
  unfold EmployeeTimesheet_validate.
  destruct (blank (employee_name t)); cbn [negb bind];
    [split; [discriminate | intros [H _]; discriminate] |].
  destruct (daily_entries t) as [| e0 es0] eqn:E;
    [split; [discriminate | intros (_ & H & _); congruence] |].
  rewrite check_entries_within_ok. split; [intros H; repeat split; [discriminate | exact H] |].
  now intros (_ & _ & H).
Qed.

Lemma PayrollData_validate_ok (p : PayrollData) :
  PayrollData_validate p = Ok tt <->
  employee_timesheets p <> []
  /\ (forall t, In t (employee_timesheets p) ->
        pay_period_end_date t = pd_pay_period_end_date p).
Proof.
  unfold PayrollData_validate.
  destruct (employee_timesheets p) as [| t0 ts0] eqn:E;
    [split; [discriminate | intros [H _]; congruence] |].
  rewrite check_same_period_ok. split; [intros H; split; [discriminate | exact H] |].
  now intros [_ H].
Qed.

Lemma apply_overtime_rate_ok (name : string) (overtime_data : overtime_rates)
    (e e' : DailyEntry) :
  valid_entry e ->
  apply_overtime_rate name overtime_data e = Ok e' ->
  rate_applied name overtime_data e e' /\ valid_entry e'.
Proof.
  intros Hv. unfold apply_overtime_rate, rate_applied.
  destruct (hour_type e) eqn:Ht; cbn [HourType_eqb andb];
    try (intros [= <-]; repeat split; first [exact Hv | exact Ht | reflexivity]).
  destruct (overtime_rate e) eqn:Hr;
    [intros [= <-]; repeat split; first [exact Hv | exact Ht | reflexivity] |].
  intros H. pose proof (new_DailyEntry_valid_entry _ _ _ _ _ _ _ _ _ _ H) as Hv'.
  apply new_DailyEntry_ok in H as [-> _]. cbn. repeat split. exact Hv'.
Qed.

Lemma apply_overtime_rate_total (name : string) (overtime_data : overtime_rates)
    (e : DailyEntry) :
  valid_entry e -> rates_not_negative overtime_data ->
  exists e', apply_overtime_rate name overtime_data e = Ok e'.
Proof.
  intros Hv Hnn. unfold apply_overtime_rate.
  destruct (HourType_eqb (hour_type e) OVERTIME
            && match overtime_rate e with None => true | Some _ => false end);
    [| now eexists].
  apply DailyEntry_validate_ok in Hv as (H0 & H24 & Hb & _).
  eexists. unfold new_DailyEntry, bind.
  match goal with |- context [DailyEntry_validate ?x] =>
    assert (Hx : DailyEntry_validate x = Ok tt) end; [| rewrite Hx; reflexivity].
  apply DailyEntry_validate_ok. cbn. repeat split; try assumption.
  intros r Hr. apply lookup_overtime_rate_source in Hr as (k & info & Hin & _ & _ & Hrate).
  exact (Hnn k info r Hin Hrate).
Qed.

Lemma Forall2_length_eq {A B : Type} (R : A -> B -> Prop) (l : list A) (l' : list B) :
  Forall2 R l l' -> length l = length l'.
Proof. induction 1; simpl; congruence. Qed.

(** X25: on payroll data that passes its constructor checks,
    [apply_overtime_rates_to_payroll] succeeds when the register holds
    no negative rate.  Its result keeps the pay-period end date and the
    timesheets in order, each with its name, end date and Xero employee
    id but without payroll calendar id; an entry keeps its date, region,
    hours, hour type and Xero ids; an OVERTIME entry without rate gets
    the rate of the register and is rebuilt with no original region and
    [region_valid] true, every other entry is unchanged. *)
Theorem apply_overtime_rates_effect (payroll_data : PayrollData)
    (overtime_data : overtime_rates) :
  valid_payroll payroll_data ->
  (rates_not_negative overtime_data ->
   exists updated, apply_overtime_rates_to_payroll payroll_data overtime_data = Ok updated)
  /\ forall updated,
       apply_overtime_rates_to_payroll payroll_data overtime_data = Ok updated ->
       pd_pay_period_end_date updated = pd_pay_period_end_date payroll_data
       /\ valid_payroll updated
       /\ Forall2 (fun t t' =>
                     employee_name t' = employee_name t
                     /\ pay_period_end_date t' = pay_period_end_date t
                     /\ xero_employee_id t' = xero_employee_id t
                     /\ payroll_calendar_id t' = None
                     /\ Forall2 (rate_applied (employee_name t) overtime_data)
                          (daily_entries t) (daily_entries t'))
            (employee_timesheets payroll_data) (employee_timesheets updated).
Proof.
  intros [Hvp Hvt]. unfold apply_overtime_rates_to_payroll, bind. split.
  - intros Hnn.
    destruct (mapM_all_ok
                (fun timesheet =>
                   match mapM (apply_overtime_rate (employee_name timesheet) overtime_data)
                           (daily_entries timesheet) with
                   | Ok updated_entries =>
                       new_EmployeeTimesheet (employee_name timesheet) updated_entries
                         (pay_period_end_date timesheet) (xero_employee_id timesheet) None
                   | Err e => Err e
                   end) (employee_timesheets payroll_data)) as [ts' Hts].
    { intros t Ht. destruct (Hvt t Ht) as [Hval Hes].
      destruct (mapM_all_ok (apply_overtime_rate (employee_name t) overtime_data)
                  (daily_entries t)) as [es' Hes'].
      { intros e He. apply apply_overtime_rate_total; [now apply Hes | exact Hnn]. }
      rewrite Hes'. apply mapM_Forall2 in Hes'.
      apply EmployeeTimesheet_validate_ok in Hval as (Hb & Hne & Hle).
      eexists. unfold new_EmployeeTimesheet, bind.
      match goal with |- context [EmployeeTimesheet_validate ?x] =>
        assert (Hx : EmployeeTimesheet_validate x = Ok tt) end; [| rewrite Hx; reflexivity].
      apply EmployeeTimesheet_validate_ok. cbn. split; [exact Hb |]. split.
      - intros ->. apply Forall2_length_eq in Hes'. destruct (daily_entries t); [congruence |].
        discriminate.
      - intros e' He'.
        destruct (Forall2_In_right _ _ _ _ Hes' He') as (e & He & Hap).
        apply (apply_overtime_rate_ok _ _ _ _ (Hes e He)) in Hap as [(Hd & _) _].
        rewrite Hd. now apply Hle. }
    rewrite Hts. apply mapM_Forall2 in Hts.
    apply PayrollData_validate_ok in Hvp as [Hne Hsame].
    eexists. unfold new_PayrollData, bind.
    match goal with |- context [PayrollData_validate ?x] =>
      assert (Hx : PayrollData_validate x = Ok tt) end; [| rewrite Hx; reflexivity].
    apply PayrollData_validate_ok. cbn. split.
    + intros ->. apply Forall2_length_eq in Hts.
      destruct (employee_timesheets payroll_data); [congruence | discriminate].
    + intros t' Ht'.
      destruct (Forall2_In_right _ _ _ _ Hts Ht') as (t & Ht & Hnew).
      destruct (mapM _ (daily_entries t)) as [es' |]; [| discriminate].
      apply new_EmployeeTimesheet_ok in Hnew as (-> & _). cbn. now apply Hsame.
  - intros updated H.
    destruct (mapM _ (employee_timesheets payroll_data)) as [ts' |] eqn:Hts; [| discriminate].
    apply mapM_Forall2 in Hts.
    unfold new_PayrollData, bind in H.
    match type of H with context [PayrollData_validate ?x] =>
      destruct (PayrollData_validate x) as [[] |] eqn:Hv'; [| discriminate] end.
    injection H as <-. cbn [pd_pay_period_end_date employee_timesheets].
    split; [reflexivity |].
    assert (Hall : Forall2 (fun t t' =>
                     (employee_name t' = employee_name t
                      /\ pay_period_end_date t' = pay_period_end_date t
                      /\ xero_employee_id t' = xero_employee_id t
                      /\ payroll_calendar_id t' = None
                      /\ Forall2 (rate_applied (employee_name t) overtime_data)
                           (daily_entries t) (daily_entries t'))
                     /\ valid_timesheet t')
                  (employee_timesheets payroll_data) ts').
    { clear Hv' Hvp. induction Hts as [| t t' ts ts' Hnew _ IH]; constructor.
      - destruct (mapM _ (daily_entries t)) as [es' |] eqn:Hes; [| discriminate].
        apply mapM_Forall2 in Hes.
        pose proof (new_EmployeeTimesheet_validates _ _ _ _ _ _ Hnew) as Hval'.
        apply new_EmployeeTimesheet_ok in Hnew as (-> & _). cbn.
        destruct (Hvt t (or_introl eq_refl)) as [_ Hes0].
        assert (Hpair : Forall2 (fun e e' => rate_applied (employee_name t) overtime_data e e'
                                             /\ valid_entry e') (daily_entries t) es').
        { clear Hval'. induction Hes as [| e e' es es'' Hap _ IHes]; constructor.
          - apply apply_overtime_rate_ok; [apply Hes0; now left | exact Hap].
          - apply IHes. intros d Hd. apply Hes0. now right. }
        split; [repeat split |].
        + eapply Forall2_impl; [exact Hpair |]. now intros e e' [H _].
        + split; [exact Hval' |]. cbn. intros d Hd.
          destruct (Forall2_In_right _ _ _ _ Hpair Hd) as (e & _ & _ & Hvd). exact Hvd.
      - apply IH. intros t0 Ht0. apply Hvt. now right. }
    split.
    + split; [exact Hv' |]. cbn. intros t' Ht'.
      destruct (Forall2_In_right _ _ _ _ Hall Ht') as (t & _ & _ & Hvt'). exact Hvt'.
    + eapply Forall2_impl; [exact Hall |]. now intros t t' [H _].
Qed.

Section MatcherBatchProperties.
Context {F : Fuzz}.

Lemma match_employee_transparent (m : EmployeeMatcher) (name : string) (rc : bool) :
  same_answers m (snd (match_employee m name rc)).
Proof.
  intros n rc'. unfold match_employee at 2.
  destruct (blank name); [reflexivity |].
  destruct (match_cache m !! (strip name, rc)) as [cached |] eqn:Hc; [reflexivity |].
  cbn [snd]. unfold match_employee.
  destruct (blank n); [reflexivity |]. cbn [match_cache].
  destruct (decide ((strip name, rc) = (strip n, rc'))) as [Heq | Hne].
  - injection Heq as Hn Hr. rewrite <- Hn, <- Hr, lookup_insert_eq, Hc. reflexivity.
  - rewrite lookup_insert_ne by exact Hne.
    destruct (match_cache m !! (strip n, rc')); reflexivity.
Qed.

(** A loop that calls [match_employee] for each name computes what the
    answers of the matcher it started with give. *)
Lemma fold_match {A : Type} (g : A -> string -> MatchResult -> A) (rc : bool)
    (self : EmployeeMatcher) (names : list string) (a : A) (m : EmployeeMatcher) :
  same_answers self m ->
  fst (fold_left
         (fun (st : A * EmployeeMatcher) name =>
            let (result, self') := match_employee (snd st) name rc in
            (g (fst st) name result, self'))
         names (a, m))
  = fold_left (fun a name => g a name (answer self rc name)) names a
  /\ same_answers self
       (snd (fold_left
               (fun (st : A * EmployeeMatcher) name =>
                  let (result, self') := match_employee (snd st) name rc in
                  (g (fst st) name result, self'))
               names (a, m))).
Proof.
  revert a m. induction names as [| name names IH]; intros a m Hm; [now split |].
  cbn [fold_left fst snd].
  pose proof (match_employee_transparent m name rc) as Ht.
  pose proof (Hm name rc) as Hans.
  destruct (match_employee m name rc) as [r m'] eqn:E. cbn [fst snd] in *.
  replace (answer self rc name) with r by exact Hans. apply IH.
  intros n rc'. rewrite (Ht n rc'). apply Hm.
Qed.

Lemma same_answers_refl (self : EmployeeMatcher) : same_answers self self.
Proof. now intros n rc. Qed.

Lemma count_results (results : list MatchResult) (a b c d : nat) :
  fold_left count_result results (a, b, c, d)
  = ((a + length (List.filter counts_exact results))%nat,
     (b + length (List.filter counts_fuzzy results))%nat,
     (c + length (List.filter counts_none results))%nat,
     (d + length (List.filter requires_confirmation results))%nat).
Proof.
  revert a b c d. induction results as [| r results IH]; intros a b c d.
  - cbn. now rewrite !Nat.add_0_r.
  - cbn [fold_left List.filter]. unfold count_result at 2.
    unfold counts_fuzzy, counts_none, counts_exact.
    destruct (Qeq_bool (confidence_score r) 100), (is_no_match r),
      (requires_confirmation r); cbn [negb andb];
      rewrite IH; unfold counts_fuzzy, counts_none, counts_exact; cbn [length];
      (apply (f_equal2 pair); [apply (f_equal2 pair); [apply (f_equal2 pair) |] |]); lia.
Qed.

Lemma counts_partition (results : list MatchResult) :
  (length (List.filter counts_exact results) + length (List.filter counts_fuzzy results)
   + length (List.filter counts_none results))%nat = length results.
Proof.
  induction results as [| r results IH]; [reflexivity |]. cbn [List.filter].
  assert (Hf : counts_fuzzy r = negb (counts_exact r) && negb (is_no_match r))
    by reflexivity.
  assert (Hn : counts_none r = negb (counts_exact r) && is_no_match r) by reflexivity.
  rewrite Hf, Hn.
  destruct (counts_exact r), (is_no_match r); cbn [negb andb length]; lia.
Qed.

End MatcherBatchProperties.

Lemma fold_left_through_map {A B C : Type} (f : A -> C -> A) (g : B -> C) (l : list B)
    (a : A) :
  fold_left (fun a x => f a (g x)) l a = fold_left f (map g l) a.
Proof. revert a. induction l as [| x l IH]; intros a; simpl; [reflexivity | apply IH]. Qed.

Lemma rate_bounds (matched total : nat) :
  (0 < total)%nat -> (matched <= total)%nat ->
  (0 <= inject_Z (Z.of_nat matched) / inject_Z (Z.of_nat total) * 100)%Q
  /\ (inject_Z (Z.of_nat matched) / inject_Z (Z.of_nat total) * 100 <= 100)%Q
  /\ (inject_Z (Z.of_nat matched) / inject_Z (Z.of_nat total) * 100
      * inject_Z (Z.of_nat total)
      == inject_Z (Z.of_nat matched) * 100)%Q.
Proof.
  intros Hpos Hle.
  assert (Ht : (0 < inject_Z (Z.of_nat total))%Q).
  { change 0%Q with (inject_Z 0). rewrite <- Zlt_Qlt. lia. }
  assert (Hm : (0 <= inject_Z (Z.of_nat matched))%Q).
  { change 0%Q with (inject_Z 0). rewrite <- Zle_Qle. lia. }
  assert (Hmt : (inject_Z (Z.of_nat matched) <= inject_Z (Z.of_nat total))%Q).
  { rewrite <- Zle_Qle. lia. }
  assert (H0 : (0 <= inject_Z (Z.of_nat matched) / inject_Z (Z.of_nat total))%Q).
  { apply Qle_shift_div_l; [exact Ht | lra]. }
  assert (H1 : (inject_Z (Z.of_nat matched) / inject_Z (Z.of_nat total) <= 1)%Q).
  { apply Qle_shift_div_r; [exact Ht | lra]. }
  split; [lra |]. split; [lra |]. field. lra.
Qed.

Section MatcherBatchTheorems.
Context {F : Fuzz}.

(** X26: [get_matching_statistics] counts the answers that
    [match_employee] gives for the names when asked with confirmation:
    those with score 100 as exact matches, the others as fuzzy matches
    or, with confidence NO_MATCH, as no matches, so that the three
    counters add up to the number of names; it counts the answers that
    require confirmation; the match rate lies between 0 and 100 and is
    the share of exact and fuzzy matches; the roster and the thresholds
    of the matcher are left as they are. *)
Theorem matching_statistics_partition (self : EmployeeMatcher) (names : list string) :
  total_employees (fst (get_matching_statistics self names)) = length names
  /\ exact_matches (fst (get_matching_statistics self names))
     = length (List.filter counts_exact (map (answer self true) names))
  /\ fuzzy_matches (fst (get_matching_statistics self names))
     = length (List.filter counts_fuzzy (map (answer self true) names))
  /\ no_matches (fst (get_matching_statistics self names))
     = length (List.filter counts_none (map (answer self true) names))
  /\ requires_confirmation_count (fst (get_matching_statistics self names))
     = length (List.filter requires_confirmation (map (answer self true) names))
  /\ (exact_matches (fst (get_matching_statistics self names))
      + fuzzy_matches (fst (get_matching_statistics self names))
      + no_matches (fst (get_matching_statistics self names)))%nat = length names
  /\ (requires_confirmation_count (fst (get_matching_statistics self names))
      <= length names)%nat
  /\ (0 <= match_rate (fst (get_matching_statistics self names)))%Q
  /\ (match_rate (fst (get_matching_statistics self names)) <= 100)%Q
  /\ (match_rate (fst (get_matching_statistics self names))
      * inject_Z (Z.of_nat (length names))
      == inject_Z (Z.of_nat (exact_matches (fst (get_matching_statistics self names))
                             + fuzzy_matches (fst (get_matching_statistics self names))))
         * 100)%Q
  /\ same_answers self (snd (get_matching_statistics self names)).
Proof.
  unfold get_matching_statistics.
  destruct names as [| n0 names0] eqn:En.
  { cbn. repeat split; try reflexivity; try lra. }
  assert (Hpos : (0 < length names)%nat) by (rewrite En; simpl; lia).
  rewrite <- En. clear En.
  destruct (fold_match (fun c (_ : string) r => count_result c r) true self names
              (0, 0, 0, 0)%nat self (same_answers_refl self)) as [Hfst Hsnd].
  rewrite (fold_left_through_map count_result (answer self true)), count_results in Hfst.
  cbn [Nat.add] in Hfst.
  destruct (fold_left _ names (0%nat, 0%nat, 0%nat, 0%nat, self))
    as [[[[exact fuzzy] none] confirm] self'].
  cbn [fst snd] in *. injection Hfst as -> -> -> ->.
  pose proof (counts_partition (map (answer self true) names)) as Hpart.
  rewrite length_map in Hpart.
  pose proof (filter_length_bound requires_confirmation (map (answer self true) names))
    as Hrc.
  rewrite length_map in Hrc.
  destruct (rate_bounds
              (length (List.filter counts_exact (map (answer self true) names))
               + length (List.filter counts_fuzzy (map (answer self true) names)))
              (length names) Hpos) as (Hr0 & Hr1 & Hr2); [lia |].
  apply Nat.ltb_lt in Hpos. rewrite Hpos.
  repeat split; try reflexivity; try assumption.
Qed.

(** X27: the batch methods give what the single answers give, whatever
    the cache holds and whatever the order of the names is:
    [match_employees_batch] maps every name to the answer of
    [match_employee], [get_unmatched_employees] returns, in order, the
    names answered with NO_MATCH when asked without confirmation, and
    [get_ambiguous_matches] the answers that require confirmation and
    have suggestions. *)
Theorem batch_methods_follow_single_answers (self : EmployeeMatcher) (names : list string)
    (rc : bool) :
  (forall name, In name names ->
     dict_get name (fst (match_employees_batch self names rc)) = Some (answer self rc name))
  /\ fst (get_unmatched_employees self names)
     = List.filter (fun name => is_no_match (answer self false name)) names
  /\ fst (get_ambiguous_matches self names)
     = List.filter (fun r => requires_confirmation r && has_suggestions r)
         (map (answer self true) names)
  /\ same_answers self (snd (match_employees_batch self names rc))
  /\ same_answers self (snd (get_unmatched_employees self names))
  /\ same_answers self (snd (get_ambiguous_matches self names)).
Proof.
  unfold match_employees_batch, get_unmatched_employees, get_ambiguous_matches.
  destruct (fold_match (fun results name r => dict_set name r results) rc self names
              [] self (same_answers_refl self)) as [H1 S1].
  destruct (fold_match (fun (l : list string) name r =>
                          if is_no_match r then l ++ [name] else l) false self names
              [] self (same_answers_refl self)) as [H2 S2].
  destruct (fold_match (fun (l : list MatchResult) (_ : string) r =>
                          if requires_confirmation r && has_suggestions r
                          then l ++ [r] else l) true self names
              [] self (same_answers_refl self)) as [H3 S3].
  cbv beta in H1, H2, H3, S1, S2, S3. unfold dict in *.
  split; [| split; [| split; [| auto]]].
  - intros name Hin. rewrite H1. clear H1 H2 H3 S1 S2 S3.
    assert (Hgen : forall d,
              dict_get name d = Some (answer self rc name) \/ In name names ->
              dict_get name
                (fold_left (fun a n => dict_set n (answer self rc n) a) names d)
              = Some (answer self rc name)).
    { clear Hin. induction names as [| n names IH]; intros d Hd; cbn [fold_left].
      - destruct Hd as [Hd | []]. exact Hd.
      - apply IH. destruct (String.eqb_spec n name) as [-> | Hne].
        + left. apply dict_get_set_same.
        + destruct Hd as [Hd | [Hd | Hd]]; [| congruence | now right].
          left. now rewrite dict_get_set_other. }
    apply Hgen. now right.
  - rewrite H2. clear H1 H2 H3 S1 S2 S3.
    assert (Hgen : forall acc,
              fold_left (fun (l : list string) name =>
                           if is_no_match (answer self false name) then l ++ [name] else l)
                names acc
              = acc ++ List.filter (fun name => is_no_match (answer self false name)) names).
    { induction names as [| n names IH]; intros acc; cbn [fold_left List.filter];
        [now rewrite app_nil_r |].
      rewrite IH. destruct (is_no_match (answer self false n)); [| reflexivity].
      now rewrite <- app_assoc. }
    apply Hgen.
  - rewrite H3. clear H1 H2 H3 S1 S2 S3.
    assert (Hgen : forall acc,
              fold_left (fun (l : list MatchResult) name =>
                           if requires_confirmation (answer self true name)
                              && has_suggestions (answer self true name)
                           then l ++ [answer self true name] else l) names acc
              = acc ++ List.filter (fun r => requires_confirmation r && has_suggestions r)
                         (map (answer self true) names)).
    { induction names as [| n names IH]; intros acc; cbn [fold_left List.filter map];
        [now rewrite app_nil_r |].
      rewrite IH. destruct (requires_confirmation (answer self true n)
                            && has_suggestions (answer self true n)); [| reflexivity].
      now rewrite <- app_assoc. }
    apply Hgen.
Qed.

End MatcherBatchTheorems.

(** * The statements at sample inputs *)

Example cap_sample_week :
  map r_hours (ed_entries (cap_employee sample_week)) = [9; 9; 9; 9; 4; 2]%Q.
Proof. reflexivity. Qed.

Example cap_sample_week_no_overtime :
  cap_employee sample_week_no_overtime = sample_week_no_overtime.
Proof. reflexivity. Qed.

Example build_sample_timesheet_long_window :
  exists payload,
    build_timesheet sample_timesheet_long sample_tracking sample_earnings = Ok payload
    /\ StartDate payload = 739000%Z /\ EndDate payload = 739006%Z.
Proof. eexists. split; [vm_compute; reflexivity |]. split; reflexivity. Qed.

Example export_sample_unknown_twice :
  map x_daily_entries (x_employees (to_target_json_format sample_payroll_unknown_twice))
  = [[{| x_entry_date := 739000; x_region_name := "Unknown"; x_hours := 0;
         x_hour_type := "REGULAR"; x_overtime_rate := None |}]].
Proof. reflexivity. Qed.

Example match_sample_strips_and_folds_case :
  matched_id (fst (match_employee (F := sample_fuzz) sample_matcher "  ann LEE " true))
  = Some "emp-1".
Proof. vm_compute. reflexivity. Qed.


Lemma EmployeeTimesheet_entries_within_period_witness :
  exists err,
    new_EmployeeTimesheet "Ann Lee" [sample_entry 739010 "North" 8 REGULAR] 739006
      None None = Err err.
Proof.
  apply (proj1 (EmployeeTimesheet_entries_within_period "Ann Lee"
                  [sample_entry 739010 "North" 8 REGULAR] 739006 None None)).
  eexists. split; [left; reflexivity | simpl; lia].
Defined.

Lemma build_timesheet_date_window_witness :
  exists payload earliest latest,
    build_timesheet sample_timesheet sample_tracking sample_earnings = Ok payload
    /\ In earliest (map entry_date (daily_entries sample_timesheet))
    /\ In latest (map entry_date (daily_entries sample_timesheet))
    /\ StartDate payload = earliest
    /\ ((latest - earliest <= 30)%Z -> EndDate payload = 739006%Z).
Proof.
  destruct (build_timesheet sample_timesheet sample_tracking sample_earnings)
    as [payload | err] eqn:Hb; [| vm_compute in Hb; discriminate].
  destruct (build_timesheet_date_window _ _ _ payload Hb)
    as (earliest & latest & H1 & H2 & _ & H3 & H4 & _); [discriminate |].
  exists payload, earliest, latest. repeat split; assumption.
Defined.

Lemma build_timesheet_missing_mappings_witness :
  exists e, build_timesheet sample_timesheet ∅ sample_earnings = Err e
            /\ forall k, In k (reported_keys e) <-> region_unmapped sample_timesheet ∅ k.
Proof.
  assert (Hr : region_unmapped sample_timesheet ∅ "North").
  { split; [| reflexivity]. eexists. split; [left; reflexivity | reflexivity]. }
  destruct (build_timesheet_missing_mappings sample_timesheet ∅ sample_earnings)
    as (e & He & Hkeys).
  - left. now exists "North".
  - exists e. split; [exact He |].
    apply (proj1 (Hkeys eq_refl)). now exists "North".
Defined.

Lemma find_fuzzy_matches_acceptance_witness :
  exists m, In m (find_fuzzy_matches (F := sample_fuzz) sample_matcher "bob ray")
            /\ fm_name m = "Bob Ray"
            /\ (suggestion_threshold sample_matcher <= fm_score m)%Q.
Proof.
  assert (Hin : In {| fm_name := "Bob Ray"; fm_employee_id := "emp-2";
                      fm_score := 100; fm_last_name_score := 100 |}
                   (find_fuzzy_matches (F := sample_fuzz) sample_matcher "bob ray")).
  { vm_compute. left. reflexivity. }
  eexists. split; [exact Hin |]. split; [reflexivity |].
  destruct (proj1 (find_fuzzy_matches_acceptance (F := sample_fuzz) sample_matcher "bob ray")
              _ Hin)
    as (employee & best & tsort & tset & last & _ & _ & _ & _ & Hs & Hb & _).
  now rewrite Hs.
Defined.


Lemma export_unknown_entries_collapse_witness :
  exists exported,
    In exported (x_employees (to_target_json_format sample_payroll_unknown_twice))
    /\ (length (List.filter (is_unknown_row 739000%Z REGULAR) (x_daily_entries exported))
        <= 1)%nat.
Proof.
  destruct (export_unknown_entries_collapse sample_payroll_unknown_twice
              sample_timesheet_unknown_twice 739000%Z REGULAR)
    as (exported & Hin & _ & _ & Hlen & _).
  - left. reflexivity.
  - exists exported. split; [exact Hin | exact Hlen].
Defined.

Lemma consolidate_quarantines_unknown_regions_witness :
  exists payroll st,
    consolidate (sample_site "South") sample_travel sample_overtime
      (Some ({[ "North" ]} : gset string)) = Ok (payroll, st)
    /\ In "South" (rep_unknown_regions (get_unknown_region_report st)).
Proof.
  destruct (consolidate (sample_site "South") sample_travel sample_overtime
              (Some ({[ "North" ]} : gset string)))
    as [[payroll st] | err] eqn:Hc; [| vm_compute in Hc; discriminate].
  exists payroll, st. split; [reflexivity |].
  destruct (consolidate_quarantines_unknown_regions _ _ _ _ _ _ Hc) as [Hsite _].
  destruct (Hsite _ _ (or_introl eq_refl) (or_introl eq_refl))
    as (t & d & _ & _ & _ & _ & _ & _ & _ & _ & Hreg & _).
  - simpl. apply not_elem_of_singleton. discriminate.
  - apply Hreg. discriminate.
Defined.

Lemma export_redacts_unknown_hours_witness :
  exists payroll st,
    consolidate (sample_site "South") sample_travel sample_overtime
      (Some ({[ "North" ]} : gset string)) = Ok (payroll, st)
    /\ forall t d,
         In t (employee_timesheets payroll) -> In d (daily_entries t) ->
         region_name d = "Unknown" -> region_valid d = false ->
         In {| ur_employee_name := employee_name t;
               ur_original_region := original_region d;
               ur_entry_date := entry_date d;
               ur_hours := hours d |}
            (rep_unknown_region_entries (get_unknown_region_report st)).
Proof.
  destruct (consolidate (sample_site "South") sample_travel sample_overtime
              (Some ({[ "North" ]} : gset string)))
    as [[payroll st] | err] eqn:Hc; [| vm_compute in Hc; discriminate].
  exists payroll, st. split; [reflexivity |].
  intros t d Ht Hd Hu Hv.
  exact (proj2 (export_redacts_unknown_hours _ _ _ _ _ _ t d Hc Ht Hd Hu) Hv).
Defined.

Lemma PayrollData_dict_round_trip_witness :
  exists payroll st,
    consolidate sample_week_site sample_travel_log sample_overtime_register None
    = Ok (payroll, st)
    /\ PayrollData_from_dict (PayrollData_to_dict payroll) = Ok payroll.
Proof.
  destruct (consolidate sample_week_site sample_travel_log sample_overtime_register None)
    as [[payroll st] | err] eqn:Hc; [| vm_compute in Hc; discriminate].
  exists payroll, st. split; [reflexivity |].
  apply PayrollData_dict_round_trip.
  vm_compute in Hc. injection Hc as <- _.
  split; [reflexivity |]. intros t Ht.
  repeat (destruct Ht as [<- | Ht]; [split; [reflexivity |]; intros d Hd;
    repeat (destruct Hd as [<- | Hd]; [reflexivity |]); destruct Hd |]).
  destruct Ht.
Defined.

Lemma consolidate_one_sorted_timesheet_per_employee_witness :
  exists payroll st,
    consolidate sample_week_site sample_travel_log sample_overtime_register None
    = Ok (payroll, st)
    /\ StronglySorted (fun a b => String.ltb (employee_name a) (employee_name b) = true)
         (employee_timesheets payroll).
Proof.
  destruct (consolidate sample_week_site sample_travel_log sample_overtime_register None)
    as [[payroll st] | err] eqn:Hc; [| vm_compute in Hc; discriminate].
  exists payroll, st. split; [reflexivity |].
  exact (proj1 (consolidate_one_sorted_timesheet_per_employee _ _ _ _ _ _ Hc)).
Defined.

Lemma consolidate_keeps_each_entry_once_witness :
  exists payroll st,
    consolidate sample_week_site sample_travel_log sample_overtime_register None
    = Ok (payroll, st)
    /\ payroll_entry_count payroll = 8%nat.
Proof.
  destruct (consolidate sample_week_site sample_travel_log sample_overtime_register None)
    as [[payroll st] | err] eqn:Hc; [| vm_compute in Hc; discriminate].
  exists payroll, st. split; [reflexivity |].
  exact (proj1 (consolidate_keeps_each_entry_once _ _ _ _ _ _ Hc)).
Defined.

Lemma consolidate_entry_images_witness :
  exists payroll st t d,
    consolidate sample_week_site sample_travel_log sample_overtime_register
      (Some ({[ "North" ]} : gset string)) = Ok (payroll, st)
    /\ In t (employee_timesheets payroll) /\ employee_name t = "Al Roy"
    /\ In d (daily_entries t)
    /\ region_name d = "Unknown" /\ original_region d = Some "East" /\ hour_type d = TRAVEL.
Proof.
  destruct (consolidate sample_week_site sample_travel_log sample_overtime_register
              (Some ({[ "North" ]} : gset string)))
    as [[payroll st] | err] eqn:Hc; [| vm_compute in Hc; discriminate].
  destruct (consolidate_entry_images _ _ _ _ _ _ Hc) as [_ Htravel].
  destruct (Htravel _ _ (or_intror (or_introl eq_refl)) (or_introl eq_refl))
    as (t & d & Ht & Hn & Hd & Hi).
  exists payroll, st, t, d.
  destruct Hi as (_ & _ & Hty & _ & Horig & _ & Hreg & _).
  repeat split; assumption.
Defined.

Lemma consolidate_result_round_trips_witness :
  exists payroll st,
    consolidate (sample_site "North") sample_travel_log sample_overtime_register None
    = Ok (payroll, st)
    /\ PayrollData_from_dict (PayrollData_to_dict payroll) = Ok payroll.
Proof.
  destruct (consolidate (sample_site "North") sample_travel_log sample_overtime_register None)
    as [[payroll st] | err] eqn:Hc; [| vm_compute in Hc; discriminate].
  exists payroll, st. split; [reflexivity |].
  exact (proj2 (consolidate_result_round_trips _ _ _ _ _ _ Hc)).
Defined.

Lemma consolidate_pay_period_end_witness :
  exists payroll st,
    consolidate sample_week_site sample_travel_log sample_overtime_register None
    = Ok (payroll, st)
    /\ pd_pay_period_end_date payroll = 739006%Z.
Proof.
  destruct (consolidate sample_week_site sample_travel_log sample_overtime_register None)
    as [[payroll st] | err] eqn:Hc; [| vm_compute in Hc; discriminate].
  exists payroll, st. split; [reflexivity |].
  destruct (consolidate_pay_period_end _ _ _ _ _ _ Hc) as (site_end & Hend & _ & Hspan & _).
  injection Hend as <-.
  refine (proj1 (Hspan 739000%Z 739006%Z _ _ _) _).
  - now left.
  - simpl. tauto.
  - intros x Hx. simpl in Hx.
    repeat (destruct Hx as [<- | Hx]; [lia |]). destruct Hx.
  - lia.
Defined.

Lemma consolidate_success_requirements_witness :
  exists payroll st,
    consolidate sample_week_site sample_travel_log sample_overtime_register None
    = Ok (payroll, st)
    /\ file_type sample_week_site = "site_timesheet".
Proof.
  destruct (consolidate sample_week_site sample_travel_log sample_overtime_register None)
    as [[payroll st] | err] eqn:Hc; [| vm_compute in Hc; discriminate].
  exists payroll, st. split; [reflexivity |].
  exact (proj1 (proj1 (consolidate_success_requirements _ _ _ _ _ _ Hc))).
Defined.
